(** * interperf: stack-machine interpreters and their dispatch strategies

    A shallow embedding of the interpreters of the repository:
    [wordcode.c] (decode and branch), [handlercode2.c] (handler chaining),
    [directthreaded2.c], [directthreaded3.c], [directthreaded4.c] (direct
    threading) and [comboinstructions.c] (direct threading with the fused
    [SUB1] instruction), each with the Fibonacci bytecode built into it.
    (wordcode2.c, wordcode3.c and directthreaded.c are further variants of
    the same machine.) *)

From Stdlib Require Import ZArith List Lia Bool.
Import ListNotations.
Open Scope Z_scope.

(** ** Words and values *)

(** [word_t] is [uint64_t]: a 64-bit quantity. *)
Definition wrap (z : Z) : Z := z mod 2 ^ 64.

(** Reading a [word_t] as [int64_t]. *)
Definition signed (w : Z) : Z := if w <? 2 ^ 63 then w else w - 2 ^ 64.

(** What a [word_t] cell holds.  The sources cast pointers to words and
    back (the saved [bp] and [ip] of a frame); the numeric value of
    an address is not modelled, so a cell is either a number, the address
    [&stack[i]] or the address [&fib_code[i]].  [NULL] is [Word 0]. *)
Inductive val : Type :=
| Word (w : Z)
| StackPtr (i : Z)
| CodePtr (i : Z).

Definition NULL : val := Word 0.

(** [if (word)] *)
Definition truthy (v : val) : bool :=
  match v with Word 0 => false | _ => true end.

(** [ip == NULL] *)
Definition is_null (v : val) : bool :=
  match v with Word 0 => true | _ => false end.

(** Pointer arithmetic in units of words; on a word that is no address of
    the stack or of the code, the address arithmetic of 8-byte words. *)
Definition padd (p : val) (k : Z) : val :=
  match p with
  | StackPtr i => StackPtr (i + k)
  | CodePtr i => CodePtr (i + k)
  | Word w => Word (wrap (w + 8 * k))
  end.

(** ** The value stack *)

Definition STACK_SIZE : Z := 1024.

(** [static word_t stack[STACK_SIZE]] and the words around it: cell [i] for
    [0 <= i < STACK_SIZE] is [stack[i]]; the other indices are the words a
    pointer [stack + i] designates outside of the array, taken to be
    distinct from the code vector and the tables.  Nothing in the sources
    compares a stack pointer with the bounds of the array, and neither does
    the model.  An access outside the array has no meaning in C, so what a
    whole run returns is stated below for the runs that [execute_within]
    observes to stay inside the array. *)
Definition memory : Type := Z -> val.

Definition upd (m : memory) (i : Z) (v : val) : memory :=
  fun j => if j =? i then v else m j.

(** [memcpy(dst, src, n)] inside the stack, [n] counted in words. *)
Definition memcpy (m : memory) (dst src n : Z) : memory :=
  fun j => if (dst <=? j) && (j <? dst + n) then m (src + (j - dst)) else m j.

(** The words in [argc * sizeof(word_t)] bytes, the product being taken in
    [size_t]. *)
Definition copied_words (argc : Z) : Z := wrap (argc * 8) / 8.

Definition in_capacity (i : Z) : bool := (0 <=? i) && (i <? STACK_SIZE).

(** ** Interpreter state and control *)

(** [struct interpreter] (or the locals [ip], [sp], [bp] of [execute] in the
    direct-threaded files) together with the stack memory they point into. *)
Record interpreter : Type := mkInterp {
  ip : val;
  sp : val;
  bp : val;
  stack : memory
}.

(** How a run ends: [return word] (or the [longjmp] of handlercode2.c),
    [abort()], or behaviour that the C source leaves undefined (a read
    outside a table or outside the code vector, a jump through a word that
    is no handler address, arithmetic on an address). *)
Inductive halt : Type :=
| Returned (w : val)
| Aborted
| Undefined.

Inductive res (A : Type) : Type :=
| Next (a : A) (s : interpreter)
| Halt (h : halt).
Arguments Next {A} a s.
Arguments Halt {A} h.

Definition M (A : Type) : Type := interpreter -> res A.

Definition ret {A} (a : A) : M A := fun s => Next a s.
Definition bind {A B} (m : M A) (f : A -> M B) : M B :=
  fun s => match m s with Next a s' => f a s' | Halt h => Halt h end.
Definition stop {A} (h : halt) : M A := fun _ => Halt h.

Notation "x <- m ;; k" := (bind m (fun x => k))
  (at level 61, m at next level, right associativity).
Notation "m ;;; k" := (bind m (fun _ => k))
  (at level 61, right associativity).

Definition get_ip : M val := fun s => Next (ip s) s.
Definition get_sp : M val := fun s => Next (sp s) s.
Definition get_bp : M val := fun s => Next (bp s) s.
Definition set_ip (v : val) : M unit :=
  fun s => Next tt (mkInterp v (sp s) (bp s) (stack s)).
Definition set_sp (v : val) : M unit :=
  fun s => Next tt (mkInterp (ip s) v (bp s) (stack s)).
Definition set_bp (v : val) : M unit :=
  fun s => Next tt (mkInterp (ip s) (sp s) v (stack s)).

(** [*p] for a pointer into the stack. *)
Definition deref (p : val) : M val :=
  fun s => match p with
           | StackPtr i => Next (stack s i) s
           | _ => Halt Undefined
           end.

(** [*p = v] *)
Definition store (p : val) (v : val) : M unit :=
  fun s => match p with
           | StackPtr i => Next tt (mkInterp (ip s) (sp s) (bp s) (upd (stack s) i v))
           | _ => Halt Undefined
           end.

(** [*(interp->sp)++ = value], the macro [PUSH]. *)
Definition push (value : val) : M unit :=
  p <- get_sp ;; store p value ;;; set_sp (padd p 1).

(** [*--(interp->sp)], the macro [POP]. *)
Definition pop : M val :=
  p <- get_sp ;; set_sp (padd p (-1)) ;;; deref (padd p (-1)).

(** A popped word used as an [int64_t]. *)
Definition as_int (v : val) : M Z :=
  match v with Word w => ret (signed w) | _ => stop Undefined end.

(** A fetched word used as a number. *)
Definition as_word (v : val) : M Z :=
  match v with Word w => ret w | _ => stop Undefined end.

Definition of_bool (b : bool) : Z := if b then 1 else 0.

(** The three primitives; the same in every file. *)
Definition lessThan : M unit :=
  rhs <- (v <- pop ;; as_int v) ;;
  lhs <- (v <- pop ;; as_int v) ;;
  push (Word (of_bool (lhs <? rhs))).

Definition subtract : M unit :=
  rhs <- (v <- pop ;; as_int v) ;;
  lhs <- (v <- pop ;; as_int v) ;;
  push (Word (wrap (lhs - rhs))).

Definition add : M unit :=
  rhs <- (v <- pop ;; as_int v) ;;
  lhs <- (v <- pop ;; as_int v) ;;
  push (Word (wrap (lhs + rhs))).

Definition prim_handlers : list (M unit) := [lessThan; subtract; add].

Definition literals : list Z := [2; 1].

(** [table[word]]: a read outside the table is undefined. *)
Definition index {A} (table : list A) (word : Z) : M A :=
  match nth_error table (Z.to_nat word) with
  | Some a => if 0 <=? word then ret a else stop Undefined
  | None => stop Undefined
  end.

Record function : Type := mkFunction {
  frame_size : Z;
  code : val
}.

(** The dispatch loop ([while (true)], or the chain of [GOTO_NEXT]s), by
    a step function: [Some h] when the run ends within [fuel]
    instructions, [None] when the fuel runs out first. *)
Section Loop.
Variable step : M unit.

Fixpoint execute_loop (fuel : nat) (s : interpreter) : option halt :=
  match fuel with
  | O => None
  | S fuel' =>
      match step s with
      | Next _ s' => execute_loop fuel' s'
      | Halt h => Some h
      end
  end.

(** The state after [k] instructions. *)
Fixpoint steps (k : nat) (s : interpreter) : res unit :=
  match k with
  | O => Next tt s
  | S k' =>
      match step s with
      | Next _ s' => steps k' s'
      | Halt h => Halt h
      end
  end.

Definition reaches (s s' : interpreter) : Prop :=
  exists k, steps k s = Next tt s'.

Definition terminates (s : interpreter) (h : halt) : Prop :=
  exists fuel, execute_loop fuel s = Some h.

(** Some state satisfying [P] is reached. *)
Definition eventually (P : interpreter -> Prop) (s : interpreter) : Prop :=
  exists s', reaches s s' /\ P s'.
End Loop.

(** [sp] points into the first [cap] words of the stack, or just past
    them. *)
Definition sp_within (cap : Z) (s : interpreter) : bool :=
  match sp s with
  | StackPtr i => (0 <=? i) && (i <=? cap)
  | _ => false
  end.

(** The loop under observation: as [execute_loop], but [None] as well when
    a state of the run has [sp] outside of the first [cap] words.  (The
    sources have no such test; this is how the proofs tell the runs that
    stay inside the array.) *)
Fixpoint execute_within (step : M unit) (cap : Z) (fuel : nat)
  (s : interpreter) : option halt :=
  match fuel with
  | O => None
  | S fuel' =>
      if sp_within cap s then
        match step s with
        | Next _ s' => execute_within step cap fuel' s'
        | Halt h => Some h
        end
      else None
  end.

(** A state satisfying [P] is reached through states satisfying [I]. *)
Inductive safely (step : M unit) (I P : interpreter -> Prop)
  : interpreter -> Prop :=
| safely_now s : P s -> safely step I P s
| safely_step s s1 :
    I s -> step s = Next tt s1 -> safely step I P s1 -> safely step I P s.

(** Running the loop from the result of the set-up code. *)
Definition run_from (step : M unit) (fuel : nat) (start : res unit) : option halt :=
  match start with
  | Next _ s => execute_loop step fuel s
  | Halt h => Some h
  end.

Definition run_within (step : M unit) (cap : Z) (fuel : nat)
  (start : res unit) : option halt :=
  match start with
  | Next _ s => execute_within step cap fuel s
  | Halt h => Some h
  end.

(** The state after [k] instructions from the result of the set-up code,
    when the run has not ended before. *)
Definition state_after (step : M unit) (k : nat) (start : res unit)
  : option interpreter :=
  match start with
  | Next _ s =>
      match steps step k s with
      | Next _ s' => Some s'
      | Halt _ => None
      end
  | Halt _ => None
  end.

(** ** Threaded code *)

(** A word of a threaded code vector: the address of a handler function
    or of a label ([Op]), or an operand ([Imm]). *)
Inductive cell (L : Type) : Type :=
| Op (l : L)
| Imm (w : Z).
Arguments Op {L} l.
Arguments Imm {L} w.

(** The instructions of wordcode.c, handlercode2.c, directthreaded2.c and
    directthreaded3.c. *)
Inductive opcode : Type := LIT | LOAD | CALL | PRIM | JT | JMP | RET.

Section Threaded.
Variable L : Type.
Variable program : list (cell L).

(** [*ip++] on the code vector. *)
Definition fetch_cell : M (cell L) :=
  p <- get_ip ;;
  match p with
  | CodePtr i =>
      match nth_error program (Z.to_nat i) with
      | Some c => if 0 <=? i then set_ip (padd p 1) ;;; ret c else stop Undefined
      | None => stop Undefined
      end
  | _ => stop Undefined
  end.

(** [fetch(interp)], [FETCH()]: the next word, used as an operand. *)
Definition fetch_word : M Z :=
  c <- fetch_cell ;;
  match c with Imm w => ret w | Op _ => stop Undefined end.

(** [handler = fetch(interp); handler(interp)] and [GOTO_NEXT]: the next
    word, used as the address to continue at. *)
Definition dispatch (block : L -> M unit) : M unit :=
  c <- fetch_cell ;;
  match c with Op l => block l | Imm _ => stop Undefined end.
End Threaded.
Arguments fetch_cell {L} program.
Arguments fetch_word {L} program.
Arguments dispatch {L} program block.

(** ** Instruction bodies shared by the files

    The bodies below are the same text in each file that has them (as
    functions [execute_lit], ... in handlercode2.c, as labelled blocks in
    the direct-threaded files). *)
Section Handlers.
(** The operand fetch of the file. *)
Variable fetch : M Z.
Variable functions : list function.

Definition execute_lit : M unit :=
  word <- fetch ;;
  l <- index literals word ;;
  push (Word l).

Definition execute_prim : M unit :=
  word <- fetch ;;
  h <- index prim_handlers word ;;
  h.

Definition execute_jt : M unit :=
  offset <- fetch ;;
  word <- pop ;;
  if truthy word
  then i <- get_ip ;; set_ip (padd (padd i (signed offset)) (-2))
  else ret tt.

Definition execute_jmp : M unit :=
  offset <- fetch ;;
  i <- get_ip ;; set_ip (padd (padd i (signed offset)) (-2)).

(** [*(interp->bp + 3 + index)] (handlercode2.c, directthreaded2.c) *)
Definition local (index : Z) : M val :=
  b <- get_bp ;; deref (padd (padd b 3) index).

Definition execute_load : M unit :=
  word <- fetch ;;
  v <- local word ;;
  push v.

(** [LOAD] of directthreaded3.c and its descendants: a signed offset from
    [bp]. *)
Definition execute_load_rel : M unit :=
  offset <- fetch ;;
  b <- get_bp ;;
  v <- deref (padd b (signed offset)) ;;
  push v.

Definition push_frame (args_to_pop_later : Z) : M unit :=
  old_bp <- get_bp ;;
  p <- get_sp ;; set_bp p ;;;
  push old_bp ;;;
  i <- get_ip ;; push i ;;;
  push (Word args_to_pop_later).

Definition pop_frame : M unit :=
  b <- get_bp ;; set_sp (padd b 3) ;;;
  args_to_pop <- (v <- pop ;; as_word v) ;;
  i <- pop ;; set_ip i ;;;
  b' <- pop ;; set_bp b' ;;;
  p <- get_sp ;; set_sp (padd p (- args_to_pop)).

(** [CALL] with the arguments copied above the frame (handlercode2.c,
    directthreaded2.c). *)
Definition execute_call : M unit :=
  fn <- (id <- fetch ;; index functions id) ;;
  argc <- fetch ;;
  p <- get_sp ;;
  let args := padd p (- argc) in
  push_frame argc ;;;
  dst <- get_sp ;;
  (fun s =>
     match dst, args with
     | StackPtr d, StackPtr a =>
         Next tt (mkInterp (ip s) (sp s) (bp s)
                   (memcpy (stack s) d a (copied_words argc)))
     | _, _ => Halt Undefined
     end) ;;;
  p' <- get_sp ;; set_sp (padd p' (frame_size fn)) ;;;
  set_ip (code fn).

(** [CALL] of directthreaded3.c and its descendants: the arguments stay
    below the frame. *)
Definition execute_call_inplace : M unit :=
  fn <- (id <- fetch ;; index functions id) ;;
  word <- fetch ;;
  (* words = sp - word is not used *)
  push_frame word ;;;
  p <- get_sp ;; set_sp (padd p (frame_size fn)) ;;;
  set_ip (code fn).

Definition execute_ret : M unit :=
  result <- pop ;;
  pop_frame ;;;
  i <- get_ip ;;
  if is_null i then stop (Returned result) else push result.

(** [CONST_0], [CONST_1], [CONST_2] *)
Definition execute_const (k : Z) : M unit := push (Word k).

(** [SUB1]: the top word, as an [int64_t], decremented in place. *)
Definition execute_sub1 : M unit :=
  p <- get_sp ;;
  x <- (v <- deref (padd p (-1)) ;; as_int v) ;;
  store (padd p (-1)) (Word (wrap (x - 1))).
End Handlers.

(** ** wordcode.c: decode and branch *)
Module Wordcode.

(** [enum opcode] *)
Definition tag (o : opcode) : Z :=
  match o with
  | LIT => 0 | LOAD => 1 | CALL => 2 | PRIM => 3 | JT => 4 | JMP => 5 | RET => 6
  end.

(** The cases of the [switch]. *)
Definition decode (w : Z) : option opcode :=
  match w with
  | 0 => Some LIT | 1 => Some LOAD | 2 => Some CALL | 3 => Some PRIM
  | 4 => Some JT | 5 => Some JMP | 6 => Some RET
  | _ => None
  end.

(** The words of a code vector written with the names of the enum. *)
Definition assemble (text : list (cell opcode)) : list Z :=
  map (fun c => match c with Op o => tag o | Imm w => w end) text.

Definition fib_text : list (cell opcode) :=
  [ (*  0 *) Op LOAD; Imm 0;
    (*  2 *) Op LIT; Imm 0;
    (*  4 *) Op PRIM; Imm 0;
    (*  6 *) Op JT; Imm 22;
    (*  8 *) Op LOAD; Imm 0;
    (* 10 *) Op LIT; Imm 1;
    (* 12 *) Op PRIM; Imm 1;
    (* 14 *) Op CALL; Imm 0;
    (* 16 *) Op LOAD; Imm 0;
    (* 18 *) Op LIT; Imm 0;
    (* 20 *) Op PRIM; Imm 1;
    (* 22 *) Op CALL; Imm 0;
    (* 24 *) Op PRIM; Imm 2;
    (* 26 *) Op JMP; Imm 4;
    (* 28 *) Op LIT; Imm 1;
    (* 30 *) Op RET ].

Definition fib_code : list Z := Eval cbv in assemble fib_text.

(** [functions[0]]: its code is [fib_code]. *)
Definition functions : list function := [ mkFunction 1 (CodePtr 0) ].

(** The number of entries of the table that the operand of an opcode
    indexes. *)
Definition table_size (o : opcode) : option Z :=
  match o with
  | LIT => Some (Z.of_nat (length literals))
  | CALL => Some (Z.of_nat (length functions))
  | PRIM => Some (Z.of_nat (length prim_handlers))
  | _ => None
  end.

Section Program.
(** The words of the code vector [ip] points into ([fib_code] in the
    source). *)
Variable program : list Z.

(** [*(interp->ip)++] *)
Definition fetch : M Z :=
  p <- get_ip ;;
  match p with
  | CodePtr i =>
      match nth_error program (Z.to_nat i) with
      | Some w => if 0 <=? i then set_ip (padd p 1) ;;; ret w else stop Undefined
      | None => stop Undefined
      end
  | _ => stop Undefined
  end.

(** [*(interp->bp + 2 + index)] *)
Definition local (index : Z) : M val :=
  b <- get_bp ;; deref (padd (padd b 2) index).

Definition push_frame : M unit :=
  old_bp <- get_bp ;;
  p <- get_sp ;; set_bp p ;;;
  push old_bp ;;;
  i <- get_ip ;; push i.

Definition pop_frame : M unit :=
  b <- get_bp ;; set_sp (padd b 2) ;;;
  i <- pop ;; set_ip i ;;;
  b' <- pop ;; set_bp b'.

(** One turn of the [while (true)] loop of [execute]. *)
Definition step : M unit :=
  opcode <- fetch ;;
  match decode opcode with
  | Some LIT =>
      word <- fetch ;;
      l <- index literals word ;;
      push (Word l)
  | Some LOAD =>
      word <- fetch ;;
      v <- local word ;;
      push v
  | Some CALL =>
      word <- fetch ;;
      fn <- index functions word ;;
      word <- pop ;;
      push_frame ;;;
      push word ;;;
      set_ip (code fn)
  | Some PRIM =>
      word <- fetch ;;
      h <- index prim_handlers word ;;
      h
  | Some JT =>
      offset <- fetch ;;
      word <- pop ;;
      if truthy word
      then i <- get_ip ;; set_ip (padd (padd i (signed offset)) (-2))
      else ret tt
  | Some JMP =>
      offset <- fetch ;;
      i <- get_ip ;; set_ip (padd (padd i (signed offset)) (-2))
  | Some RET =>
      word <- pop ;;
      pop_frame ;;;
      i <- get_ip ;;
      if is_null i then stop (Returned word) else push word
  | None => stop Aborted
  end.

Definition execute (fuel : nat) (s : interpreter) : option halt :=
  execute_loop step fuel s.

(** The set-up of [main] on the stack contents [m], for the argument [arg]
    (an [int], widened to a word). *)
Definition setup (m : memory) (arg : Z) : res unit :=
  (push (Word 0) ;;; push (Word 0) ;;; push (Word (wrap arg)))
    (mkInterp (CodePtr 0) (StackPtr 0) (StackPtr 0) m).

Definition run (fuel : nat) (m : memory) (arg : Z) : option halt :=
  run_from step fuel (setup m arg).
End Program.

(** [main]: the result of [execute] on the built-in code. *)
Definition main (fuel : nat) (m : memory) (arg : Z) : option halt :=
  run fib_code fuel m arg.

(** The same run, observed to stay inside the [STACK_SIZE] words of the
    array. *)
Definition main_within (fuel : nat) (m : memory) (arg : Z) : option halt :=
  run_within (step fib_code) STACK_SIZE fuel (setup m arg).

End Wordcode.

(** ** handlercode2.c: handler chaining *)
Module Handlercode2.

Definition fib_code : list (cell opcode) :=
  [ (*  0 *) Op LOAD; Imm 0;
    (*  2 *) Op LIT; Imm 0;
    (*  4 *) Op PRIM; Imm 0;
    (*  6 *) Op JT; Imm 24;
    (*  8 *) Op LOAD; Imm 0;
    (* 10 *) Op LIT; Imm 1;
    (* 12 *) Op PRIM; Imm 1;
    (* 14 *) Op CALL; Imm 0; Imm 1;
    (* 17 *) Op LOAD; Imm 0;
    (* 19 *) Op LIT; Imm 0;
    (* 21 *) Op PRIM; Imm 1;
    (* 23 *) Op CALL; Imm 0; Imm 1;
    (* 26 *) Op PRIM; Imm 2;
    (* 28 *) Op JMP; Imm 4;
    (* 30 *) Op LIT; Imm 1;
    (* 32 *) Op RET ].

Definition functions : list function := [ mkFunction 1 (CodePtr 0) ].

Section Program.
Variable program : list (cell opcode).

(** The function a handler address stands for. *)
Definition handler (o : opcode) : M unit :=
  match o with
  | LIT => execute_lit (fetch_word program)
  | LOAD => execute_load (fetch_word program)
  | CALL => execute_call (fetch_word program) functions
  | PRIM => execute_prim (fetch_word program)
  | JT => execute_jt (fetch_word program)
  | JMP => execute_jmp (fetch_word program)
  | RET => execute_ret
  end.

(** One turn of the loop of [execute]; the [longjmp] of [execute_ret]
    ends the run with [interp->result]. *)
Definition step : M unit := dispatch program handler.

Definition setup (m : memory) (arg : Z) : res unit :=
  (push (Word 0) ;;; push (Word 0) ;;; push (Word 0) ;;; push (Word (wrap arg)))
    (mkInterp (CodePtr 0) (StackPtr 0) (StackPtr 0) m).

Definition run (fuel : nat) (m : memory) (arg : Z) : option halt :=
  run_from step fuel (setup m arg).
End Program.

Definition main (fuel : nat) (m : memory) (arg : Z) : option halt :=
  run fib_code fuel m arg.

End Handlercode2.

(** ** directthreaded2.c: labels as values, arguments copied *)
Module Directthreaded2.

Definition fib_code : list (cell opcode) :=
  [ (*  0 *) Op LOAD; Imm 0;
    (*  2 *) Op LIT; Imm 0;
    (*  4 *) Op PRIM; Imm 0;
    (*  6 *) Op JT; Imm 24;
    (*  8 *) Op LOAD; Imm 0;
    (* 10 *) Op LIT; Imm 1;
    (* 12 *) Op PRIM; Imm 1;
    (* 14 *) Op CALL; Imm 0; Imm 1;
    (* 17 *) Op LOAD; Imm 0;
    (* 19 *) Op LIT; Imm 0;
    (* 21 *) Op PRIM; Imm 1;
    (* 23 *) Op CALL; Imm 0; Imm 1;
    (* 26 *) Op PRIM; Imm 2;
    (* 28 *) Op JMP; Imm 4;
    (* 30 *) Op LIT; Imm 1;
    (* 32 *) Op RET ].

Definition functions : list function := [ mkFunction 1 (CodePtr 0) ].

Section Program.
Variable program : list (cell opcode).

(** The block at a label, up to its [GOTO_NEXT]. *)
Definition block (o : opcode) : M unit :=
  match o with
  | LIT => execute_lit (fetch_word program)
  | LOAD => execute_load (fetch_word program)
  | CALL => execute_call (fetch_word program) functions
  | PRIM => execute_prim (fetch_word program)
  | JT => execute_jt (fetch_word program)
  | JMP => execute_jmp (fetch_word program)
  | RET => execute_ret
  end.

(** [GOTO_NEXT] and the block it jumps to. *)
Definition step : M unit := dispatch program block.

(** The initial set-up of [execute(arg)] on the contents [m] of the
    static [stack]. *)
Definition setup (m : memory) (arg : Z) : res unit :=
  (push (Word 0) ;;; push (Word 0) ;;; push (Word 0) ;;; push (Word (wrap arg)))
    (mkInterp (CodePtr 0) (StackPtr 0) (StackPtr 0) m).

Definition run (fuel : nat) (m : memory) (arg : Z) : option halt :=
  run_from step fuel (setup m arg).
End Program.

Definition execute (fuel : nat) (m : memory) (arg : Z) : option halt :=
  run fib_code fuel m arg.

(** The contents of the static [stack] when [execute] has returned: what
    the next call of [execute] in the same process starts from. *)
Fixpoint stack_after (program : list (cell opcode)) (fuel : nat)
  (s : interpreter) : memory :=
  match fuel with
  | O => stack s
  | S fuel' =>
      match step program s with
      | Next _ s' => stack_after program fuel' s'
      | Halt _ => stack s
      end
  end.

Definition residue (fuel : nat) (m : memory) (arg : Z) : memory :=
  match setup m arg with
  | Next _ s => stack_after fib_code fuel s
  | Halt _ => m
  end.

End Directthreaded2.

(** ** directthreaded3.c: arguments addressed below the frame *)
Module Directthreaded3.

Definition fib_code : list (cell opcode) :=
  [ (*  0 *) Op LOAD; Imm (wrap (-1));
    (*  2 *) Op LIT; Imm 0;
    (*  4 *) Op PRIM; Imm 0;
    (*  6 *) Op JT; Imm 24;
    (*  8 *) Op LOAD; Imm (wrap (-1));
    (* 10 *) Op LIT; Imm 1;
    (* 12 *) Op PRIM; Imm 1;
    (* 14 *) Op CALL; Imm 0; Imm 1;
    (* 17 *) Op LOAD; Imm (wrap (-1));
    (* 19 *) Op LIT; Imm 0;
    (* 21 *) Op PRIM; Imm 1;
    (* 23 *) Op CALL; Imm 0; Imm 1;
    (* 26 *) Op PRIM; Imm 2;
    (* 28 *) Op JMP; Imm 4;
    (* 30 *) Op LIT; Imm 1;
    (* 32 *) Op RET ].

Definition functions : list function := [ mkFunction 0 (CodePtr 0) ].

Section Program.
Variable program : list (cell opcode).

Definition block (o : opcode) : M unit :=
  match o with
  | LIT => execute_lit (fetch_word program)
  | LOAD => execute_load_rel (fetch_word program)
  | CALL => execute_call_inplace (fetch_word program) functions
  | PRIM => execute_prim (fetch_word program)
  | JT => execute_jt (fetch_word program)
  | JMP => execute_jmp (fetch_word program)
  | RET => execute_ret
  end.

Definition step : M unit := dispatch program block.


(** [sp = stack], [bp = stack + 1], then the four pushes. *)
Definition setup (m : memory) (arg : Z) : res unit :=
  (push (Word (wrap arg)) ;;; push (Word 0) ;;; push (Word 0) ;;; push (Word 0))
    (mkInterp (CodePtr 0) (StackPtr 0) (StackPtr 1) m).

Definition run (fuel : nat) (m : memory) (arg : Z) : option halt :=
  run_from step fuel (setup m arg).
End Program.

Definition execute (fuel : nat) (m : memory) (arg : Z) : option halt :=
  run fib_code fuel m arg.

End Directthreaded3.

(** ** directthreaded4.c: constants and primitives as blocks *)
Module Directthreaded4.

Inductive label : Type :=
| L_LIT | L_CONST_0 | L_CONST_1 | L_CONST_2 | L_LOAD | L_CALL | L_PRIM
| L_JT | L_JMP | L_RET | PRIM_LESS_THAN | PRIM_SUBTRACT | PRIM_ADD.

(** The labels in [prim_handlers]. *)
Definition prim_labels : list label := [PRIM_LESS_THAN; PRIM_SUBTRACT; PRIM_ADD].

Definition fib_code : list (cell label) :=
  [ (*  0 *) Op L_LOAD; Imm (wrap (-1));
    (*  2 *) Op L_CONST_2;
    (*  3 *) Op L_PRIM; Imm 0;
    (*  5 *) Op L_JT; Imm 22;
    (*  7 *) Op L_LOAD; Imm (wrap (-1));
    (*  9 *) Op L_CONST_1;
    (* 10 *) Op L_PRIM; Imm 1;
    (* 12 *) Op L_CALL; Imm 0; Imm 1;
    (* 15 *) Op L_LOAD; Imm (wrap (-1));
    (* 17 *) Op L_CONST_2;
    (* 18 *) Op L_PRIM; Imm 1;
    (* 20 *) Op L_CALL; Imm 0; Imm 1;
    (* 23 *) Op L_PRIM; Imm 2;
    (* 25 *) Op L_JMP; Imm 3;
    (* 27 *) Op L_CONST_1;
    (* 28 *) Op L_RET ].

Definition functions : list function := [ mkFunction 0 (CodePtr 0) ].

Section Program.
Variable program : list (cell label).

(** The block at a primitive's label. *)
Definition prim_block (l : label) : M unit :=
  match l with
  | PRIM_LESS_THAN => lessThan
  | PRIM_SUBTRACT => subtract
  | PRIM_ADD => add
  | _ => stop Undefined
  end.

Definition block (l : label) : M unit :=
  match l with
  | L_LIT => execute_lit (fetch_word program)
  | L_CONST_0 => execute_const 0
  | L_CONST_1 => execute_const 1
  | L_CONST_2 => execute_const 2
  | L_LOAD => execute_load_rel (fetch_word program)
  | L_CALL => execute_call_inplace (fetch_word program) functions
  | L_PRIM =>
      (* goto *prim_handlers[word] *)
      word <- fetch_word program ;;
      l' <- index prim_labels word ;;
      prim_block l'
  | L_JT => execute_jt (fetch_word program)
  | L_JMP => execute_jmp (fetch_word program)
  | L_RET => execute_ret
  | PRIM_LESS_THAN => lessThan
  | PRIM_SUBTRACT => subtract
  | PRIM_ADD => add
  end.

Definition step : M unit := dispatch program block.

Definition setup (m : memory) (arg : Z) : res unit :=
  (push (Word (wrap arg)) ;;; push (Word 0) ;;; push (Word 0) ;;; push (Word 0))
    (mkInterp (CodePtr 0) (StackPtr 0) (StackPtr 1) m).

Definition run (fuel : nat) (m : memory) (arg : Z) : option halt :=
  run_from step fuel (setup m arg).
End Program.

Definition execute (fuel : nat) (m : memory) (arg : Z) : option halt :=
  run fib_code fuel m arg.

End Directthreaded4.

(** ** comboinstructions.c: the fused instruction [SUB1] *)
Module Comboinstructions.

Inductive label : Type :=
| L_LIT | L_CONST_0 | L_CONST_1 | L_CONST_2 | L_SUB1 | L_LOAD | L_CALL
| L_PRIM | L_JT | L_JMP | L_RET.

Definition fib_code : list (cell label) :=
  [ (*  0 *) Op L_LOAD; Imm (wrap (-1));
    (*  2 *) Op L_CONST_2;
    (*  3 *) Op L_PRIM; Imm 0;
    (*  5 *) Op L_JT; Imm 19;
    (*  7 *) Op L_LOAD; Imm (wrap (-1));
    (*  9 *) Op L_SUB1;
    (* 10 *) Op L_CALL; Imm 0; Imm 1;
    (* 13 *) Op L_LOAD; Imm (wrap (-1));
    (* 15 *) Op L_SUB1;
    (* 16 *) Op L_SUB1;
    (* 17 *) Op L_CALL; Imm 0; Imm 1;
    (* 20 *) Op L_PRIM; Imm 2;
    (* 22 *) Op L_JMP; Imm 3;
    (* 24 *) Op L_CONST_1;
    (* 25 *) Op L_RET ].

Definition functions : list function := [ mkFunction 0 (CodePtr 0) ].

Section Program.
Variable program : list (cell label).

Definition block (l : label) : M unit :=
  match l with
  | L_LIT => execute_lit (fetch_word program)
  | L_CONST_0 => execute_const 0
  | L_CONST_1 => execute_const 1
  | L_CONST_2 => execute_const 2
  | L_SUB1 => execute_sub1
  | L_LOAD => execute_load_rel (fetch_word program)
  | L_CALL => execute_call_inplace (fetch_word program) functions
  | L_PRIM => execute_prim (fetch_word program)
  | L_JT => execute_jt (fetch_word program)
  | L_JMP => execute_jmp (fetch_word program)
  | L_RET => execute_ret
  end.

Definition step : M unit := dispatch program block.

Definition setup (m : memory) (arg : Z) : res unit :=
  (push (Word (wrap arg)) ;;; push (Word 0) ;;; push (Word 0) ;;; push (Word 0))
    (mkInterp (CodePtr 0) (StackPtr 0) (StackPtr 1) m).

Definition run (fuel : nat) (m : memory) (arg : Z) : option halt :=
  run_from step fuel (setup m arg).
End Program.

Definition execute (fuel : nat) (m : memory) (arg : Z) : option halt :=
  run fib_code fuel m arg.

End Comboinstructions.

(** ** directthreaded.c: labels as values, the state in [struct interpreter] *)
Module Directthreaded.

Definition fib_code : list (cell opcode) :=
  [ (*  0 *) Op LOAD; Imm 0;
    (*  2 *) Op LIT; Imm 0;
    (*  4 *) Op PRIM; Imm 0;
    (*  6 *) Op JT; Imm 24;
    (*  8 *) Op LOAD; Imm 0;
    (* 10 *) Op LIT; Imm 1;
    (* 12 *) Op PRIM; Imm 1;
    (* 14 *) Op CALL; Imm 0; Imm 1;
    (* 17 *) Op LOAD; Imm 0;
    (* 19 *) Op LIT; Imm 0;
    (* 21 *) Op PRIM; Imm 1;
    (* 23 *) Op CALL; Imm 0; Imm 1;
    (* 26 *) Op PRIM; Imm 2;
    (* 28 *) Op JMP; Imm 4;
    (* 30 *) Op LIT; Imm 1;
    (* 32 *) Op RET ].

Definition functions : list function := [ mkFunction 1 (CodePtr 0) ].

Section Program.
Variable program : list (cell opcode).

(** The block at a label, up to its [GOTO_NEXT]. *)
Definition block (o : opcode) : M unit :=
  match o with
  | LIT => execute_lit (fetch_word program)
  | LOAD => execute_load (fetch_word program)
  | CALL => execute_call (fetch_word program) functions
  | PRIM => execute_prim (fetch_word program)
  | JT => execute_jt (fetch_word program)
  | JMP => execute_jmp (fetch_word program)
  | RET => execute_ret
  end.

Definition step : M unit := dispatch program block.

(** The pushes of [main] on the contents [m] of the static [stack], from
    the [struct interpreter] whose [ip] is not given (a null pointer), and
    the first statement of [execute], [interp->ip = fib_code]. *)
Definition setup (m : memory) (arg : Z) : res unit :=
  (push (Word 0) ;;; push (Word 0) ;;; push (Word 0) ;;; push (Word (wrap arg)) ;;;
   set_ip (CodePtr 0))
    (mkInterp (Word 0) (StackPtr 0) (StackPtr 0) m).

Definition run (fuel : nat) (m : memory) (arg : Z) : option halt :=
  run_from step fuel (setup m arg).
End Program.

(** [main]: the result of [execute]. *)
Definition main (fuel : nat) (m : memory) (arg : Z) : option halt :=
  run fib_code fuel m arg.

End Directthreaded.

(** ** wordcode2.c: [CALL] by a recursive call of [execute]

    [enum opcode], [fetch], [push], [pop], [local], [push_frame] and
    [pop_frame] are the text of wordcode.c. *)
Module Wordcode2.

Definition fib_text : list (cell opcode) :=
  [ (*  0 *) Op LOAD; Imm 0;
    (*  2 *) Op LIT; Imm 0;
    (*  4 *) Op PRIM; Imm 0;
    (*  6 *) Op JT; Imm 24;
    (*  8 *) Op LOAD; Imm 0;
    (* 10 *) Op LIT; Imm 1;
    (* 12 *) Op PRIM; Imm 1;
    (* 14 *) Op CALL; Imm 0; Imm 1;
    (* 17 *) Op LOAD; Imm 0;
    (* 19 *) Op LIT; Imm 0;
    (* 21 *) Op PRIM; Imm 1;
    (* 23 *) Op CALL; Imm 0; Imm 1;
    (* 26 *) Op PRIM; Imm 2;
    (* 28 *) Op JMP; Imm 4;
    (* 30 *) Op LIT; Imm 1;
    (* 32 *) Op RET ].

Definition fib_code : list Z := Eval cbv in Wordcode.assemble fib_text.

Definition functions : list function := [ mkFunction 1 (CodePtr 0) ].

Section Program.
Variable program : list Z.

(** [execute_call] up to its call of [execute]; the result is [argc]. *)
Definition enter_call : M Z :=
  fn <- (id <- Wordcode.fetch program ;; index functions id) ;;
  argc <- Wordcode.fetch program ;;
  p <- get_sp ;;
  let args := padd p (- argc) in
  Wordcode.push_frame ;;;
  dst <- get_sp ;;
  (fun s =>
     match dst, args with
     | StackPtr d, StackPtr a =>
         Next tt (mkInterp (ip s) (sp s) (bp s)
                   (memcpy (stack s) d a (copied_words argc)))
     | _, _ => Halt Undefined
     end) ;;;
  p' <- get_sp ;; set_sp (padd p' (frame_size fn)) ;;;
  set_ip (code fn) ;;;
  ret argc.

(** [execute_call] after [execute] has returned [result]. *)
Definition leave_call (argc : Z) (result : val) : M unit :=
  Wordcode.pop_frame ;;;
  p <- get_sp ;; set_sp (padd p (- argc)) ;;;
  push result.

(** [execute_call], given what the call of [execute] inside it does:
    [None] when that call does not come back. *)
Definition execute_call (execute : interpreter -> option (res val))
  (s : interpreter) : option (res unit) :=
  match enter_call s with
  | Next argc s1 =>
      match execute s1 with
      | Some (Next result s2) => Some (leave_call argc result s2)
      | Some (Halt h) => Some (Halt h)
      | None => None
      end
  | Halt h => Some (Halt h)
  end.

(** [execute]: [Some (Next word s)] when it returns [word] in the state
    [s], [Some (Halt h)] when the run ends otherwise, [None] when [fuel]
    turns of the loop (nested calls of [execute] counted in depth) do not
    reach a [RET]. *)
Fixpoint execute (fuel : nat) (s : interpreter) : option (res val) :=
  match fuel with
  | O => None
  | S fuel' =>
      let break (r : res unit) :=
        match r with
        | Next _ s' => execute fuel' s'
        | Halt h => Some (Halt h)
        end in
      match Wordcode.fetch program s with
      | Next opcode s1 =>
          match Wordcode.decode opcode with
          | Some LIT =>
              break ((word <- Wordcode.fetch program ;;
                      l <- index literals word ;;
                      push (Word l)) s1)
          | Some LOAD =>
              break ((word <- Wordcode.fetch program ;;
                      v <- Wordcode.local word ;;
                      push v) s1)
          | Some CALL =>
              match execute_call (execute fuel') s1 with
              | Some r => break r
              | None => None
              end
          | Some PRIM =>
              break ((word <- Wordcode.fetch program ;;
                      h <- index prim_handlers word ;;
                      h) s1)
          | Some JT =>
              break ((offset <- Wordcode.fetch program ;;
                      word <- pop ;;
                      if truthy word
                      then i <- get_ip ;;
                           set_ip (padd (padd i (signed offset)) (-2))
                      else ret tt) s1)
          | Some JMP =>
              break ((offset <- Wordcode.fetch program ;;
                      i <- get_ip ;;
                      set_ip (padd (padd i (signed offset)) (-2))) s1)
          | Some RET => Some (pop s1)
          | None => Some (Halt Aborted)
          end
      | Halt h => Some (Halt h)
      end
  end.

(** The set-up of [main] on the stack contents [m]. *)
Definition setup (m : memory) (arg : Z) : res unit :=
  (push (Word 0) ;;; push (Word 0) ;;; push (Word (wrap arg)))
    (mkInterp (CodePtr 0) (StackPtr 0) (StackPtr 0) m).

(** What a run that starts with [start] ends with: the word [execute]
    returns, or how the run ended. *)
Definition run (fuel : nat) (start : res unit) : option halt :=
  match start with
  | Next _ s =>
      match execute fuel s with
      | Some (Next result _) => Some (Returned result)
      | Some (Halt h) => Some h
      | None => None
      end
  | Halt h => Some h
  end.

(** [execute] under observation: as [execute], but [None] as well when a
    turn of the loop, in this call or in a nested one, starts with [sp]
    outside of the first [cap] words of the stack.  (The source has no such
    test; this is how the proofs tell the runs that stay inside the
    array.) *)
Fixpoint execute_within (cap : Z) (fuel : nat) (s : interpreter)
  : option (res val) :=
  match fuel with
  | O => None
  | S fuel' =>
      let break (r : res unit) :=
        match r with
        | Next _ s' => execute_within cap fuel' s'
        | Halt h => Some (Halt h)
        end in
      if sp_within cap s then
        match Wordcode.fetch program s with
        | Next opcode s1 =>
            match Wordcode.decode opcode with
            | Some LIT =>
                break ((word <- Wordcode.fetch program ;;
                        l <- index literals word ;;
                        push (Word l)) s1)
            | Some LOAD =>
                break ((word <- Wordcode.fetch program ;;
                        v <- Wordcode.local word ;;
                        push v) s1)
            | Some CALL =>
                match execute_call (execute_within cap fuel') s1 with
                | Some r => break r
                | None => None
                end
            | Some PRIM =>
                break ((word <- Wordcode.fetch program ;;
                        h <- index prim_handlers word ;;
                        h) s1)
            | Some JT =>
                break ((offset <- Wordcode.fetch program ;;
                        word <- pop ;;
                        if truthy word
                        then i <- get_ip ;;
                             set_ip (padd (padd i (signed offset)) (-2))
                        else ret tt) s1)
            | Some JMP =>
                break ((offset <- Wordcode.fetch program ;;
                        i <- get_ip ;;
                        set_ip (padd (padd i (signed offset)) (-2))) s1)
            | Some RET => Some (pop s1)
            | None => Some (Halt Aborted)
            end
        | Halt h => Some (Halt h)
        end
      else None
  end.

Definition run_inside (cap : Z) (fuel : nat) (start : res unit) : option halt :=
  match start with
  | Next _ s =>
      match execute_within cap fuel s with
      | Some (Next result _) => Some (Returned result)
      | Some (Halt h) => Some h
      | None => None
      end
  | Halt h => Some h
  end.

(** From [s], the observed [execute] returns a word and leaves a state
    that satisfy [P], with any fuel from some amount on. *)
Definition returns_within (cap : Z) (P : val -> interpreter -> Prop)
  (s : interpreter) : Prop :=
  exists fuel0 result s',
    P result s' /\
    forall fuel, (fuel0 <= fuel)%nat ->
      execute_within cap fuel s = Some (Next result s').
End Program.

(** [main]: the result of [execute] on the built-in code. *)
Definition main (fuel : nat) (m : memory) (arg : Z) : option halt :=
  run fib_code fuel (setup m arg).

(** The same run, observed to stay inside the [STACK_SIZE] words of the
    array. *)
Definition main_within (fuel : nat) (m : memory) (arg : Z) : option halt :=
  run_inside fib_code STACK_SIZE fuel (setup m arg).

End Wordcode2.

(** ** wordcode3.c: wordcode2.c with the cases of the switch as functions *)
Module Wordcode3.

Definition fib_code : list Z := Eval cbv in Wordcode.assemble Wordcode2.fib_text.

Definition functions : list function := [ mkFunction 1 (CodePtr 0) ].

Section Program.
Variable program : list Z.

Definition execute_lit : M unit :=
  word <- Wordcode.fetch program ;;
  l <- index literals word ;;
  push (Word l).

Definition execute_load : M unit :=
  word <- Wordcode.fetch program ;;
  v <- Wordcode.local word ;;
  push v.

(** [execute_call] up to its call of [execute]; the result is [argc]. *)
Definition enter_call : M Z :=
  fn <- (id <- Wordcode.fetch program ;; index functions id) ;;
  argc <- Wordcode.fetch program ;;
  p <- get_sp ;;
  let args := padd p (- argc) in
  Wordcode.push_frame ;;;
  dst <- get_sp ;;
  (fun s =>
     match dst, args with
     | StackPtr d, StackPtr a =>
         Next tt (mkInterp (ip s) (sp s) (bp s)
                   (memcpy (stack s) d a (copied_words argc)))
     | _, _ => Halt Undefined
     end) ;;;
  p' <- get_sp ;; set_sp (padd p' (frame_size fn)) ;;;
  set_ip (code fn) ;;;
  ret argc.

(** [execute_call] after [execute] has returned [result]. *)
Definition leave_call (argc : Z) (result : val) : M unit :=
  Wordcode.pop_frame ;;;
  p <- get_sp ;; set_sp (padd p (- argc)) ;;;
  push result.

Definition execute_call (execute : interpreter -> option (res val))
  (s : interpreter) : option (res unit) :=
  match enter_call s with
  | Next argc s1 =>
      match execute s1 with
      | Some (Next result s2) => Some (leave_call argc result s2)
      | Some (Halt h) => Some (Halt h)
      | None => None
      end
  | Halt h => Some (Halt h)
  end.

Definition execute_prim : M unit :=
  word <- Wordcode.fetch program ;;
  h <- index prim_handlers word ;;
  h.

Definition execute_jt : M unit :=
  offset <- Wordcode.fetch program ;;
  word <- pop ;;
  if truthy word
  then i <- get_ip ;; set_ip (padd (padd i (signed offset)) (-2))
  else ret tt.

Definition execute_jmp : M unit :=
  offset <- Wordcode.fetch program ;;
  i <- get_ip ;; set_ip (padd (padd i (signed offset)) (-2)).

Fixpoint execute (fuel : nat) (s : interpreter) : option (res val) :=
  match fuel with
  | O => None
  | S fuel' =>
      let break (r : res unit) :=
        match r with
        | Next _ s' => execute fuel' s'
        | Halt h => Some (Halt h)
        end in
      match Wordcode.fetch program s with
      | Next opcode s1 =>
          match Wordcode.decode opcode with
          | Some LIT => break (execute_lit s1)
          | Some LOAD => break (execute_load s1)
          | Some CALL =>
              match execute_call (execute fuel') s1 with
              | Some r => break r
              | None => None
              end
          | Some PRIM => break (execute_prim s1)
          | Some JT => break (execute_jt s1)
          | Some JMP => break (execute_jmp s1)
          | Some RET => Some (pop s1)
          | None => Some (Halt Aborted)
          end
      | Halt h => Some (Halt h)
      end
  end.

Definition setup (m : memory) (arg : Z) : res unit :=
  (push (Word 0) ;;; push (Word 0) ;;; push (Word (wrap arg)))
    (mkInterp (CodePtr 0) (StackPtr 0) (StackPtr 0) m).

Definition run (fuel : nat) (start : res unit) : option halt :=
  match start with
  | Next _ s =>
      match execute fuel s with
      | Some (Next result _) => Some (Returned result)
      | Some (Halt h) => Some h
      | None => None
      end
  | Halt h => Some h
  end.
End Program.

(** [execute] under observation, as for wordcode2.c. *)
Fixpoint execute_within (program : list Z) (cap : Z) (fuel : nat)
  (s : interpreter) : option (res val) :=
  match fuel with
  | O => None
  | S fuel' =>
      let break (r : res unit) :=
        match r with
        | Next _ s' => execute_within program cap fuel' s'
        | Halt h => Some (Halt h)
        end in
      if sp_within cap s then
        match Wordcode.fetch program s with
        | Next opcode s1 =>
            match Wordcode.decode opcode with
            | Some LIT => break (execute_lit program s1)
            | Some LOAD => break (execute_load program s1)
            | Some CALL =>
                match execute_call program (execute_within program cap fuel') s1 with
                | Some r => break r
                | None => None
                end
            | Some PRIM => break (execute_prim program s1)
            | Some JT => break (execute_jt program s1)
            | Some JMP => break (execute_jmp program s1)
            | Some RET => Some (pop s1)
            | None => Some (Halt Aborted)
            end
        | Halt h => Some (Halt h)
        end
      else None
  end.

Definition run_inside (program : list Z) (cap : Z) (fuel : nat)
  (start : res unit) : option halt :=
  match start with
  | Next _ s =>
      match execute_within program cap fuel s with
      | Some (Next result _) => Some (Returned result)
      | Some (Halt h) => Some h
      | None => None
      end
  | Halt h => Some h
  end.

Definition main (fuel : nat) (m : memory) (arg : Z) : option halt :=
  run fib_code fuel (setup m arg).

Definition main_within (fuel : nat) (m : memory) (arg : Z) : option halt :=
  run_inside fib_code STACK_SIZE fuel (setup m arg).

End Wordcode3.

(** ** The reference function *)

(** [f(n) = 1 if n < 2 else f(n-1) + f(n-2)], over the integers. *)
Fixpoint fib_nat (n : nat) : Z :=
  match n with
  | O => 1
  | S m => match m with O => 1 | S k => fib_nat m + fib_nat k end
  end.

Definition f (n : Z) : Z := if n <? 2 then 1 else fib_nat (Z.to_nat n).

(** The same numbers by iteration, for evaluation. *)
Fixpoint fib_pair (n : nat) : Z * Z :=
  match n with
  | O => (1, 1)
  | S k => let (a, b) := fib_pair k in (b, a + b)
  end.

(** A stack with nothing on it yet: the zero-initialised static array. *)
Definition zero_memory : memory := fun _ => Word 0.

(** The state in which the body of [fib], entered with frame base [b] on
    the memory [m], stands at its [RET] (at [pc]) with the result [w] on
    top of the [d] words of its frame. *)
Definition at_ret (pc d b : Z) (m : memory) (w : Z) (s' : interpreter) : Prop :=
  ip s' = CodePtr pc /\ sp s' = StackPtr (b + d + 1) /\ bp s' = StackPtr b /\
  (forall j, j = b + d -> stack s' j = Word w) /\
  (forall j, j < b + d -> stack s' j = m j).

(** The states of a call of [fib] in wordcode.c on n with frame base [b]:
    [sp] within [max 5 (3 * n + 3)] words from [b]. *)
Definition wc_frame_bound (n b : Z) (s : interpreter) : Prop :=
  exists i, sp s = StackPtr i /\ b <= i <= b + Z.max 5 (3 * n + 3).

(** ** Counting instructions *)

(** A state satisfying [P] is reached by exactly [k] instructions, through
    states satisfying [I]. *)
Inductive counted (step : M unit) (I P : interpreter -> Prop)
  : nat -> interpreter -> Prop :=
| counted_now s : P s -> counted step I P O s
| counted_step k s s1 :
    I s -> step s = Next tt s1 -> counted step I P k s1 ->
    counted step I P (S k) s.

(** [sp] between the words [lo] and [hi] of the stack. *)
Definition sp_between (lo hi : Z) (s : interpreter) : Prop :=
  exists i, sp s = StackPtr i /\ lo <= i <= hi.

(** ** Calls and the returns that match them *)
Section Matching.
Variable step : M unit.
(** The instruction a state stands at. *)
Variable label_at : interpreter -> option opcode.

End Matching.

(** The instructions from the entry of [fib] to its [RET], for the
    programs without the fused instruction and for the one with it. *)
Definition body_count (n : Z) : nat := Z.to_nat (21 * f n - 16).
Definition fused_body_count (n : Z) : nat := Z.to_nat (20 * f n - 15).

(** * Properties *)

Arguments wrap : simpl never.
Arguments signed : simpl never.
Arguments upd : simpl never.
Arguments memcpy : simpl never.
Arguments copied_words : simpl never.
Arguments bind {A B} m f _ /.
Arguments ret {A} a _ /.
Arguments stop {A} h _ /.
Arguments get_ip _ /.
Arguments get_sp _ /.
Arguments get_bp _ /.
Arguments set_ip v _ /.
Arguments set_sp v _ /.
Arguments set_bp v _ /.
Arguments deref p _ /.
Arguments store p v _ /.
Arguments push value _ /.
Arguments pop _ /.
Arguments as_int v _ /.
Arguments as_word v _ /.
Arguments index {A} table word _ /.
Arguments lessThan _ /.
Arguments subtract _ /.
Arguments add _ /.
Arguments fetch_cell {L} program _ /.
Arguments fetch_word {L} program _ /.
Arguments dispatch {L} program block _ /.
Arguments execute_lit fetch _ /.
Arguments execute_prim fetch _ /.
Arguments execute_jt fetch _ /.
Arguments execute_jmp fetch _ /.
Arguments local index _ /.
Arguments execute_load fetch _ /.
Arguments execute_load_rel fetch _ /.
Arguments push_frame args_to_pop_later _ /.
Arguments pop_frame _ /.
Arguments execute_call fetch functions _ /.
Arguments execute_call_inplace fetch functions _ /.
Arguments execute_ret _ /.
Arguments execute_const k _ /.
Arguments execute_sub1 _ /.
Arguments Wordcode.fetch program _ /.
Arguments Wordcode.local index _ /.
Arguments Wordcode.push_frame _ /.
Arguments Wordcode.pop_frame _ /.
Arguments Wordcode.step program _ /.
Arguments Handlercode2.handler program o _ /.
Arguments Handlercode2.step program _ /.
Arguments Directthreaded2.block program o _ /.
Arguments Directthreaded2.step program _ /.
Arguments Directthreaded3.block program o _ /.
Arguments Directthreaded3.step program _ /.
Arguments Directthreaded4.prim_block l _ /.
Arguments Directthreaded4.block program l _ /.
Arguments Directthreaded4.step program _ /.
Arguments Comboinstructions.block program l _ /.
Arguments Comboinstructions.step program _ /.
Arguments Directthreaded.block program o _ /.
Arguments Directthreaded.step program _ /.
Arguments Wordcode2.enter_call program _ /.
Arguments Wordcode2.leave_call argc result _ /.
Arguments Wordcode3.enter_call program _ /.
Arguments Wordcode3.leave_call argc result _ /.
Arguments Wordcode3.execute_lit program _ /.
Arguments Wordcode3.execute_load program _ /.
Arguments Wordcode3.execute_prim program _ /.
Arguments Wordcode3.execute_jt program _ /.
Arguments Wordcode3.execute_jmp program _ /.

(** ** The loop *)
Section LoopFacts.
Variable step : M unit.

Lemma reaches_refl s : reaches step s s.
Proof. exists O. reflexivity. Qed.

Lemma reaches_step s s1 s' :
  step s = Next tt s1 -> reaches step s1 s' -> reaches step s s'.
Proof.
  intros Hs [k Hk]. exists (S k). simpl. rewrite Hs. exact Hk.
Qed.

Lemma reaches_trans s1 s2 s3 :
  reaches step s1 s2 -> reaches step s2 s3 -> reaches step s1 s3.
Proof.
  intros [k Hk]. revert s1 Hk.
  induction k as [|k IH]; simpl; intros s1 Hk H23.
  - inversion Hk. subst. exact H23.
  - destruct (step s1) as [[] s|h] eqn:E; [|discriminate].
    eapply reaches_step; eauto.
Qed.

Lemma reaches_terminates s s' h :
  reaches step s s' -> step s' = Halt h -> terminates step s h.
Proof.
  intros [k Hk] Hh. revert s Hk.
  induction k as [|k IH]; simpl; intros s Hk.
  - inversion Hk. subst. exists 1%nat. simpl. rewrite Hh. reflexivity.
  - destruct (step s) as [[] s1|h1] eqn:E; [|discriminate].
    destruct (IH _ Hk) as [fuel Hf]. exists (S fuel). simpl. rewrite E. exact Hf.
Qed.

Lemma eventually_now (P : interpreter -> Prop) s : P s -> eventually step P s.
Proof. intros H. exists s. split; [apply reaches_refl|exact H]. Qed.

Lemma eventually_step P s s1 :
  step s = Next tt s1 -> eventually step P s1 -> eventually step P s.
Proof.
  intros Hs (s' & Hr & Hp). exists s'. split; [|exact Hp].
  eapply reaches_step; eauto.
Qed.

Lemma eventually_bind (P Q : interpreter -> Prop) s :
  eventually step P s -> (forall s', P s' -> eventually step Q s') ->
  eventually step Q s.
Proof.
  intros (s1 & Hr & Hp) H. destruct (H _ Hp) as (s2 & Hr2 & Hq).
  exists s2. split; [|exact Hq]. eapply reaches_trans; eauto.
Qed.

Lemma eventually_terminates (h : halt) s :
  eventually step (fun s' => step s' = Halt h) s -> terminates step s h.
Proof. intros (s' & Hr & Hh). eapply reaches_terminates; eauto. Qed.

Lemma execute_loop_next fuel s s1 :
  step s = Next tt s1 ->
  execute_loop step (S fuel) s = execute_loop step fuel s1.
Proof. intros H. simpl. rewrite H. reflexivity. Qed.

Lemma execute_loop_halt fuel s h :
  step s = Halt h -> execute_loop step (S fuel) s = Some h.
Proof. intros H. simpl. rewrite H. reflexivity. Qed.

Lemma execute_loop_mono fuel : forall s h k,
  execute_loop step fuel s = Some h -> execute_loop step (fuel + k) s = Some h.
Proof.
  induction fuel as [|fuel IH]; simpl; intros s h k H; [discriminate|].
  destruct (step s) as [[] s1|h1]; auto.
Qed.

Lemma execute_loop_unique f1 f2 s h1 h2 :
  execute_loop step f1 s = Some h1 -> execute_loop step f2 s = Some h2 -> h1 = h2.
Proof.
  intros H1 H2.
  apply execute_loop_mono with (k := f2) in H1.
  apply execute_loop_mono with (k := f1) in H2.
  rewrite Nat.add_comm in H2. congruence.
Qed.

Lemma run_from_unique f1 f2 start h1 h2 :
  run_from step f1 start = Some h1 -> run_from step f2 start = Some h2 -> h1 = h2.
Proof.
  destruct start as [[] s|h]; simpl.
  - apply execute_loop_unique.
  - congruence.
Qed.

Lemma safely_eventually (I P : interpreter -> Prop) s :
  safely step I P s -> eventually step P s.
Proof.
  induction 1 as [s Hp|s s1 _ Hs _ IH].
  - apply eventually_now. exact Hp.
  - eapply eventually_step; eauto.
Qed.

Lemma safely_bind (I P Q : interpreter -> Prop) s :
  safely step I P s -> (forall s', P s' -> safely step I Q s') ->
  safely step I Q s.
Proof.
  intros H HPQ. induction H as [s Hp|s s1 Hi Hs _ IH].
  - apply HPQ. exact Hp.
  - eapply safely_step; eauto.
Qed.

Lemma safely_weaken (I I' P : interpreter -> Prop) s :
  safely step I P s -> (forall s', I s' -> I' s') -> safely step I' P s.
Proof.
  intros H HI. induction H as [s Hp|s s1 Hi Hs _ IH].
  - apply safely_now. exact Hp.
  - eapply safely_step; eauto.
Qed.

Lemma safely_within cap (h : halt) s :
  safely step (fun s' => sp_within cap s' = true)
    (fun s' => sp_within cap s' = true /\ step s' = Halt h) s ->
  exists fuel, execute_within step cap fuel s = Some h.
Proof.
  induction 1 as [s [Hw Hh]|s s1 Hw Hs _ [fuel IH]].
  - exists 1%nat. simpl. rewrite Hw, Hh. reflexivity.
  - exists (S fuel). simpl. rewrite Hw, Hs. exact IH.
Qed.

Lemma execute_within_loop cap fuel : forall s h,
  execute_within step cap fuel s = Some h -> execute_loop step fuel s = Some h.
Proof.
  induction fuel as [|fuel IH]; simpl; intros s h H; [discriminate|].
  destruct (sp_within cap s); [|discriminate].
  destruct (step s) as [[] s1|h1]; auto.
Qed.

Lemma run_from_terminates s h :
  terminates step s h -> exists fuel, run_from step fuel (Next tt s) = Some h.
Proof. intros [fuel H]. exists fuel. exact H. Qed.
End LoopFacts.

(** ** Memory and arithmetic *)

Lemma upd_same m i v : upd m i v i = v.
Proof. unfold upd. rewrite Z.eqb_refl. reflexivity. Qed.

Lemma upd_eq m i v j : j = i -> upd m i v j = v.
Proof. intros ->. apply upd_same. Qed.

Lemma upd_other m i v j : j <> i -> upd m i v j = m j.
Proof. unfold upd. intros H. destruct (Z.eqb_spec j i); congruence. Qed.

Lemma memcpy_inside m dst src n j :
  dst <= j < dst + n -> memcpy m dst src n j = m (src + (j - dst)).
Proof.
  intros H. unfold memcpy.
  destruct (Z.leb_spec dst j), (Z.ltb_spec j (dst + n)); simpl; try lia.
  reflexivity.
Qed.

Lemma memcpy_outside m dst src n j :
  j < dst \/ dst + n <= j -> memcpy m dst src n j = m j.
Proof.
  intros H. unfold memcpy.
  destruct (Z.leb_spec dst j), (Z.ltb_spec j (dst + n)); simpl; try lia;
    reflexivity.
Qed.

Lemma copied_words_1 : copied_words 1 = 1.
Proof. reflexivity. Qed.

Lemma wrap_range z : 0 <= wrap z < 2 ^ 64.
Proof. unfold wrap. apply Z.mod_pos_bound. lia. Qed.

Lemma wrap_small z : 0 <= z < 2 ^ 64 -> wrap z = z.
Proof. intros H. unfold wrap. apply Z.mod_small. exact H. Qed.



Lemma signed_wrap n : - 2 ^ 63 <= n < 2 ^ 63 -> signed (wrap n) = n.
Proof.
  intros H. unfold signed, wrap.
  destruct (Z_lt_le_dec n 0).
  - replace (n mod 2 ^ 64) with (n + 2 ^ 64).
    + destruct (Z.ltb_spec (n + 2 ^ 64) (2 ^ 63)); lia.
    + apply Z.mod_unique with (q := -1); lia.
  - rewrite Z.mod_small by lia.
    destruct (Z.ltb_spec n (2 ^ 63)); lia.
Qed.

Lemma signed_small w : 0 <= w < 2 ^ 63 -> signed w = w.
Proof. intros H. unfold signed. destruct (Z.ltb_spec w (2 ^ 63)); lia. Qed.

Lemma signed_minus_one : signed (wrap (-1)) = -1.
Proof. reflexivity. Qed.

Lemma signed_congr w : wrap (signed w) = wrap w.
Proof.
  unfold signed, wrap. destruct (w <? 2 ^ 63); [reflexivity|].
  replace (w - 2 ^ 64) with (w + (-1) * 2 ^ 64) by lia.
  apply Z.mod_add. lia.
Qed.

Lemma wrap_signed_add a b :
  wrap (signed (wrap a) + signed (wrap b)) = wrap (a + b).
Proof.
  unfold wrap at 1.
  rewrite Z.add_mod by lia.
  fold (wrap (signed (wrap a))). fold (wrap (signed (wrap b))).
  rewrite !signed_congr. unfold wrap.
  rewrite !Z.mod_mod by lia.
  rewrite <- Z.add_mod by lia. reflexivity.
Qed.

(** ** The reference function *)

Lemma f_base n : n < 2 -> f n = 1.
Proof. intros H. unfold f. destruct (Z.ltb_spec n 2); [reflexivity|lia]. Qed.

Lemma f_rec n : 2 <= n -> f n = f (n - 1) + f (n - 2).
Proof.
  intros H. unfold f.
  destruct (Z.ltb_spec n 2); [lia|].
  replace (Z.to_nat n) with (S (S (Z.to_nat (n - 2)))) by lia.
  replace (Z.to_nat (n - 1)) with (S (Z.to_nat (n - 2))) by lia.
  destruct (Z.ltb_spec (n - 1) 2), (Z.ltb_spec (n - 2) 2).
  - replace (Z.to_nat (n - 2)) with O by lia. reflexivity.
  - lia.
  - replace (Z.to_nat (n - 2)) with 1%nat by lia. reflexivity.
  - reflexivity.
Qed.

Lemma fib_pair_spec n : fib_pair n = (fib_nat n, fib_nat (S n)).
Proof.
  induction n as [|n IH]; [reflexivity|].
  simpl fib_pair. rewrite IH.
  change (fib_nat (S (S n))) with (fib_nat (S n) + fib_nat n).
  f_equal. lia.
Qed.

Lemma f_iter n : 2 <= n -> f n = fst (fib_pair (Z.to_nat n)).
Proof.
  intros H. unfold f. destruct (Z.ltb_spec n 2); [lia|].
  rewrite fib_pair_spec. reflexivity.
Qed.

Lemma fib_nat_pos n : 0 < fib_nat n.
Proof.
  induction n as [n IH] using lt_wf_ind.
  destruct n as [|[|k]]; [reflexivity|reflexivity|].
  change (fib_nat (S (S k))) with (fib_nat (S k) + fib_nat k).
  assert (0 < fib_nat (S k)) by (apply IH; lia).
  assert (0 < fib_nat k) by (apply IH; lia).
  lia.
Qed.

Lemma fib_nat_mono n : fib_nat n <= fib_nat (S n).
Proof.
  destruct n as [|k]; [reflexivity|].
  change (fib_nat (S (S k))) with (fib_nat (S k) + fib_nat k).
  pose proof (fib_nat_pos k). lia.
Qed.

Lemma fib_nat_le a b : (a <= b)%nat -> fib_nat a <= fib_nat b.
Proof.
  induction 1 as [|b Hab IH]; [lia|].
  pose proof (fib_nat_mono b). lia.
Qed.

Lemma f_bounds n : n <= 92 -> 0 < f n < 2 ^ 64.
Proof.
  intros H. unfold f. destruct (Z.ltb_spec n 2); [lia|].
  split; [apply fib_nat_pos|].
  apply Z.le_lt_trans with (fib_nat 92).
  - apply fib_nat_le. lia.
  - replace (fib_nat 92) with (fst (fib_pair 92)) by (rewrite fib_pair_spec; reflexivity).
    vm_compute. reflexivity.
Qed.

(** ** Symbolic execution of the built-in programs *)

Ltac closed_eval :=
  repeat match goal with
  | |- context [Pos.to_nat ?p] =>
      let r := eval vm_compute in (Pos.to_nat p) in
      change (Pos.to_nat p) with r
  end.

Ltac mem_hyp :=
  match goal with
  | H : forall j, _ -> ?m j = _ |- context [?m ?i] => rewrite (H i) by lia
  | H : ?m ?i0 = _ |- context [?m ?i] =>
      replace (m i) with (m i0) by (f_equal; lia); rewrite H
  end.

Ltac mem_simpl :=
  repeat first
    [ rewrite upd_eq by lia
    | rewrite upd_other by lia
    | rewrite memcpy_inside by lia
    | rewrite memcpy_outside by lia
    | mem_hyp ].

Ltac num_simpl :=
  repeat first
    [ rewrite copied_words_1
    | rewrite signed_minus_one
    | rewrite signed_wrap by lia
    | rewrite signed_small by lia ].

Ltac norm_sp :=
  repeat match goal with
  | |- context [StackPtr ?e] => progress ring_simplify e
  end.

Ltac exec1 := repeat (progress (cbn; closed_eval; mem_simpl; num_simpl)).

(** One instruction. *)
Ltac run_step := eapply eventually_step; [ exec1; norm_sp; reflexivity | ].

(** The comparison [n < 2] of the program, decided by a hypothesis. *)
Ltac decide_lt :=
  match goal with
  | |- context [?n <? 2] =>
      first [ replace (n <? 2) with true by (symmetry; apply Z.ltb_lt; lia)
            | replace (n <? 2) with false by (symmetry; apply Z.ltb_ge; lia) ]
  end.

Ltac at_ret_now :=
  apply eventually_now; unfold at_ret; cbn;
  repeat split; try (f_equal; lia);
  intros; mem_simpl; try reflexivity.

(** A recursive call: the induction hypothesis [IH] for the argument [n']
    and the frame base [b'], whose frame takes [d] words. *)
Ltac use_ih IH n' b' d :=
  match goal with
  | |- eventually _ _ {| ip := _; sp := StackPtr ?e; bp := _; stack := ?mm |} =>
      replace e with (b' + d) by lia;
      let Hi := fresh "Hip" in let Hs := fresh "Hsp" in let Hb := fresh "Hbp" in
      let Hv := fresh "Hval" in let Hf := fresh "Hframe" in
      eapply eventually_bind;
      [ apply (IH n' b' mm);
        [ lia | lia | mem_simpl; try reflexivity; do 2 f_equal; lia ]
      | intros [? ? ? ?] (Hi & Hs & Hb & Hv & Hf); cbn in Hi, Hs, Hb, Hv, Hf;
        subst ]
  end.

Ltac fib_sum n :=
  rewrite wrap_signed_add, <- (f_rec n) by lia; reflexivity.

(** One instruction, from a state with [sp] in the bounds of the
    invariant. *)
Ltac safe_step :=
  eapply safely_step;
  [ eexists; split; [reflexivity|lia]
  | exec1; norm_sp; reflexivity
  | ].

Ltac safe_at_ret :=
  apply safely_now; unfold at_ret; cbn;
  repeat split; try (f_equal; lia);
  intros; mem_simpl; try reflexivity.

Ltac safe_ih IH n' b' d :=
  match goal with
  | |- safely _ _ _ {| ip := _; sp := StackPtr ?e; bp := _; stack := ?mm |} =>
      replace e with (b' + d) by lia;
      let Hi := fresh "Hip" in let Hs := fresh "Hsp" in let Hb := fresh "Hbp" in
      let Hv := fresh "Hval" in let Hf := fresh "Hframe" in
      eapply safely_bind;
      [ eapply safely_weaken;
        [ apply (IH n' b' mm);
          [ lia | lia | mem_simpl; try reflexivity; do 2 f_equal; lia ]
        | let i := fresh "i" in let Hi := fresh "Hi" in let Hj := fresh "Hj" in
          intros ? (i & Hi & Hj); exists i; split; [exact Hi|lia] ]
      | intros [? ? ? ?] (Hi & Hs & Hb & Hv & Hf); cbn in Hi, Hs, Hb, Hv, Hf;
        subst ]
  end.

(** *** wordcode.c *)

Lemma wc_fib_base n b m :
  - 2 ^ 63 <= n < 2 -> m (b + 2) = Word (wrap n) ->
  safely (Wordcode.step Wordcode.fib_code) (wc_frame_bound n b)
    (at_ret 30 3 b m (wrap (f n)))
    (mkInterp (CodePtr 0) (StackPtr (b + 3)) (StackPtr b) m).
Proof.
  intros Hn Hm. unfold wc_frame_bound.
  do 3 safe_step. decide_lt. do 2 safe_step. safe_at_ret.
  rewrite f_base by lia. reflexivity.
Qed.

Lemma wc_fib_body : forall (k : nat) n b m,
  - 2 ^ 63 <= n < 2 ^ 63 -> n < Z.of_nat k ->
  m (b + 2) = Word (wrap n) ->
  safely (Wordcode.step Wordcode.fib_code) (wc_frame_bound n b)
    (at_ret 30 3 b m (wrap (f n)))
    (mkInterp (CodePtr 0) (StackPtr (b + 3)) (StackPtr b) m).
Proof.
  induction k as [|k IH]; intros n b m Hn Hk Hm.
  - apply wc_fib_base; [lia|assumption].
  - destruct (Z_lt_le_dec n 2) as [Hlt|Hge].
    + apply wc_fib_base; [lia|assumption].
    + unfold wc_frame_bound in *.
      do 3 safe_step. decide_lt. do 5 safe_step.
      safe_ih IH (n - 1) (b + 3) 3.
      do 5 safe_step.
      safe_ih IH (n - 2) (b + 4) 3.
      do 3 safe_step. safe_at_ret. fib_sum n.
Qed.

(** For n <= 340 the whole run stays inside the array. *)
Lemma wc_fib_within_capacity m n :
  - 2 ^ 63 <= n <= 340 ->
  exists fuel,
    Wordcode.main_within fuel m n = Some (Returned (Word (wrap (f n)))).
Proof.
  intros Hn. unfold Wordcode.main_within. cbn -[Wordcode.step].
  apply safely_within.
  eapply safely_bind.
  - eapply safely_weaken.
    + apply (wc_fib_body (S (Z.to_nat n)) n 0); [lia|lia|].
      mem_simpl. reflexivity.
    + intros [? ? ? ?] (i & Hi & Hj). cbn in Hi. subst.
      unfold sp_within, STACK_SIZE. cbn.
      destruct (Z.leb_spec 0 i), (Z.leb_spec i 1024); try reflexivity; lia.
  - intros [? ? ? ?] (Hi & Hs & Hb & Hv & Hf). cbn in Hi, Hs, Hb, Hv, Hf. subst.
    apply safely_now. split; [reflexivity|]. exec1. reflexivity.
Qed.

(** ** Instructions of wordcode.c, for any code vector *)

Lemma wc_fetch program i w p b m :
  0 <= i -> nth_error program (Z.to_nat i) = Some w ->
  Wordcode.fetch program (mkInterp (CodePtr i) p b m)
  = Next w (mkInterp (CodePtr (i + 1)) p b m).
Proof.
  intros Hi Hw. cbn. rewrite Hw.
  destruct (Z.leb_spec 0 i); [reflexivity|lia].
Qed.

Lemma wc_invalid_opcode program i w p b m :
  0 <= i -> nth_error program (Z.to_nat i) = Some w ->
  Wordcode.decode w = None ->
  Wordcode.step program (mkInterp (CodePtr i) p b m) = Halt Aborted.
Proof.
  intros Hi Hw Hd. unfold Wordcode.step, bind.
  rewrite (wc_fetch _ _ _ _ _ _ Hi Hw), Hd. reflexivity.
Qed.

Lemma index_outside {A} (table : list A) word s :
  Z.of_nat (length table) <= word -> index table word s = Halt Undefined.
Proof.
  intros H. unfold index.
  replace (nth_error table (Z.to_nat word)) with (@None A); [reflexivity|].
  symmetry. apply nth_error_None. lia.
Qed.

(** ** Fetching from a threaded code vector *)

Lemma fetch_cell_at {L} (program : list (cell L)) i c p b m :
  0 <= i -> nth_error program (Z.to_nat i) = Some c ->
  fetch_cell program (mkInterp (CodePtr i) p b m)
  = Next c (mkInterp (CodePtr (i + 1)) p b m).
Proof.
  intros Hi Hc. cbn. rewrite Hc.
  destruct (Z.leb_spec 0 i); [reflexivity|lia].
Qed.

Lemma fetch_word_at {L} (program : list (cell L)) i w p b m :
  0 <= i -> nth_error program (Z.to_nat i) = Some (Imm w) ->
  fetch_word program (mkInterp (CodePtr i) p b m)
  = Next w (mkInterp (CodePtr (i + 1)) p b m).
Proof.
  intros Hi Hc. unfold fetch_word, bind.
  rewrite (fetch_cell_at _ _ _ _ _ _ Hi Hc). reflexivity.
Qed.

Lemma index_inside {A} (table : list A) word a s :
  0 <= word -> nth_error table (Z.to_nat word) = Some a ->
  index table word s = Next a s.
Proof.
  intros H0 Ha. unfold index. rewrite Ha.
  destruct (Z.leb_spec 0 word); [reflexivity|lia].
Qed.

Lemma wc_main_within_main fuel m n h :
  Wordcode.main_within fuel m n = Some h -> Wordcode.main fuel m n = Some h.
Proof.
  unfold Wordcode.main_within, Wordcode.main, Wordcode.run, run_within, run_from.
  destruct (Wordcode.setup m n) as [[] s|h0]; [|auto].
  apply execute_within_loop.
Qed.

(** ** Runs of the built-in programs on small arguments *)

Example wordcode_fib5 :
  Wordcode.main 1000 zero_memory 5 = Some (Returned (Word 8)).
Proof. vm_compute. reflexivity. Qed.

Example handlercode2_fib5 :
  Handlercode2.main 1000 zero_memory 5 = Some (Returned (Word 8)).
Proof. vm_compute. reflexivity. Qed.

Example directthreaded3_fib5 :
  Directthreaded3.execute 1000 zero_memory 5 = Some (Returned (Word 8)).
Proof. vm_compute. reflexivity. Qed.

Lemma f_values :
  f 0 = 1 /\ f 1 = 1 /\ f 2 = 2 /\ f 3 = 3 /\ f 4 = 5 /\ f 5 = 8 /\
  f 10 = 89 /\ f 20 = 10946.
Proof. repeat split; vm_compute; reflexivity. Qed.

Lemma f_93 : f 93 = 19740274219868223167.
Proof. rewrite f_iter by lia. vm_compute. reflexivity. Qed.

(** * Instruction counts and stack bounds *)

(** ** Counted runs *)
Section CountedFacts.
Variable step : M unit.

Lemma counted_bind (I P Q : interpreter -> Prop) k1 k2 s :
  counted step I P k1 s ->
  (forall s', P s' -> counted step I Q k2 s') ->
  counted step I Q (k1 + k2) s.
Proof.
  intros H HPQ. induction H as [s Hp|k s s1 Hi Hs _ IH].
  - apply HPQ. exact Hp.
  - simpl. eapply counted_step; eauto.
Qed.

Lemma counted_weaken (I I' P : interpreter -> Prop) k s :
  counted step I P k s -> (forall s', I s' -> I' s') -> counted step I' P k s.
Proof.
  intros H HI. induction H as [s Hp|k s s1 Hi Hs _ IH].
  - apply counted_now. exact Hp.
  - eapply counted_step; eauto.
Qed.

Lemma counted_safely (I P : interpreter -> Prop) k s :
  counted step I P k s -> safely step I P s.
Proof.
  induction 1 as [s Hp|k s s1 Hi Hs _ IH].
  - apply safely_now. exact Hp.
  - eapply safely_step; eauto.
Qed.

(** A run that halts after [k] instructions needs [k + 1] units of fuel,
    no less. *)
Lemma counted_fuel (I : interpreter -> Prop) (h : halt) k s :
  counted step I (fun s' => step s' = Halt h) k s ->
  forall fuel,
    execute_loop step fuel s = if (k <? fuel)%nat then Some h else None.
Proof.
  induction 1 as [s Hh|k s s1 _ Hs _ IH]; intros [|fuel]; try reflexivity.
  - simpl. rewrite Hh. reflexivity.
  - simpl execute_loop. rewrite Hs, IH. reflexivity.
Qed.

(** The same for the run observed to stay inside the first [cap] words:
    when the states on the way do. *)
Lemma counted_within_fuel cap (I P : interpreter -> Prop) (h : halt) k s :
  counted step I P k s ->
  (forall s', I s' -> sp_within cap s' = true) ->
  (forall s', P s' -> sp_within cap s' = true /\ step s' = Halt h) ->
  forall fuel,
    execute_within step cap fuel s = if (k <? fuel)%nat then Some h else None.
Proof.
  intros H HI HP.
  induction H as [s Hp|k s s1 Hi Hs _ IH]; intros [|fuel]; try reflexivity.
  - destruct (HP s Hp) as [Hin Hh]. simpl. rewrite Hin, Hh. reflexivity.
  - simpl execute_within. rewrite (HI s Hi), Hs, IH. reflexivity.
Qed.

(** A run that passes through a state with [sp] outside of the first
    [cap] words is no run inside them. *)
Lemma reaches_outside cap k : forall s s',
  steps step k s = Next tt s' -> sp_within cap s' = false ->
  forall fuel, execute_within step cap fuel s = None.
Proof.
  induction k as [|k IH]; simpl; intros s s' Hk Hout [|fuel]; try reflexivity.
  - inversion Hk; subst. simpl. rewrite Hout. reflexivity.
  - simpl. destruct (sp_within cap s); [|reflexivity].
    destruct (step s) as [[] s1|h]; [|discriminate].
    eapply IH; eauto.
Qed.
End CountedFacts.

Lemma f_pos n : 1 <= f n.
Proof.
  unfold f. destruct (n <? 2); [lia|].
  pose proof (fib_nat_pos (Z.to_nat n)). lia.
Qed.

Lemma body_count_base n : n < 2 -> body_count n = 5%nat.
Proof. intros H. unfold body_count. rewrite f_base by lia. reflexivity. Qed.

Lemma body_count_rec n :
  2 <= n ->
  body_count n
  = (8 + (body_count (n - 1) + (5 + (body_count (n - 2) + 3))))%nat.
Proof.
  intros H. unfold body_count. rewrite (f_rec n H).
  pose proof (f_pos (n - 1)). pose proof (f_pos (n - 2)). lia.
Qed.

Lemma fused_body_count_base n : n < 2 -> fused_body_count n = 5%nat.
Proof. intros H. unfold fused_body_count. rewrite f_base by lia. reflexivity. Qed.

Lemma fused_body_count_rec n :
  2 <= n ->
  fused_body_count n
  = (7 + (fused_body_count (n - 1) + (5 + (fused_body_count (n - 2) + 3))))%nat.
Proof.
  intros H. unfold fused_body_count. rewrite (f_rec n H).
  pose proof (f_pos (n - 1)). pose proof (f_pos (n - 2)). lia.
Qed.

(** One counted instruction, from a state with [sp] in the bounds. *)
Ltac count_step :=
  eapply counted_step;
  [ eexists; split; [reflexivity|lia]
  | exec1; norm_sp; reflexivity
  | ].

Ltac count_at_ret :=
  apply counted_now; unfold at_ret; cbn;
  repeat split; try (f_equal; lia);
  intros; mem_simpl; try reflexivity.

Ltac count_ih IH n' b' d :=
  match goal with
  | |- counted _ _ _ _ {| ip := _; sp := StackPtr ?e; bp := _; stack := ?mm |} =>
      replace e with (b' + d) by lia;
      let Hi := fresh "Hip" in let Hs := fresh "Hsp" in let Hb := fresh "Hbp" in
      let Hv := fresh "Hval" in let Hf := fresh "Hframe" in
      eapply counted_bind;
      [ eapply counted_weaken;
        [ apply (IH n' b' mm);
          [ lia | lia | mem_simpl; try reflexivity; do 2 f_equal; lia ]
        | let i := fresh "i" in let Hi := fresh "Hi" in let Hj := fresh "Hj" in
          intros ? (i & Hi & Hj); exists i; split; [exact Hi|lia] ]
      | intros [? ? ? ?] (Hi & Hs & Hb & Hv & Hf); cbn in Hi, Hs, Hb, Hv, Hf;
        subst ]
  end.

(** ** wordcode.c: instructions executed and words of stack used *)

Lemma wc_fib_counted : forall (k : nat) n b m,
  - 2 ^ 63 <= n < 2 ^ 63 -> n < Z.of_nat k ->
  m (b + 2) = Word (wrap n) ->
  counted (Wordcode.step Wordcode.fib_code)
    (sp_between b (b + Z.max 5 (3 * n + 3)))
    (at_ret 30 3 b m (wrap (f n))) (body_count n)
    (mkInterp (CodePtr 0) (StackPtr (b + 3)) (StackPtr b) m).
Proof.
  unfold sp_between.
  induction k as [|k IH]; intros n b m Hn Hk Hm;
    (destruct (Z_lt_le_dec n 2) as [Hlt|Hge]; [|try lia]).
  1, 2: rewrite body_count_base by lia;
    do 3 count_step; decide_lt; do 2 count_step; count_at_ret;
    rewrite f_base by lia; reflexivity.
  - rewrite body_count_rec by lia.
    do 3 count_step. decide_lt. do 5 count_step.
    count_ih IH (n - 1) (b + 3) 3.
    do 5 count_step.
    count_ih IH (n - 2) (b + 4) 3.
    do 3 count_step. count_at_ret. fib_sum n.
Qed.

(** ** wordcode.c: instructions executed and words of stack used *)

(** The descent of the first recursive calls: from the entry of [fib] on n
    with frame base [b], the run comes to the entry of [fib] on n - k with
    frame base [b + 3 * k], as long as n - k >= 1. *)
Lemma wc_descent : forall (k : nat) n b m,
  - 2 ^ 63 <= n < 2 ^ 63 -> 1 <= n - Z.of_nat k ->
  m (b + 2) = Word (wrap n) ->
  eventually (Wordcode.step Wordcode.fib_code)
    (fun s' => exists m',
       s' = mkInterp (CodePtr 0) (StackPtr (b + 3 * Z.of_nat k + 3))
              (StackPtr (b + 3 * Z.of_nat k)) m' /\
       m' (b + 2 + 3 * Z.of_nat k) = Word (wrap (n - Z.of_nat k)))
    (mkInterp (CodePtr 0) (StackPtr (b + 3)) (StackPtr b) m).
Proof.
  induction k as [|k IH]; intros n b m Hn Hk Hm.
  - apply eventually_now. exists m. split.
    + f_equal; f_equal; lia.
    + replace (b + 2 + 3 * Z.of_nat 0) with (b + 2) by lia.
      rewrite Hm. do 2 f_equal. lia.
  - do 3 run_step. decide_lt. do 5 run_step.
    match goal with
    | |- eventually _ _ {| ip := _; sp := StackPtr ?e; bp := _; stack := ?mm |} =>
        replace e with (b + 3 + 3) by lia;
        eapply eventually_bind;
        [ apply (IH (n - 1) (b + 3) mm);
          [ lia | lia | mem_simpl; try reflexivity; do 2 f_equal; lia ]
        | ]
    end.
    intros s' (m' & -> & Hm'). apply eventually_now. exists m'. split.
    + f_equal; f_equal; lia.
    + replace (b + 2 + 3 * Z.of_nat (S k))
        with (b + 3 + 2 + 3 * Z.of_nat k) by lia.
      rewrite Hm'. do 2 f_equal. lia.
Qed.

Lemma wc_sp_within b n s :
  0 <= b -> b + Z.max 5 (3 * n + 3) <= STACK_SIZE ->
  sp_between b (b + Z.max 5 (3 * n + 3)) s -> sp_within STACK_SIZE s = true.
Proof.
  intros Hb Hcap (i & Hi & Hj). unfold sp_within. rewrite Hi.
  apply andb_true_intro. split; [apply Z.leb_le|apply Z.leb_le]; lia.
Qed.

(** The run inside the array: with [body_count n + 1] units of fuel it
    returns, with less it has not ended. *)
Lemma wc_exact_within m n :
  - 2 ^ 63 <= n <= 340 ->
  forall fuel,
    run_within (Wordcode.step Wordcode.fib_code) STACK_SIZE fuel
       (Wordcode.setup m n)
    = if (body_count n <? fuel)%nat
      then Some (Returned (Word (wrap (f n)))) else None.
Proof.
  intros Hn.
  unfold run_within. cbn -[Wordcode.step execute_within].
  eapply counted_within_fuel.
  - apply (wc_fib_counted (S (Z.to_nat n)) n 0); [lia|lia|].
    mem_simpl. reflexivity.
  - intros s Hs. apply (wc_sp_within 0 n); [lia|unfold STACK_SIZE; lia|exact Hs].
  - intros [? ? ? ?] (Hi & Hs & Hb & Hv & Hf). cbn in Hi, Hs, Hb, Hv, Hf. subst.
    split; [reflexivity|]. exec1. reflexivity.
Qed.

(** wordcode.c executes exactly 21 f(n) - 15 instructions on an argument
    n <= 340, the outermost [RET] included, without leaving the
    [STACK_SIZE] words of the stack array: with that much fuel the run
    returns f(n) modulo 2^64, with less it has not ended. *)
Theorem wc_instruction_count m n :
  - 2 ^ 63 <= n <= 340 ->
  Z.of_nat (S (body_count n)) = 21 * f n - 15 /\
  forall fuel,
    run_within (Wordcode.step Wordcode.fib_code) STACK_SIZE fuel
       (Wordcode.setup m n)
    = if (body_count n <? fuel)%nat
      then Some (Returned (Word (wrap (f n)))) else None.
Proof.
  intros Hn. split.
  - unfold body_count. pose proof (f_pos n). lia.
  - apply wc_exact_within. exact Hn.
Qed.

Lemma wc_instruction_count_witness :
  run_within (Wordcode.step Wordcode.fib_code) STACK_SIZE 153
    (Wordcode.setup zero_memory 5) = Some (Returned (Word 8)) /\
  run_within (Wordcode.step Wordcode.fib_code) STACK_SIZE 145
    (Wordcode.setup zero_memory 5) = None.
Proof.
  destruct (wc_instruction_count zero_memory 5) as [_ H]; [lia|].
  split; apply H.
Defined.

(** The run of wordcode.c on n stays inside the [STACK_SIZE] words of the
    stack array exactly when n <= 340; for a larger n it pushes past the
    end of the array. *)
Theorem wc_stack_capacity m n :
  - 2 ^ 63 <= n < 2 ^ 63 ->
  (exists fuel,
     run_within (Wordcode.step Wordcode.fib_code) STACK_SIZE fuel
       (Wordcode.setup m n)
     = Some (Returned (Word (wrap (f n))))) <->
  n <= 340.
Proof.
  intros Hn. split.
  - intros [fuel Hfuel].
    destruct (Z_le_gt_dec n 340) as [Hle|Hgt]; [exact Hle|exfalso].
    assert (Hout : eventually (Wordcode.step Wordcode.fib_code)
                     (fun s' => sp_within STACK_SIZE s' = false)
                     (mkInterp (CodePtr 0) (StackPtr (0 + 3))
                        (StackPtr 0)
                        (upd (upd (upd m 0 (Word 0)) 1 (Word 0)) 2 (Word (wrap n))))).
    { eapply eventually_bind.
      - apply (wc_descent 340%nat n 0); [lia|lia|].
        mem_simpl. reflexivity.
      - intros s' (m' & -> & Hm').
        do 2 run_step. apply eventually_now. reflexivity. }
    destruct Hout as (s' & [k Hk] & Hs').
    unfold run_within in Hfuel. cbn -[Wordcode.step execute_within] in Hfuel.
    rewrite (reaches_outside _ _ _ _ _ Hk Hs') in Hfuel. discriminate.
  - intros Hle. unfold run_within.
    cbn -[Wordcode.step execute_within].
    apply safely_within.
    eapply safely_bind.
    + eapply safely_weaken.
      * eapply counted_safely.
        apply (wc_fib_counted (S (Z.to_nat n)) n 0); [lia|lia|].
        mem_simpl. reflexivity.
      * intros [? ? ? ?] (i & Hi & Hj). cbn in Hi. subst.
        unfold sp_within, STACK_SIZE. cbn.
        destruct (Z.leb_spec 0 i), (Z.leb_spec i 1024); try reflexivity; lia.
    + intros [? ? ? ?] (Hi & Hs & Hb & Hv & Hf). cbn in Hi, Hs, Hb, Hv, Hf. subst.
      apply safely_now. split; [reflexivity|]. exec1. reflexivity.
Qed.

Lemma wc_stack_capacity_witness :
  exists fuel,
    run_within (Wordcode.step Wordcode.fib_code) STACK_SIZE fuel
      (Wordcode.setup zero_memory 5)
    = Some (Returned (Word 8)).
Proof.
  destruct (wc_stack_capacity zero_memory 5) as [_ H]; [lia|].
  destruct (H ltac:(lia)) as [fuel Hfuel].
  exists fuel. exact Hfuel.
Defined.

(** ** handlercode2.c: instructions executed and words of stack used *)

Lemma hc2_fib_counted : forall (k : nat) n b m,
  - 2 ^ 63 <= n < 2 ^ 63 -> n < Z.of_nat k ->
  m (b + 3) = Word (wrap n) ->
  counted (Handlercode2.step Handlercode2.fib_code)
    (sp_between b (b + Z.max 6 (5 * n + 2)))
    (at_ret 32 4 b m (wrap (f n))) (body_count n)
    (mkInterp (CodePtr 0) (StackPtr (b + 4)) (StackPtr b) m).
Proof.
  unfold sp_between.
  induction k as [|k IH]; intros n b m Hn Hk Hm;
    (destruct (Z_lt_le_dec n 2) as [Hlt|Hge]; [|try lia]).
  1, 2: rewrite body_count_base by lia;
    do 3 count_step; decide_lt; do 2 count_step; count_at_ret;
    rewrite f_base by lia; reflexivity.
  - rewrite body_count_rec by lia.
    do 3 count_step. decide_lt. do 5 count_step.
    count_ih IH (n - 1) (b + 5) 4.
    do 5 count_step.
    count_ih IH (n - 2) (b + 6) 4.
    do 3 count_step. count_at_ret. fib_sum n.
Qed.

(** The descent of the first recursive calls: from the entry of [fib] on n
    with frame base [b], the run comes to the entry of [fib] on n - k with
    frame base [b + 5 * k], as long as n - k >= 1. *)
Lemma hc2_descent : forall (k : nat) n b m,
  - 2 ^ 63 <= n < 2 ^ 63 -> 1 <= n - Z.of_nat k ->
  m (b + 3) = Word (wrap n) ->
  eventually (Handlercode2.step Handlercode2.fib_code)
    (fun s' => exists m',
       s' = mkInterp (CodePtr 0) (StackPtr (b + 5 * Z.of_nat k + 4))
              (StackPtr (b + 5 * Z.of_nat k)) m' /\
       m' (b + 3 + 5 * Z.of_nat k) = Word (wrap (n - Z.of_nat k)))
    (mkInterp (CodePtr 0) (StackPtr (b + 4)) (StackPtr b) m).
Proof.
  induction k as [|k IH]; intros n b m Hn Hk Hm.
  - apply eventually_now. exists m. split.
    + f_equal; f_equal; lia.
    + replace (b + 3 + 5 * Z.of_nat 0) with (b + 3) by lia.
      rewrite Hm. do 2 f_equal. lia.
  - do 3 run_step. decide_lt. do 5 run_step.
    match goal with
    | |- eventually _ _ {| ip := _; sp := StackPtr ?e; bp := _; stack := ?mm |} =>
        replace e with (b + 5 + 4) by lia;
        eapply eventually_bind;
        [ apply (IH (n - 1) (b + 5) mm);
          [ lia | lia | mem_simpl; try reflexivity; do 2 f_equal; lia ]
        | ]
    end.
    intros s' (m' & -> & Hm'). apply eventually_now. exists m'. split.
    + f_equal; f_equal; lia.
    + replace (b + 3 + 5 * Z.of_nat (S k))
        with (b + 5 + 3 + 5 * Z.of_nat k) by lia.
      rewrite Hm'. do 2 f_equal. lia.
Qed.

Lemma hc2_sp_within b n s :
  0 <= b -> b + Z.max 6 (5 * n + 2) <= STACK_SIZE ->
  sp_between b (b + Z.max 6 (5 * n + 2)) s -> sp_within STACK_SIZE s = true.
Proof.
  intros Hb Hcap (i & Hi & Hj). unfold sp_within. rewrite Hi.
  apply andb_true_intro. split; [apply Z.leb_le|apply Z.leb_le]; lia.
Qed.

(** The run inside the array: with [body_count n + 1] units of fuel it
    returns, with less it has not ended. *)
Lemma hc2_exact_within m n :
  - 2 ^ 63 <= n <= 204 ->
  forall fuel,
    run_within (Handlercode2.step Handlercode2.fib_code) STACK_SIZE fuel
       (Handlercode2.setup m n)
    = if (body_count n <? fuel)%nat
      then Some (Returned (Word (wrap (f n)))) else None.
Proof.
  intros Hn.
  unfold run_within. cbn -[Handlercode2.step execute_within].
  eapply counted_within_fuel.
  - apply (hc2_fib_counted (S (Z.to_nat n)) n 0); [lia|lia|].
    mem_simpl. reflexivity.
  - intros s Hs. apply (hc2_sp_within 0 n); [lia|unfold STACK_SIZE; lia|exact Hs].
  - intros [? ? ? ?] (Hi & Hs & Hb & Hv & Hf). cbn in Hi, Hs, Hb, Hv, Hf. subst.
    split; [reflexivity|]. exec1. reflexivity.
Qed.

(** handlercode2.c executes exactly 21 f(n) - 15 instructions on an argument
    n <= 204, the outermost [RET] included, without leaving the
    [STACK_SIZE] words of the stack array: with that much fuel the run
    returns f(n) modulo 2^64, with less it has not ended. *)
Theorem hc2_instruction_count m n :
  - 2 ^ 63 <= n <= 204 ->
  Z.of_nat (S (body_count n)) = 21 * f n - 15 /\
  forall fuel,
    run_within (Handlercode2.step Handlercode2.fib_code) STACK_SIZE fuel
       (Handlercode2.setup m n)
    = if (body_count n <? fuel)%nat
      then Some (Returned (Word (wrap (f n)))) else None.
Proof.
  intros Hn. split.
  - unfold body_count. pose proof (f_pos n). lia.
  - apply hc2_exact_within. exact Hn.
Qed.

Lemma hc2_instruction_count_witness :
  run_within (Handlercode2.step Handlercode2.fib_code) STACK_SIZE 153
    (Handlercode2.setup zero_memory 5) = Some (Returned (Word 8)) /\
  run_within (Handlercode2.step Handlercode2.fib_code) STACK_SIZE 145
    (Handlercode2.setup zero_memory 5) = None.
Proof.
  destruct (hc2_instruction_count zero_memory 5) as [_ H]; [lia|].
  split; apply H.
Defined.

(** The run of handlercode2.c on n stays inside the [STACK_SIZE] words of the
    stack array exactly when n <= 204; for a larger n it pushes past the
    end of the array. *)
Theorem hc2_stack_capacity m n :
  - 2 ^ 63 <= n < 2 ^ 63 ->
  (exists fuel,
     run_within (Handlercode2.step Handlercode2.fib_code) STACK_SIZE fuel
       (Handlercode2.setup m n)
     = Some (Returned (Word (wrap (f n))))) <->
  n <= 204.
Proof.
  intros Hn. split.
  - intros [fuel Hfuel].
    destruct (Z_le_gt_dec n 204) as [Hle|Hgt]; [exact Hle|exfalso].
    assert (Hout : eventually (Handlercode2.step Handlercode2.fib_code)
                     (fun s' => sp_within STACK_SIZE s' = false)
                     (mkInterp (CodePtr 0) (StackPtr (0 + 4))
                        (StackPtr 0)
                        (upd (upd (upd (upd m 0 (Word 0)) 1 (Word 0)) 2 (Word 0)) 3 (Word (wrap n))))).
    { eapply eventually_bind.
      - apply (hc2_descent 204%nat n 0); [lia|lia|].
        mem_simpl. reflexivity.
      - intros s' (m' & -> & Hm').
        do 1 run_step. apply eventually_now. reflexivity. }
    destruct Hout as (s' & [k Hk] & Hs').
    unfold run_within in Hfuel. cbn -[Handlercode2.step execute_within] in Hfuel.
    rewrite (reaches_outside _ _ _ _ _ Hk Hs') in Hfuel. discriminate.
  - intros Hle. unfold run_within.
    cbn -[Handlercode2.step execute_within].
    apply safely_within.
    eapply safely_bind.
    + eapply safely_weaken.
      * eapply counted_safely.
        apply (hc2_fib_counted (S (Z.to_nat n)) n 0); [lia|lia|].
        mem_simpl. reflexivity.
      * intros [? ? ? ?] (i & Hi & Hj). cbn in Hi. subst.
        unfold sp_within, STACK_SIZE. cbn.
        destruct (Z.leb_spec 0 i), (Z.leb_spec i 1024); try reflexivity; lia.
    + intros [? ? ? ?] (Hi & Hs & Hb & Hv & Hf). cbn in Hi, Hs, Hb, Hv, Hf. subst.
      apply safely_now. split; [reflexivity|]. exec1. reflexivity.
Qed.

Lemma hc2_stack_capacity_witness :
  exists fuel,
    run_within (Handlercode2.step Handlercode2.fib_code) STACK_SIZE fuel
      (Handlercode2.setup zero_memory 5)
    = Some (Returned (Word 8)).
Proof.
  destruct (hc2_stack_capacity zero_memory 5) as [_ H]; [lia|].
  destruct (H ltac:(lia)) as [fuel Hfuel].
  exists fuel. exact Hfuel.
Defined.

(** ** directthreaded2.c: instructions executed and words of stack used *)

Lemma dt2_fib_counted : forall (k : nat) n b m,
  - 2 ^ 63 <= n < 2 ^ 63 -> n < Z.of_nat k ->
  m (b + 3) = Word (wrap n) ->
  counted (Directthreaded2.step Directthreaded2.fib_code)
    (sp_between b (b + Z.max 6 (5 * n + 2)))
    (at_ret 32 4 b m (wrap (f n))) (body_count n)
    (mkInterp (CodePtr 0) (StackPtr (b + 4)) (StackPtr b) m).
Proof.
  unfold sp_between.
  induction k as [|k IH]; intros n b m Hn Hk Hm;
    (destruct (Z_lt_le_dec n 2) as [Hlt|Hge]; [|try lia]).
  1, 2: rewrite body_count_base by lia;
    do 3 count_step; decide_lt; do 2 count_step; count_at_ret;
    rewrite f_base by lia; reflexivity.
  - rewrite body_count_rec by lia.
    do 3 count_step. decide_lt. do 5 count_step.
    count_ih IH (n - 1) (b + 5) 4.
    do 5 count_step.
    count_ih IH (n - 2) (b + 6) 4.
    do 3 count_step. count_at_ret. fib_sum n.
Qed.

(** The descent of the first recursive calls: from the entry of [fib] on n
    with frame base [b], the run comes to the entry of [fib] on n - k with
    frame base [b + 5 * k], as long as n - k >= 1. *)
Lemma dt2_descent : forall (k : nat) n b m,
  - 2 ^ 63 <= n < 2 ^ 63 -> 1 <= n - Z.of_nat k ->
  m (b + 3) = Word (wrap n) ->
  eventually (Directthreaded2.step Directthreaded2.fib_code)
    (fun s' => exists m',
       s' = mkInterp (CodePtr 0) (StackPtr (b + 5 * Z.of_nat k + 4))
              (StackPtr (b + 5 * Z.of_nat k)) m' /\
       m' (b + 3 + 5 * Z.of_nat k) = Word (wrap (n - Z.of_nat k)))
    (mkInterp (CodePtr 0) (StackPtr (b + 4)) (StackPtr b) m).
Proof.
  induction k as [|k IH]; intros n b m Hn Hk Hm.
  - apply eventually_now. exists m. split.
    + f_equal; f_equal; lia.
    + replace (b + 3 + 5 * Z.of_nat 0) with (b + 3) by lia.
      rewrite Hm. do 2 f_equal. lia.
  - do 3 run_step. decide_lt. do 5 run_step.
    match goal with
    | |- eventually _ _ {| ip := _; sp := StackPtr ?e; bp := _; stack := ?mm |} =>
        replace e with (b + 5 + 4) by lia;
        eapply eventually_bind;
        [ apply (IH (n - 1) (b + 5) mm);
          [ lia | lia | mem_simpl; try reflexivity; do 2 f_equal; lia ]
        | ]
    end.
    intros s' (m' & -> & Hm'). apply eventually_now. exists m'. split.
    + f_equal; f_equal; lia.
    + replace (b + 3 + 5 * Z.of_nat (S k))
        with (b + 5 + 3 + 5 * Z.of_nat k) by lia.
      rewrite Hm'. do 2 f_equal. lia.
Qed.

Lemma dt2_sp_within b n s :
  0 <= b -> b + Z.max 6 (5 * n + 2) <= STACK_SIZE ->
  sp_between b (b + Z.max 6 (5 * n + 2)) s -> sp_within STACK_SIZE s = true.
Proof.
  intros Hb Hcap (i & Hi & Hj). unfold sp_within. rewrite Hi.
  apply andb_true_intro. split; [apply Z.leb_le|apply Z.leb_le]; lia.
Qed.

(** The run inside the array: with [body_count n + 1] units of fuel it
    returns, with less it has not ended. *)
Lemma dt2_exact_within m n :
  - 2 ^ 63 <= n <= 204 ->
  forall fuel,
    run_within (Directthreaded2.step Directthreaded2.fib_code) STACK_SIZE fuel
       (Directthreaded2.setup m n)
    = if (body_count n <? fuel)%nat
      then Some (Returned (Word (wrap (f n)))) else None.
Proof.
  intros Hn.
  unfold run_within. cbn -[Directthreaded2.step execute_within].
  eapply counted_within_fuel.
  - apply (dt2_fib_counted (S (Z.to_nat n)) n 0); [lia|lia|].
    mem_simpl. reflexivity.
  - intros s Hs. apply (dt2_sp_within 0 n); [lia|unfold STACK_SIZE; lia|exact Hs].
  - intros [? ? ? ?] (Hi & Hs & Hb & Hv & Hf). cbn in Hi, Hs, Hb, Hv, Hf. subst.
    split; [reflexivity|]. exec1. reflexivity.
Qed.

(** directthreaded2.c executes exactly 21 f(n) - 15 instructions on an argument
    n <= 204, the outermost [RET] included, without leaving the
    [STACK_SIZE] words of the stack array: with that much fuel the run
    returns f(n) modulo 2^64, with less it has not ended. *)
Theorem dt2_instruction_count m n :
  - 2 ^ 63 <= n <= 204 ->
  Z.of_nat (S (body_count n)) = 21 * f n - 15 /\
  forall fuel,
    run_within (Directthreaded2.step Directthreaded2.fib_code) STACK_SIZE fuel
       (Directthreaded2.setup m n)
    = if (body_count n <? fuel)%nat
      then Some (Returned (Word (wrap (f n)))) else None.
Proof.
  intros Hn. split.
  - unfold body_count. pose proof (f_pos n). lia.
  - apply dt2_exact_within. exact Hn.
Qed.

Lemma dt2_instruction_count_witness :
  run_within (Directthreaded2.step Directthreaded2.fib_code) STACK_SIZE 153
    (Directthreaded2.setup zero_memory 5) = Some (Returned (Word 8)) /\
  run_within (Directthreaded2.step Directthreaded2.fib_code) STACK_SIZE 145
    (Directthreaded2.setup zero_memory 5) = None.
Proof.
  destruct (dt2_instruction_count zero_memory 5) as [_ H]; [lia|].
  split; apply H.
Defined.

(** The run of directthreaded2.c on n stays inside the [STACK_SIZE] words of the
    stack array exactly when n <= 204; for a larger n it pushes past the
    end of the array. *)
Theorem dt2_stack_capacity m n :
  - 2 ^ 63 <= n < 2 ^ 63 ->
  (exists fuel,
     run_within (Directthreaded2.step Directthreaded2.fib_code) STACK_SIZE fuel
       (Directthreaded2.setup m n)
     = Some (Returned (Word (wrap (f n))))) <->
  n <= 204.
Proof.
  intros Hn. split.
  - intros [fuel Hfuel].
    destruct (Z_le_gt_dec n 204) as [Hle|Hgt]; [exact Hle|exfalso].
    assert (Hout : eventually (Directthreaded2.step Directthreaded2.fib_code)
                     (fun s' => sp_within STACK_SIZE s' = false)
                     (mkInterp (CodePtr 0) (StackPtr (0 + 4))
                        (StackPtr 0)
                        (upd (upd (upd (upd m 0 (Word 0)) 1 (Word 0)) 2 (Word 0)) 3 (Word (wrap n))))).
    { eapply eventually_bind.
      - apply (dt2_descent 204%nat n 0); [lia|lia|].
        mem_simpl. reflexivity.
      - intros s' (m' & -> & Hm').
        do 1 run_step. apply eventually_now. reflexivity. }
    destruct Hout as (s' & [k Hk] & Hs').
    unfold run_within in Hfuel. cbn -[Directthreaded2.step execute_within] in Hfuel.
    rewrite (reaches_outside _ _ _ _ _ Hk Hs') in Hfuel. discriminate.
  - intros Hle. unfold run_within.
    cbn -[Directthreaded2.step execute_within].
    apply safely_within.
    eapply safely_bind.
    + eapply safely_weaken.
      * eapply counted_safely.
        apply (dt2_fib_counted (S (Z.to_nat n)) n 0); [lia|lia|].
        mem_simpl. reflexivity.
      * intros [? ? ? ?] (i & Hi & Hj). cbn in Hi. subst.
        unfold sp_within, STACK_SIZE. cbn.
        destruct (Z.leb_spec 0 i), (Z.leb_spec i 1024); try reflexivity; lia.
    + intros [? ? ? ?] (Hi & Hs & Hb & Hv & Hf). cbn in Hi, Hs, Hb, Hv, Hf. subst.
      apply safely_now. split; [reflexivity|]. exec1. reflexivity.
Qed.

Lemma dt2_stack_capacity_witness :
  exists fuel,
    run_within (Directthreaded2.step Directthreaded2.fib_code) STACK_SIZE fuel
      (Directthreaded2.setup zero_memory 5)
    = Some (Returned (Word 8)).
Proof.
  destruct (dt2_stack_capacity zero_memory 5) as [_ H]; [lia|].
  destruct (H ltac:(lia)) as [fuel Hfuel].
  exists fuel. exact Hfuel.
Defined.

(** ** directthreaded.c: instructions executed and words of stack used *)

Lemma dt1_fib_counted : forall (k : nat) n b m,
  - 2 ^ 63 <= n < 2 ^ 63 -> n < Z.of_nat k ->
  m (b + 3) = Word (wrap n) ->
  counted (Directthreaded.step Directthreaded.fib_code)
    (sp_between b (b + Z.max 6 (5 * n + 2)))
    (at_ret 32 4 b m (wrap (f n))) (body_count n)
    (mkInterp (CodePtr 0) (StackPtr (b + 4)) (StackPtr b) m).
Proof.
  unfold sp_between.
  induction k as [|k IH]; intros n b m Hn Hk Hm;
    (destruct (Z_lt_le_dec n 2) as [Hlt|Hge]; [|try lia]).
  1, 2: rewrite body_count_base by lia;
    do 3 count_step; decide_lt; do 2 count_step; count_at_ret;
    rewrite f_base by lia; reflexivity.
  - rewrite body_count_rec by lia.
    do 3 count_step. decide_lt. do 5 count_step.
    count_ih IH (n - 1) (b + 5) 4.
    do 5 count_step.
    count_ih IH (n - 2) (b + 6) 4.
    do 3 count_step. count_at_ret. fib_sum n.
Qed.

(** The descent of the first recursive calls: from the entry of [fib] on n
    with frame base [b], the run comes to the entry of [fib] on n - k with
    frame base [b + 5 * k], as long as n - k >= 1. *)
Lemma dt1_descent : forall (k : nat) n b m,
  - 2 ^ 63 <= n < 2 ^ 63 -> 1 <= n - Z.of_nat k ->
  m (b + 3) = Word (wrap n) ->
  eventually (Directthreaded.step Directthreaded.fib_code)
    (fun s' => exists m',
       s' = mkInterp (CodePtr 0) (StackPtr (b + 5 * Z.of_nat k + 4))
              (StackPtr (b + 5 * Z.of_nat k)) m' /\
       m' (b + 3 + 5 * Z.of_nat k) = Word (wrap (n - Z.of_nat k)))
    (mkInterp (CodePtr 0) (StackPtr (b + 4)) (StackPtr b) m).
Proof.
  induction k as [|k IH]; intros n b m Hn Hk Hm.
  - apply eventually_now. exists m. split.
    + f_equal; f_equal; lia.
    + replace (b + 3 + 5 * Z.of_nat 0) with (b + 3) by lia.
      rewrite Hm. do 2 f_equal. lia.
  - do 3 run_step. decide_lt. do 5 run_step.
    match goal with
    | |- eventually _ _ {| ip := _; sp := StackPtr ?e; bp := _; stack := ?mm |} =>
        replace e with (b + 5 + 4) by lia;
        eapply eventually_bind;
        [ apply (IH (n - 1) (b + 5) mm);
          [ lia | lia | mem_simpl; try reflexivity; do 2 f_equal; lia ]
        | ]
    end.
    intros s' (m' & -> & Hm'). apply eventually_now. exists m'. split.
    + f_equal; f_equal; lia.
    + replace (b + 3 + 5 * Z.of_nat (S k))
        with (b + 5 + 3 + 5 * Z.of_nat k) by lia.
      rewrite Hm'. do 2 f_equal. lia.
Qed.

Lemma dt1_sp_within b n s :
  0 <= b -> b + Z.max 6 (5 * n + 2) <= STACK_SIZE ->
  sp_between b (b + Z.max 6 (5 * n + 2)) s -> sp_within STACK_SIZE s = true.
Proof.
  intros Hb Hcap (i & Hi & Hj). unfold sp_within. rewrite Hi.
  apply andb_true_intro. split; [apply Z.leb_le|apply Z.leb_le]; lia.
Qed.

(** The run inside the array: with [body_count n + 1] units of fuel it
    returns, with less it has not ended. *)
Lemma dt1_exact_within m n :
  - 2 ^ 63 <= n <= 204 ->
  forall fuel,
    run_within (Directthreaded.step Directthreaded.fib_code) STACK_SIZE fuel
       (Directthreaded.setup m n)
    = if (body_count n <? fuel)%nat
      then Some (Returned (Word (wrap (f n)))) else None.
Proof.
  intros Hn.
  unfold run_within. cbn -[Directthreaded.step execute_within].
  eapply counted_within_fuel.
  - apply (dt1_fib_counted (S (Z.to_nat n)) n 0); [lia|lia|].
    mem_simpl. reflexivity.
  - intros s Hs. apply (dt1_sp_within 0 n); [lia|unfold STACK_SIZE; lia|exact Hs].
  - intros [? ? ? ?] (Hi & Hs & Hb & Hv & Hf). cbn in Hi, Hs, Hb, Hv, Hf. subst.
    split; [reflexivity|]. exec1. reflexivity.
Qed.

(** directthreaded.c executes exactly 21 f(n) - 15 instructions on an argument
    n <= 204, the outermost [RET] included, without leaving the
    [STACK_SIZE] words of the stack array: with that much fuel the run
    returns f(n) modulo 2^64, with less it has not ended. *)
Theorem dt1_instruction_count m n :
  - 2 ^ 63 <= n <= 204 ->
  Z.of_nat (S (body_count n)) = 21 * f n - 15 /\
  forall fuel,
    run_within (Directthreaded.step Directthreaded.fib_code) STACK_SIZE fuel
       (Directthreaded.setup m n)
    = if (body_count n <? fuel)%nat
      then Some (Returned (Word (wrap (f n)))) else None.
Proof.
  intros Hn. split.
  - unfold body_count. pose proof (f_pos n). lia.
  - apply dt1_exact_within. exact Hn.
Qed.

Lemma dt1_instruction_count_witness :
  run_within (Directthreaded.step Directthreaded.fib_code) STACK_SIZE 153
    (Directthreaded.setup zero_memory 5) = Some (Returned (Word 8)) /\
  run_within (Directthreaded.step Directthreaded.fib_code) STACK_SIZE 145
    (Directthreaded.setup zero_memory 5) = None.
Proof.
  destruct (dt1_instruction_count zero_memory 5) as [_ H]; [lia|].
  split; apply H.
Defined.

(** The run of directthreaded.c on n stays inside the [STACK_SIZE] words of the
    stack array exactly when n <= 204; for a larger n it pushes past the
    end of the array. *)
Theorem dt1_stack_capacity m n :
  - 2 ^ 63 <= n < 2 ^ 63 ->
  (exists fuel,
     run_within (Directthreaded.step Directthreaded.fib_code) STACK_SIZE fuel
       (Directthreaded.setup m n)
     = Some (Returned (Word (wrap (f n))))) <->
  n <= 204.
Proof.
  intros Hn. split.
  - intros [fuel Hfuel].
    destruct (Z_le_gt_dec n 204) as [Hle|Hgt]; [exact Hle|exfalso].
    assert (Hout : eventually (Directthreaded.step Directthreaded.fib_code)
                     (fun s' => sp_within STACK_SIZE s' = false)
                     (mkInterp (CodePtr 0) (StackPtr (0 + 4))
                        (StackPtr 0)
                        (upd (upd (upd (upd m 0 (Word 0)) 1 (Word 0)) 2 (Word 0)) 3 (Word (wrap n))))).
    { eapply eventually_bind.
      - apply (dt1_descent 204%nat n 0); [lia|lia|].
        mem_simpl. reflexivity.
      - intros s' (m' & -> & Hm').
        do 1 run_step. apply eventually_now. reflexivity. }
    destruct Hout as (s' & [k Hk] & Hs').
    unfold run_within in Hfuel. cbn -[Directthreaded.step execute_within] in Hfuel.
    rewrite (reaches_outside _ _ _ _ _ Hk Hs') in Hfuel. discriminate.
  - intros Hle. unfold run_within.
    cbn -[Directthreaded.step execute_within].
    apply safely_within.
    eapply safely_bind.
    + eapply safely_weaken.
      * eapply counted_safely.
        apply (dt1_fib_counted (S (Z.to_nat n)) n 0); [lia|lia|].
        mem_simpl. reflexivity.
      * intros [? ? ? ?] (i & Hi & Hj). cbn in Hi. subst.
        unfold sp_within, STACK_SIZE. cbn.
        destruct (Z.leb_spec 0 i), (Z.leb_spec i 1024); try reflexivity; lia.
    + intros [? ? ? ?] (Hi & Hs & Hb & Hv & Hf). cbn in Hi, Hs, Hb, Hv, Hf. subst.
      apply safely_now. split; [reflexivity|]. exec1. reflexivity.
Qed.

Lemma dt1_stack_capacity_witness :
  exists fuel,
    run_within (Directthreaded.step Directthreaded.fib_code) STACK_SIZE fuel
      (Directthreaded.setup zero_memory 5)
    = Some (Returned (Word 8)).
Proof.
  destruct (dt1_stack_capacity zero_memory 5) as [_ H]; [lia|].
  destruct (H ltac:(lia)) as [fuel Hfuel].
  exists fuel. exact Hfuel.
Defined.

(** ** directthreaded3.c: instructions executed and words of stack used *)

Lemma dt3_fib_counted : forall (k : nat) n b m,
  - 2 ^ 63 <= n < 2 ^ 63 -> n < Z.of_nat k ->
  m (b - 1) = Word (wrap n) ->
  counted (Directthreaded3.step Directthreaded3.fib_code)
    (sp_between b (b + Z.max 5 (4 * n + 2)))
    (at_ret 32 3 b m (wrap (f n))) (body_count n)
    (mkInterp (CodePtr 0) (StackPtr (b + 3)) (StackPtr b) m).
Proof.
  unfold sp_between.
  induction k as [|k IH]; intros n b m Hn Hk Hm;
    (destruct (Z_lt_le_dec n 2) as [Hlt|Hge]; [|try lia]).
  1, 2: rewrite body_count_base by lia;
    do 3 count_step; decide_lt; do 2 count_step; count_at_ret;
    rewrite f_base by lia; reflexivity.
  - rewrite body_count_rec by lia.
    do 3 count_step. decide_lt. do 5 count_step.
    count_ih IH (n - 1) (b + 4) 3.
    do 5 count_step.
    count_ih IH (n - 2) (b + 5) 3.
    do 3 count_step. count_at_ret. fib_sum n.
Qed.

(** The descent of the first recursive calls: from the entry of [fib] on n
    with frame base [b], the run comes to the entry of [fib] on n - k with
    frame base [b + 4 * k], as long as n - k >= 1. *)
Lemma dt3_descent : forall (k : nat) n b m,
  - 2 ^ 63 <= n < 2 ^ 63 -> 1 <= n - Z.of_nat k ->
  m (b - 1) = Word (wrap n) ->
  eventually (Directthreaded3.step Directthreaded3.fib_code)
    (fun s' => exists m',
       s' = mkInterp (CodePtr 0) (StackPtr (b + 4 * Z.of_nat k + 3))
              (StackPtr (b + 4 * Z.of_nat k)) m' /\
       m' (b - 1 + 4 * Z.of_nat k) = Word (wrap (n - Z.of_nat k)))
    (mkInterp (CodePtr 0) (StackPtr (b + 3)) (StackPtr b) m).
Proof.
  induction k as [|k IH]; intros n b m Hn Hk Hm.
  - apply eventually_now. exists m. split.
    + f_equal; f_equal; lia.
    + replace (b - 1 + 4 * Z.of_nat 0) with (b - 1) by lia.
      rewrite Hm. do 2 f_equal. lia.
  - do 3 run_step. decide_lt. do 5 run_step.
    match goal with
    | |- eventually _ _ {| ip := _; sp := StackPtr ?e; bp := _; stack := ?mm |} =>
        replace e with (b + 4 + 3) by lia;
        eapply eventually_bind;
        [ apply (IH (n - 1) (b + 4) mm);
          [ lia | lia | mem_simpl; try reflexivity; do 2 f_equal; lia ]
        | ]
    end.
    intros s' (m' & -> & Hm'). apply eventually_now. exists m'. split.
    + f_equal; f_equal; lia.
    + replace (b - 1 + 4 * Z.of_nat (S k))
        with (b + 4 - 1 + 4 * Z.of_nat k) by lia.
      rewrite Hm'. do 2 f_equal. lia.
Qed.

Lemma dt3_sp_within b n s :
  0 <= b -> b + Z.max 5 (4 * n + 2) <= STACK_SIZE ->
  sp_between b (b + Z.max 5 (4 * n + 2)) s -> sp_within STACK_SIZE s = true.
Proof.
  intros Hb Hcap (i & Hi & Hj). unfold sp_within. rewrite Hi.
  apply andb_true_intro. split; [apply Z.leb_le|apply Z.leb_le]; lia.
Qed.

(** The run inside the array: with [body_count n + 1] units of fuel it
    returns, with less it has not ended. *)
Lemma dt3_exact_within m n :
  - 2 ^ 63 <= n <= 255 ->
  forall fuel,
    run_within (Directthreaded3.step Directthreaded3.fib_code) STACK_SIZE fuel
       (Directthreaded3.setup m n)
    = if (body_count n <? fuel)%nat
      then Some (Returned (Word (wrap (f n)))) else None.
Proof.
  intros Hn.
  unfold run_within. cbn -[Directthreaded3.step execute_within].
  eapply counted_within_fuel.
  - apply (dt3_fib_counted (S (Z.to_nat n)) n 1); [lia|lia|].
    mem_simpl. reflexivity.
  - intros s Hs. apply (dt3_sp_within 1 n); [lia|unfold STACK_SIZE; lia|exact Hs].
  - intros [? ? ? ?] (Hi & Hs & Hb & Hv & Hf). cbn in Hi, Hs, Hb, Hv, Hf. subst.
    split; [reflexivity|]. exec1. reflexivity.
Qed.

(** directthreaded3.c executes exactly 21 f(n) - 15 instructions on an argument
    n <= 255, the outermost [RET] included, without leaving the
    [STACK_SIZE] words of the stack array: with that much fuel the run
    returns f(n) modulo 2^64, with less it has not ended. *)
Theorem dt3_instruction_count m n :
  - 2 ^ 63 <= n <= 255 ->
  Z.of_nat (S (body_count n)) = 21 * f n - 15 /\
  forall fuel,
    run_within (Directthreaded3.step Directthreaded3.fib_code) STACK_SIZE fuel
       (Directthreaded3.setup m n)
    = if (body_count n <? fuel)%nat
      then Some (Returned (Word (wrap (f n)))) else None.
Proof.
  intros Hn. split.
  - unfold body_count. pose proof (f_pos n). lia.
  - apply dt3_exact_within. exact Hn.
Qed.

Lemma dt3_instruction_count_witness :
  run_within (Directthreaded3.step Directthreaded3.fib_code) STACK_SIZE 153
    (Directthreaded3.setup zero_memory 5) = Some (Returned (Word 8)) /\
  run_within (Directthreaded3.step Directthreaded3.fib_code) STACK_SIZE 145
    (Directthreaded3.setup zero_memory 5) = None.
Proof.
  destruct (dt3_instruction_count zero_memory 5) as [_ H]; [lia|].
  split; apply H.
Defined.

(** The run of directthreaded3.c on n stays inside the [STACK_SIZE] words of the
    stack array exactly when n <= 255; for a larger n it pushes past the
    end of the array. *)
Theorem dt3_stack_capacity m n :
  - 2 ^ 63 <= n < 2 ^ 63 ->
  (exists fuel,
     run_within (Directthreaded3.step Directthreaded3.fib_code) STACK_SIZE fuel
       (Directthreaded3.setup m n)
     = Some (Returned (Word (wrap (f n))))) <->
  n <= 255.
Proof.
  intros Hn. split.
  - intros [fuel Hfuel].
    destruct (Z_le_gt_dec n 255) as [Hle|Hgt]; [exact Hle|exfalso].
    assert (Hout : eventually (Directthreaded3.step Directthreaded3.fib_code)
                     (fun s' => sp_within STACK_SIZE s' = false)
                     (mkInterp (CodePtr 0) (StackPtr (1 + 3))
                        (StackPtr 1)
                        (upd (upd (upd (upd m 0 (Word (wrap n))) 1 (Word 0)) 2 (Word 0)) 3 (Word 0)))).
    { eapply eventually_bind.
      - apply (dt3_descent 255%nat n 1); [lia|lia|].
        mem_simpl. reflexivity.
      - intros s' (m' & -> & Hm').
        do 1 run_step. apply eventually_now. reflexivity. }
    destruct Hout as (s' & [k Hk] & Hs').
    unfold run_within in Hfuel. cbn -[Directthreaded3.step execute_within] in Hfuel.
    rewrite (reaches_outside _ _ _ _ _ Hk Hs') in Hfuel. discriminate.
  - intros Hle. unfold run_within.
    cbn -[Directthreaded3.step execute_within].
    apply safely_within.
    eapply safely_bind.
    + eapply safely_weaken.
      * eapply counted_safely.
        apply (dt3_fib_counted (S (Z.to_nat n)) n 1); [lia|lia|].
        mem_simpl. reflexivity.
      * intros [? ? ? ?] (i & Hi & Hj). cbn in Hi. subst.
        unfold sp_within, STACK_SIZE. cbn.
        destruct (Z.leb_spec 0 i), (Z.leb_spec i 1024); try reflexivity; lia.
    + intros [? ? ? ?] (Hi & Hs & Hb & Hv & Hf). cbn in Hi, Hs, Hb, Hv, Hf. subst.
      apply safely_now. split; [reflexivity|]. exec1. reflexivity.
Qed.

Lemma dt3_stack_capacity_witness :
  exists fuel,
    run_within (Directthreaded3.step Directthreaded3.fib_code) STACK_SIZE fuel
      (Directthreaded3.setup zero_memory 5)
    = Some (Returned (Word 8)).
Proof.
  destruct (dt3_stack_capacity zero_memory 5) as [_ H]; [lia|].
  destruct (H ltac:(lia)) as [fuel Hfuel].
  exists fuel. exact Hfuel.
Defined.

(** ** directthreaded4.c: instructions executed and words of stack used *)

Lemma dt4_fib_counted : forall (k : nat) n b m,
  - 2 ^ 63 <= n < 2 ^ 63 -> n < Z.of_nat k ->
  m (b - 1) = Word (wrap n) ->
  counted (Directthreaded4.step Directthreaded4.fib_code)
    (sp_between b (b + Z.max 5 (4 * n + 2)))
    (at_ret 28 3 b m (wrap (f n))) (body_count n)
    (mkInterp (CodePtr 0) (StackPtr (b + 3)) (StackPtr b) m).
Proof.
  unfold sp_between.
  induction k as [|k IH]; intros n b m Hn Hk Hm;
    (destruct (Z_lt_le_dec n 2) as [Hlt|Hge]; [|try lia]).
  1, 2: rewrite body_count_base by lia;
    do 3 count_step; decide_lt; do 2 count_step; count_at_ret;
    rewrite f_base by lia; reflexivity.
  - rewrite body_count_rec by lia.
    do 3 count_step. decide_lt. do 5 count_step.
    count_ih IH (n - 1) (b + 4) 3.
    do 5 count_step.
    count_ih IH (n - 2) (b + 5) 3.
    do 3 count_step. count_at_ret. fib_sum n.
Qed.

(** The descent of the first recursive calls: from the entry of [fib] on n
    with frame base [b], the run comes to the entry of [fib] on n - k with
    frame base [b + 4 * k], as long as n - k >= 1. *)
Lemma dt4_descent : forall (k : nat) n b m,
  - 2 ^ 63 <= n < 2 ^ 63 -> 1 <= n - Z.of_nat k ->
  m (b - 1) = Word (wrap n) ->
  eventually (Directthreaded4.step Directthreaded4.fib_code)
    (fun s' => exists m',
       s' = mkInterp (CodePtr 0) (StackPtr (b + 4 * Z.of_nat k + 3))
              (StackPtr (b + 4 * Z.of_nat k)) m' /\
       m' (b - 1 + 4 * Z.of_nat k) = Word (wrap (n - Z.of_nat k)))
    (mkInterp (CodePtr 0) (StackPtr (b + 3)) (StackPtr b) m).
Proof.
  induction k as [|k IH]; intros n b m Hn Hk Hm.
  - apply eventually_now. exists m. split.
    + f_equal; f_equal; lia.
    + replace (b - 1 + 4 * Z.of_nat 0) with (b - 1) by lia.
      rewrite Hm. do 2 f_equal. lia.
  - do 3 run_step. decide_lt. do 5 run_step.
    match goal with
    | |- eventually _ _ {| ip := _; sp := StackPtr ?e; bp := _; stack := ?mm |} =>
        replace e with (b + 4 + 3) by lia;
        eapply eventually_bind;
        [ apply (IH (n - 1) (b + 4) mm);
          [ lia | lia | mem_simpl; try reflexivity; do 2 f_equal; lia ]
        | ]
    end.
    intros s' (m' & -> & Hm'). apply eventually_now. exists m'. split.
    + f_equal; f_equal; lia.
    + replace (b - 1 + 4 * Z.of_nat (S k))
        with (b + 4 - 1 + 4 * Z.of_nat k) by lia.
      rewrite Hm'. do 2 f_equal. lia.
Qed.

Lemma dt4_sp_within b n s :
  0 <= b -> b + Z.max 5 (4 * n + 2) <= STACK_SIZE ->
  sp_between b (b + Z.max 5 (4 * n + 2)) s -> sp_within STACK_SIZE s = true.
Proof.
  intros Hb Hcap (i & Hi & Hj). unfold sp_within. rewrite Hi.
  apply andb_true_intro. split; [apply Z.leb_le|apply Z.leb_le]; lia.
Qed.

(** The run inside the array: with [body_count n + 1] units of fuel it
    returns, with less it has not ended. *)
Lemma dt4_exact_within m n :
  - 2 ^ 63 <= n <= 255 ->
  forall fuel,
    run_within (Directthreaded4.step Directthreaded4.fib_code) STACK_SIZE fuel
       (Directthreaded4.setup m n)
    = if (body_count n <? fuel)%nat
      then Some (Returned (Word (wrap (f n)))) else None.
Proof.
  intros Hn.
  unfold run_within. cbn -[Directthreaded4.step execute_within].
  eapply counted_within_fuel.
  - apply (dt4_fib_counted (S (Z.to_nat n)) n 1); [lia|lia|].
    mem_simpl. reflexivity.
  - intros s Hs. apply (dt4_sp_within 1 n); [lia|unfold STACK_SIZE; lia|exact Hs].
  - intros [? ? ? ?] (Hi & Hs & Hb & Hv & Hf). cbn in Hi, Hs, Hb, Hv, Hf. subst.
    split; [reflexivity|]. exec1. reflexivity.
Qed.

(** directthreaded4.c executes exactly 21 f(n) - 15 instructions on an argument
    n <= 255, the outermost [RET] included, without leaving the
    [STACK_SIZE] words of the stack array: with that much fuel the run
    returns f(n) modulo 2^64, with less it has not ended. *)
Theorem dt4_instruction_count m n :
  - 2 ^ 63 <= n <= 255 ->
  Z.of_nat (S (body_count n)) = 21 * f n - 15 /\
  forall fuel,
    run_within (Directthreaded4.step Directthreaded4.fib_code) STACK_SIZE fuel
       (Directthreaded4.setup m n)
    = if (body_count n <? fuel)%nat
      then Some (Returned (Word (wrap (f n)))) else None.
Proof.
  intros Hn. split.
  - unfold body_count. pose proof (f_pos n). lia.
  - apply dt4_exact_within. exact Hn.
Qed.

Lemma dt4_instruction_count_witness :
  run_within (Directthreaded4.step Directthreaded4.fib_code) STACK_SIZE 153
    (Directthreaded4.setup zero_memory 5) = Some (Returned (Word 8)) /\
  run_within (Directthreaded4.step Directthreaded4.fib_code) STACK_SIZE 145
    (Directthreaded4.setup zero_memory 5) = None.
Proof.
  destruct (dt4_instruction_count zero_memory 5) as [_ H]; [lia|].
  split; apply H.
Defined.

(** The run of directthreaded4.c on n stays inside the [STACK_SIZE] words of the
    stack array exactly when n <= 255; for a larger n it pushes past the
    end of the array. *)
Theorem dt4_stack_capacity m n :
  - 2 ^ 63 <= n < 2 ^ 63 ->
  (exists fuel,
     run_within (Directthreaded4.step Directthreaded4.fib_code) STACK_SIZE fuel
       (Directthreaded4.setup m n)
     = Some (Returned (Word (wrap (f n))))) <->
  n <= 255.
Proof.
  intros Hn. split.
  - intros [fuel Hfuel].
    destruct (Z_le_gt_dec n 255) as [Hle|Hgt]; [exact Hle|exfalso].
    assert (Hout : eventually (Directthreaded4.step Directthreaded4.fib_code)
                     (fun s' => sp_within STACK_SIZE s' = false)
                     (mkInterp (CodePtr 0) (StackPtr (1 + 3))
                        (StackPtr 1)
                        (upd (upd (upd (upd m 0 (Word (wrap n))) 1 (Word 0)) 2 (Word 0)) 3 (Word 0)))).
    { eapply eventually_bind.
      - apply (dt4_descent 255%nat n 1); [lia|lia|].
        mem_simpl. reflexivity.
      - intros s' (m' & -> & Hm').
        do 1 run_step. apply eventually_now. reflexivity. }
    destruct Hout as (s' & [k Hk] & Hs').
    unfold run_within in Hfuel. cbn -[Directthreaded4.step execute_within] in Hfuel.
    rewrite (reaches_outside _ _ _ _ _ Hk Hs') in Hfuel. discriminate.
  - intros Hle. unfold run_within.
    cbn -[Directthreaded4.step execute_within].
    apply safely_within.
    eapply safely_bind.
    + eapply safely_weaken.
      * eapply counted_safely.
        apply (dt4_fib_counted (S (Z.to_nat n)) n 1); [lia|lia|].
        mem_simpl. reflexivity.
      * intros [? ? ? ?] (i & Hi & Hj). cbn in Hi. subst.
        unfold sp_within, STACK_SIZE. cbn.
        destruct (Z.leb_spec 0 i), (Z.leb_spec i 1024); try reflexivity; lia.
    + intros [? ? ? ?] (Hi & Hs & Hb & Hv & Hf). cbn in Hi, Hs, Hb, Hv, Hf. subst.
      apply safely_now. split; [reflexivity|]. exec1. reflexivity.
Qed.

Lemma dt4_stack_capacity_witness :
  exists fuel,
    run_within (Directthreaded4.step Directthreaded4.fib_code) STACK_SIZE fuel
      (Directthreaded4.setup zero_memory 5)
    = Some (Returned (Word 8)).
Proof.
  destruct (dt4_stack_capacity zero_memory 5) as [_ H]; [lia|].
  destruct (H ltac:(lia)) as [fuel Hfuel].
  exists fuel. exact Hfuel.
Defined.

(** ** comboinstructions.c: instructions executed and words of stack used *)

Lemma combo_fib_counted : forall (k : nat) n b m,
  - 2 ^ 63 <= n < 2 ^ 63 -> n < Z.of_nat k ->
  m (b - 1) = Word (wrap n) ->
  counted (Comboinstructions.step Comboinstructions.fib_code)
    (sp_between b (b + Z.max 5 (4 * n + 2)))
    (at_ret 25 3 b m (wrap (f n))) (fused_body_count n)
    (mkInterp (CodePtr 0) (StackPtr (b + 3)) (StackPtr b) m).
Proof.
  unfold sp_between.
  induction k as [|k IH]; intros n b m Hn Hk Hm;
    (destruct (Z_lt_le_dec n 2) as [Hlt|Hge]; [|try lia]).
  1, 2: rewrite fused_body_count_base by lia;
    do 3 count_step; decide_lt; do 2 count_step; count_at_ret;
    rewrite f_base by lia; reflexivity.
  - rewrite fused_body_count_rec by lia.
    do 3 count_step. decide_lt. do 4 count_step.
    count_ih IH (n - 1) (b + 4) 3.
    do 5 count_step.
    count_ih IH (n - 2) (b + 5) 3.
    do 3 count_step. count_at_ret. fib_sum n.
Qed.

(** The descent of the first recursive calls: from the entry of [fib] on n
    with frame base [b], the run comes to the entry of [fib] on n - k with
    frame base [b + 4 * k], as long as n - k >= 1. *)
Lemma combo_descent : forall (k : nat) n b m,
  - 2 ^ 63 <= n < 2 ^ 63 -> 1 <= n - Z.of_nat k ->
  m (b - 1) = Word (wrap n) ->
  eventually (Comboinstructions.step Comboinstructions.fib_code)
    (fun s' => exists m',
       s' = mkInterp (CodePtr 0) (StackPtr (b + 4 * Z.of_nat k + 3))
              (StackPtr (b + 4 * Z.of_nat k)) m' /\
       m' (b - 1 + 4 * Z.of_nat k) = Word (wrap (n - Z.of_nat k)))
    (mkInterp (CodePtr 0) (StackPtr (b + 3)) (StackPtr b) m).
Proof.
  induction k as [|k IH]; intros n b m Hn Hk Hm.
  - apply eventually_now. exists m. split.
    + f_equal; f_equal; lia.
    + replace (b - 1 + 4 * Z.of_nat 0) with (b - 1) by lia.
      rewrite Hm. do 2 f_equal. lia.
  - do 3 run_step. decide_lt. do 4 run_step.
    match goal with
    | |- eventually _ _ {| ip := _; sp := StackPtr ?e; bp := _; stack := ?mm |} =>
        replace e with (b + 4 + 3) by lia;
        eapply eventually_bind;
        [ apply (IH (n - 1) (b + 4) mm);
          [ lia | lia | mem_simpl; try reflexivity; do 2 f_equal; lia ]
        | ]
    end.
    intros s' (m' & -> & Hm'). apply eventually_now. exists m'. split.
    + f_equal; f_equal; lia.
    + replace (b - 1 + 4 * Z.of_nat (S k))
        with (b + 4 - 1 + 4 * Z.of_nat k) by lia.
      rewrite Hm'. do 2 f_equal. lia.
Qed.

Lemma combo_sp_within b n s :
  0 <= b -> b + Z.max 5 (4 * n + 2) <= STACK_SIZE ->
  sp_between b (b + Z.max 5 (4 * n + 2)) s -> sp_within STACK_SIZE s = true.
Proof.
  intros Hb Hcap (i & Hi & Hj). unfold sp_within. rewrite Hi.
  apply andb_true_intro. split; [apply Z.leb_le|apply Z.leb_le]; lia.
Qed.

(** The run inside the array: with [fused_body_count n + 1] units of fuel it
    returns, with less it has not ended. *)
Lemma combo_exact_within m n :
  - 2 ^ 63 <= n <= 255 ->
  forall fuel,
    run_within (Comboinstructions.step Comboinstructions.fib_code) STACK_SIZE fuel
       (Comboinstructions.setup m n)
    = if (fused_body_count n <? fuel)%nat
      then Some (Returned (Word (wrap (f n)))) else None.
Proof.
  intros Hn.
  unfold run_within. cbn -[Comboinstructions.step execute_within].
  eapply counted_within_fuel.
  - apply (combo_fib_counted (S (Z.to_nat n)) n 1); [lia|lia|].
    mem_simpl. reflexivity.
  - intros s Hs. apply (combo_sp_within 1 n); [lia|unfold STACK_SIZE; lia|exact Hs].
  - intros [? ? ? ?] (Hi & Hs & Hb & Hv & Hf). cbn in Hi, Hs, Hb, Hv, Hf. subst.
    split; [reflexivity|]. exec1. reflexivity.
Qed.

(** comboinstructions.c executes exactly 20 f(n) - 14 instructions on an argument
    n <= 255, the outermost [RET] included, without leaving the
    [STACK_SIZE] words of the stack array: with that much fuel the run
    returns f(n) modulo 2^64, with less it has not ended. *)
Theorem combo_instruction_count m n :
  - 2 ^ 63 <= n <= 255 ->
  Z.of_nat (S (fused_body_count n)) = 20 * f n - 14 /\
  forall fuel,
    run_within (Comboinstructions.step Comboinstructions.fib_code) STACK_SIZE fuel
       (Comboinstructions.setup m n)
    = if (fused_body_count n <? fuel)%nat
      then Some (Returned (Word (wrap (f n)))) else None.
Proof.
  intros Hn. split.
  - unfold fused_body_count. pose proof (f_pos n). lia.
  - apply combo_exact_within. exact Hn.
Qed.

Lemma combo_instruction_count_witness :
  run_within (Comboinstructions.step Comboinstructions.fib_code) STACK_SIZE 146
    (Comboinstructions.setup zero_memory 5) = Some (Returned (Word 8)) /\
  run_within (Comboinstructions.step Comboinstructions.fib_code) STACK_SIZE 145
    (Comboinstructions.setup zero_memory 5) = None.
Proof.
  destruct (combo_instruction_count zero_memory 5) as [_ H]; [lia|].
  split; apply H.
Defined.

(** The run of comboinstructions.c on n stays inside the [STACK_SIZE] words of the
    stack array exactly when n <= 255; for a larger n it pushes past the
    end of the array. *)
Theorem combo_stack_capacity m n :
  - 2 ^ 63 <= n < 2 ^ 63 ->
  (exists fuel,
     run_within (Comboinstructions.step Comboinstructions.fib_code) STACK_SIZE fuel
       (Comboinstructions.setup m n)
     = Some (Returned (Word (wrap (f n))))) <->
  n <= 255.
Proof.
  intros Hn. split.
  - intros [fuel Hfuel].
    destruct (Z_le_gt_dec n 255) as [Hle|Hgt]; [exact Hle|exfalso].
    assert (Hout : eventually (Comboinstructions.step Comboinstructions.fib_code)
                     (fun s' => sp_within STACK_SIZE s' = false)
                     (mkInterp (CodePtr 0) (StackPtr (1 + 3))
                        (StackPtr 1)
                        (upd (upd (upd (upd m 0 (Word (wrap n))) 1 (Word 0)) 2 (Word 0)) 3 (Word 0)))).
    { eapply eventually_bind.
      - apply (combo_descent 255%nat n 1); [lia|lia|].
        mem_simpl. reflexivity.
      - intros s' (m' & -> & Hm').
        do 1 run_step. apply eventually_now. reflexivity. }
    destruct Hout as (s' & [k Hk] & Hs').
    unfold run_within in Hfuel. cbn -[Comboinstructions.step execute_within] in Hfuel.
    rewrite (reaches_outside _ _ _ _ _ Hk Hs') in Hfuel. discriminate.
  - intros Hle. unfold run_within.
    cbn -[Comboinstructions.step execute_within].
    apply safely_within.
    eapply safely_bind.
    + eapply safely_weaken.
      * eapply counted_safely.
        apply (combo_fib_counted (S (Z.to_nat n)) n 1); [lia|lia|].
        mem_simpl. reflexivity.
      * intros [? ? ? ?] (i & Hi & Hj). cbn in Hi. subst.
        unfold sp_within, STACK_SIZE. cbn.
        destruct (Z.leb_spec 0 i), (Z.leb_spec i 1024); try reflexivity; lia.
    + intros [? ? ? ?] (Hi & Hs & Hb & Hv & Hf). cbn in Hi, Hs, Hb, Hv, Hf. subst.
      apply safely_now. split; [reflexivity|]. exec1. reflexivity.
Qed.

Lemma combo_stack_capacity_witness :
  exists fuel,
    run_within (Comboinstructions.step Comboinstructions.fib_code) STACK_SIZE fuel
      (Comboinstructions.setup zero_memory 5)
    = Some (Returned (Word 8)).
Proof.
  destruct (combo_stack_capacity zero_memory 5) as [_ H]; [lia|].
  destruct (H ltac:(lia)) as [fuel Hfuel].
  exists fuel. exact Hfuel.
Defined.

(** ** Matched calls and returns *)
Section MatchedFacts.
Variable step : M unit.
Variable label_at : interpreter -> option opcode.



End MatchedFacts.







(** A run observed inside the array is a run. *)
Lemma run_within_run_from step cap fuel start h :
  run_within step cap fuel start = Some h -> run_from step fuel start = Some h.
Proof.
  destruct start as [[] s|h']; simpl; [|intros H; exact H].
  apply execute_within_loop.
Qed.

Lemma exact_within_returns step cap start k (r : halt) :
  (forall fuel,
     run_within step cap fuel start = if (k <? fuel)%nat then Some r else None) ->
  run_within step cap (S k) start = Some r.
Proof.
  intros H. rewrite H.
  replace (k <? S k)%nat with true by (symmetry; apply Nat.ltb_lt; lia).
  reflexivity.
Qed.

Lemma exact_within_unique step cap start k (r : halt) :
  (forall fuel,
     run_within step cap fuel start = if (k <? fuel)%nat then Some r else None) ->
  forall fuel h, run_from step fuel start = Some h -> h = r.
Proof.
  intros H fuel h Hh.
  pose proof (run_within_run_from _ _ _ _ _ (exact_within_returns _ _ _ _ _ H)) as Hr.
  exact (run_from_unique _ _ _ _ _ _ Hh Hr).
Qed.
(** * The claims *)

(** ** C2 *)

(** C2, as stated, fails at n = 93: the run of wordcode.c on the built-in
    code, which stays inside the stack array, returns the word
    1293530146158671551, which is f(93) reduced modulo 2^64, and no run
    returns f(93) = 19740274219868223167 itself. *)
Lemma C2_counterexample :
  (exists fuel,
     Wordcode.main_within fuel zero_memory 93
     = Some (Returned (Word 1293530146158671551))) /\
  f 93 = 19740274219868223167 /\
  ~ (exists fuel,
       Wordcode.main fuel zero_memory 93 = Some (Returned (Word (f 93)))).
Proof.
  assert (H93 : wrap (f 93) = 1293530146158671551)
    by (rewrite f_93; reflexivity).
  destruct (wc_fib_within_capacity zero_memory 93) as [fuel Hfuel]; [lia|].
  rewrite H93 in Hfuel.
  split; [exists fuel; exact Hfuel|]. split; [exact f_93|].
  intros [fuel' Hfuel'].
  apply wc_main_within_main in Hfuel.
  pose proof (run_from_unique _ _ _ _ _ _ Hfuel Hfuel') as E.
  rewrite f_93 in E. discriminate E.
Qed.

(** C2 (amended): for every argument n <= 340, read as a signed 64-bit
    integer, [execute] on the built-in bytecode of wordcode.c returns,
    without leaving the stack array, f(n) modulo 2^64, where f(n) = 1 if
    n < 2 else f(n-1) + f(n-2); this is f(n) itself for n <= 92, and
    f(0)=1, f(1)=1, f(2)=2, f(3)=3, f(4)=5, f(5)=8, f(10)=89,
    f(20)=10946. *)
Theorem C2_fib_result m n :
  - 2 ^ 63 <= n <= 340 ->
  (exists fuel,
     Wordcode.main_within fuel m n = Some (Returned (Word (wrap (f n))))) /\
  (forall fuel h, Wordcode.main fuel m n = Some h ->
                  h = Returned (Word (wrap (f n)))) /\
  (n <= 92 -> wrap (f n) = f n) /\
  (n < 2 -> f n = 1) /\
  (2 <= n -> f n = f (n - 1) + f (n - 2)) /\
  f 0 = 1 /\ f 1 = 1 /\ f 2 = 2 /\ f 3 = 3 /\ f 4 = 5 /\ f 5 = 8 /\
  f 10 = 89 /\ f 20 = 10946.
Proof.
  intros Hn.
  pose proof (wc_exact_within m n Hn) as Hrun.
  split.
  { exists (S (body_count n)). unfold Wordcode.main_within.
    apply exact_within_returns. exact Hrun. }
  split.
  { intros fuel h Hh.
    exact (exact_within_unique _ _ _ _ _ Hrun fuel h Hh). }
  split.
  { intros Hle. apply wrap_small. pose proof (f_bounds n Hle). lia. }
  split; [apply f_base|]. split; [apply f_rec|]. exact f_values.
Qed.

Lemma C2_fib_result_witness :
  exists fuel,
    Wordcode.main_within fuel zero_memory 20 = Some (Returned (Word 10946)).
Proof.
  destruct (C2_fib_result zero_memory 20) as [[fuel Hfuel] _]; [lia|].
  exists fuel. exact Hfuel.
Defined.

(** ** C10 *)

(** C10, as stated for every 64-bit argument, fails at n = 341: the
    recursion of the built-in program is 341 frames deep before the first
    base case, and the run of wordcode.c has, after 2721 instructions, [sp]
    at the end of the stack array; its next instruction pushes the literal
    2 into the word past the end.  No run on 341 reaches the outermost
    [RET] inside the array. *)
Lemma C10_counterexample :
  option_map sp
    (state_after (Wordcode.step Wordcode.fib_code) 2721
       (Wordcode.setup zero_memory 341)) = Some (StackPtr STACK_SIZE) /\
  option_map sp
    (state_after (Wordcode.step Wordcode.fib_code) 2722
       (Wordcode.setup zero_memory 341)) = Some (StackPtr (STACK_SIZE + 1)) /\
  option_map (fun s => stack s STACK_SIZE)
    (state_after (Wordcode.step Wordcode.fib_code) 2722
       (Wordcode.setup zero_memory 341)) = Some (Word 2) /\
  ~ (exists fuel h, Wordcode.main_within fuel zero_memory 341 = Some h).
Proof.
  split; [vm_compute; reflexivity|].
  split; [vm_compute; reflexivity|].
  split; [vm_compute; reflexivity|].
  intros (fuel & h & Hfuel).
  assert (Hout : eventually (Wordcode.step Wordcode.fib_code)
                   (fun s' => sp_within STACK_SIZE s' = false)
                   (mkInterp (CodePtr 0) (StackPtr (0 + 3)) (StackPtr 0)
                      (upd (upd (upd zero_memory 0 (Word 0)) 1 (Word 0)) 2
                         (Word (wrap 341))))).
  { eapply eventually_bind.
    - apply (wc_descent 340%nat 341 0); [lia|lia|].
      mem_simpl. reflexivity.
    - intros s' (m' & -> & Hm').
      do 2 run_step. apply eventually_now. reflexivity. }
  destruct Hout as (s' & [k Hk] & Hs').
  unfold Wordcode.main_within, run_within in Hfuel.
  cbn -[Wordcode.step execute_within] in Hfuel.
  rewrite (reaches_outside _ _ _ _ _ Hk Hs') in Hfuel. discriminate.
Qed.

(** C10 (amended): for every argument n <= 340 in the signed 64-bit range
    and every content of the stack array, the dispatch loop of wordcode.c
    on the built-in Fibonacci code ends at the outermost [RET], after
    exactly 21 f(n) - 15 instructions and without leaving the [STACK_SIZE]
    words of the array; for n < 2, negative values included, it does so
    within six instructions, by the base-case branch. *)
Theorem C10_fib_terminates m n :
  - 2 ^ 63 <= n <= 340 ->
  (forall fuel,
     Wordcode.main_within fuel m n
     = if (body_count n <? fuel)%nat
       then Some (Returned (Word (wrap (f n)))) else None) /\
  Z.of_nat (S (body_count n)) = 21 * f n - 15 /\
  (n < 2 -> Wordcode.main_within 6 m n = Some (Returned (Word 1))).
Proof.
  intros Hn. split; [|split].
  - apply wc_exact_within. exact Hn.
  - unfold body_count. pose proof (f_pos n). lia.
  - intros Hlt. unfold Wordcode.main_within.
    rewrite (wc_exact_within m n Hn).
    rewrite body_count_base, f_base by lia. reflexivity.
Qed.

Lemma C10_fib_terminates_witness :
  Wordcode.main_within 1853 zero_memory 10 = None /\
  Wordcode.main_within 1854 zero_memory 10 = Some (Returned (Word 89)) /\
  Wordcode.main_within 6 zero_memory (-7) = Some (Returned (Word 1)).
Proof.
  destruct (C10_fib_terminates zero_memory 10) as (H & _ & _); [lia|].
  destruct (C10_fib_terminates zero_memory (-7)) as (_ & _ & H'); [lia|].
  split; [rewrite H; reflexivity|].
  split; [rewrite H; reflexivity|apply H'; lia].
Defined.

(** ** C9 *)

(** C9, as stated, fails: [execute] of directthreaded2.c keeps its stack
    in a static array, which outlives the call.  The call [execute(5)] on a
    zeroed array returns 8 and leaves the array changed: word 4 holds 8
    where it held 0. *)
Lemma C9_counterexample :
  run_within (Directthreaded2.step Directthreaded2.fib_code) STACK_SIZE 1000
    (Directthreaded2.setup zero_memory 5) = Some (Returned (Word 8)) /\
  Directthreaded2.residue 1000 zero_memory 5 4 = Word 8 /\
  zero_memory 4 = Word 0.
Proof. repeat split; vm_compute; reflexivity. Qed.

(** C9 (amended): the static stack array of directthreaded2.c is state
    that survives a call of [execute], but the result does not depend on
    it: an earlier call [execute(a)], a <= 204, returns inside the array,
    and whatever the array holds when [execute] is entered, in particular
    the words that call has left, the run on an argument n <= 204 stays
    inside the array and ends after the same number of instructions with
    the same returned word. *)
Theorem C9_execute_deterministic m n a k :
  - 2 ^ 63 <= n <= 204 -> - 2 ^ 63 <= a <= 204 -> (body_count a < k)%nat ->
  let r := Returned (Word (wrap (f n))) in
  let m' := Directthreaded2.residue k m a in
  let inside fuel m0 x :=
    run_within (Directthreaded2.step Directthreaded2.fib_code) STACK_SIZE fuel
      (Directthreaded2.setup m0 x) in
  inside k m a = Some (Returned (Word (wrap (f a)))) /\
  (forall fuel,
     inside fuel m n = if (body_count n <? fuel)%nat then Some r else None) /\
  (forall fuel, inside fuel m' n = inside fuel m n) /\
  (forall fuel h, Directthreaded2.execute fuel m n = Some h -> h = r) /\
  (forall fuel h, Directthreaded2.execute fuel m' n = Some h -> h = r).
Proof.
  intros Hn Ha Hk r m' inside. unfold inside.
  pose proof (dt2_exact_within m n Hn) as H1.
  pose proof (dt2_exact_within m' n Hn) as H2.
  split.
  { rewrite (dt2_exact_within m a Ha).
    replace (body_count a <? k)%nat with true
      by (symmetry; apply Nat.ltb_lt; exact Hk).
    reflexivity. }
  split; [exact H1|].
  split; [intros fuel; rewrite H1, H2; reflexivity|].
  split; intros fuel h Hh.
  - exact (exact_within_unique _ _ _ _ _ H1 fuel h Hh).
  - exact (exact_within_unique _ _ _ _ _ H2 fuel h Hh).
Qed.

Lemma C9_execute_deterministic_witness :
  run_within (Directthreaded2.step Directthreaded2.fib_code) STACK_SIZE 1000
    (Directthreaded2.setup zero_memory 7) = Some (Returned (Word 21)) /\
  run_within (Directthreaded2.step Directthreaded2.fib_code) STACK_SIZE 153
    (Directthreaded2.setup (Directthreaded2.residue 1000 zero_memory 7) 5)
  = Some (Returned (Word 8)) /\
  run_within (Directthreaded2.step Directthreaded2.fib_code) STACK_SIZE 153
    (Directthreaded2.setup zero_memory 5) = Some (Returned (Word 8)).
Proof.
  destruct (C9_execute_deterministic zero_memory 5 7 1000)
    as (Ha & H1 & H2 & _); [lia|lia|vm_compute; lia|].
  split; [exact Ha|].
  split; [rewrite H2|]; rewrite H1; reflexivity.
Defined.

(** ** C1 *)

(** C1, as stated for every Program, fails: the built-in Program of
    handlercode2.c, for the argument 5, returns 8 under handlercode2.c and
    1 under the interpreter of directthreaded3.c, whose [LOAD 0] reads the
    saved base pointer and not the argument; under wordcode.c, whose
    [CALL] has one operand, the same words run into undefined behaviour.
    The failures differ as well: on a word that is no opcode wordcode.c
    aborts, and handlercode2.c and directthreaded3.c jump through it. *)
Lemma C1_counterexample :
  Handlercode2.run Handlercode2.fib_code 200 zero_memory 5
  = Some (Returned (Word 8)) /\
  Directthreaded3.run Handlercode2.fib_code 200 zero_memory 5
  = Some (Returned (Word 1)) /\
  Wordcode.run (Wordcode.assemble Handlercode2.fib_code) 200 zero_memory 5
  = Some Undefined /\
  Wordcode.run (Wordcode.assemble [Imm 9]) 200 zero_memory 5 = Some Aborted /\
  Handlercode2.run [Imm 9] 200 zero_memory 5 = Some Undefined /\
  Directthreaded3.run [Imm 9] 200 zero_memory 5 = Some Undefined.
Proof. repeat split; vm_compute; reflexivity. Qed.

(** C1 (amended): each of wordcode.c, handlercode2.c and directthreaded3.c
    runs the Fibonacci program in its own encoding, and for every argument
    n <= 204 in the signed 64-bit range, for which each of the three runs
    stays inside its stack array, and whatever the arrays hold, the three
    runs end after the same number of instructions with the same returned
    word, f(n) modulo 2^64; none of them ends in a failure. *)
Theorem C1_three_interpreters_agree m1 m2 m3 n :
  - 2 ^ 63 <= n <= 204 ->
  let r := Returned (Word (wrap (f n))) in
  let outcome fuel := if (body_count n <? fuel)%nat then Some r else None in
  (forall fuel, Wordcode.main_within fuel m1 n = outcome fuel) /\
  (forall fuel,
     run_within (Handlercode2.step Handlercode2.fib_code) STACK_SIZE fuel
       (Handlercode2.setup m2 n) = outcome fuel) /\
  (forall fuel,
     run_within (Directthreaded3.step Directthreaded3.fib_code) STACK_SIZE fuel
       (Directthreaded3.setup m3 n) = outcome fuel) /\
  (forall fuel1 fuel2 fuel3 h1 h2 h3,
     Wordcode.main fuel1 m1 n = Some h1 ->
     Handlercode2.main fuel2 m2 n = Some h2 ->
     Directthreaded3.execute fuel3 m3 n = Some h3 ->
     h1 = r /\ h2 = r /\ h3 = r).
Proof.
  intros Hn r outcome. unfold outcome.
  assert (H1 := wc_exact_within m1 n ltac:(lia)).
  assert (H2 := hc2_exact_within m2 n ltac:(lia)).
  assert (H3 := dt3_exact_within m3 n ltac:(lia)).
  split; [exact H1|]. split; [exact H2|]. split; [exact H3|].
  intros fuel1 fuel2 fuel3 h1 h2 h3 E1 E2 E3.
  split; [|split].
  - exact (exact_within_unique _ _ _ _ _ H1 fuel1 h1 E1).
  - exact (exact_within_unique _ _ _ _ _ H2 fuel2 h2 E2).
  - exact (exact_within_unique _ _ _ _ _ H3 fuel3 h3 E3).
Qed.

Lemma C1_three_interpreters_agree_witness :
  Wordcode.main_within 1869 zero_memory 10 = Some (Returned (Word 89)) /\
  run_within (Handlercode2.step Handlercode2.fib_code) STACK_SIZE 1869
    (Handlercode2.setup zero_memory 10) = Some (Returned (Word 89)) /\
  run_within (Directthreaded3.step Directthreaded3.fib_code) STACK_SIZE 1869
    (Directthreaded3.setup zero_memory 10) = Some (Returned (Word 89)).
Proof.
  destruct (C1_three_interpreters_agree zero_memory zero_memory zero_memory 10)
    as (H1 & H2 & H3 & _); [lia|].
  split; [rewrite H1; reflexivity|].
  split; [rewrite H2; reflexivity|rewrite H3; reflexivity].
Defined.

(** ** C3 *)

(** C3, as stated for every dispatch strategy, fails: wordcode.c returns 4
    for [LOAD 0; LIT 1; PRIM subtract; RET] on the argument 5, and aborts on
    the program with the two middle instructions replaced by a fused opcode,
    whatever tag outside its [enum] stands for it. *)
Lemma C3_counterexample :
  Wordcode.run [1; 0; 0; 1; 3; 1; 6] 10 zero_memory 5
  = Some (Returned (Word 4)) /\
  (forall sub1, Wordcode.decode sub1 = None ->
     Wordcode.run [1; 0; sub1; 6] 10 zero_memory 5 = Some Aborted).
Proof.
  split; [vm_compute; reflexivity|].
  intros sub1 Hsub1.
  unfold Wordcode.run. cbn -[Wordcode.step execute_loop].
  erewrite execute_loop_next by (exec1; reflexivity).
  apply execute_loop_halt.
  apply wc_invalid_opcode with (w := sub1); [lia|reflexivity|assumption].
Qed.

(** C3 (amended): the sources contain no fusion pass; the fused program
    is written by hand in comboinstructions.c, whose interpreter alone has
    [SUB1], and for every argument n <= 255 in the signed 64-bit range, for
    which the two runs stay inside their stack arrays, that interpreter and
    the unfused one of directthreaded4.c end with the same returned word,
    f(n) modulo 2^64. *)
Theorem C3_fused_agrees_with_unfused m1 m2 n :
  - 2 ^ 63 <= n <= 255 ->
  let r := Returned (Word (wrap (f n))) in
  (exists fuel,
     run_within (Comboinstructions.step Comboinstructions.fib_code) STACK_SIZE
       fuel (Comboinstructions.setup m1 n) = Some r) /\
  (exists fuel,
     run_within (Directthreaded4.step Directthreaded4.fib_code) STACK_SIZE
       fuel (Directthreaded4.setup m2 n) = Some r) /\
  (forall fuel1 fuel2 h1 h2,
     Comboinstructions.execute fuel1 m1 n = Some h1 ->
     Directthreaded4.execute fuel2 m2 n = Some h2 ->
     h1 = r /\ h2 = r).
Proof.
  intros Hn r.
  pose proof (combo_exact_within m1 n Hn) as H1.
  pose proof (dt4_exact_within m2 n Hn) as H2.
  split; [exists (S (fused_body_count n)); apply exact_within_returns; exact H1|].
  split; [exists (S (body_count n)); apply exact_within_returns; exact H2|].
  intros fuel1 fuel2 h1 h2 E1 E2. split.
  - exact (exact_within_unique _ _ _ _ _ H1 fuel1 h1 E1).
  - exact (exact_within_unique _ _ _ _ _ H2 fuel2 h2 E2).
Qed.

Lemma C3_fused_agrees_with_unfused_witness :
  (exists fuel,
     run_within (Comboinstructions.step Comboinstructions.fib_code) STACK_SIZE
       fuel (Comboinstructions.setup zero_memory 20)
     = Some (Returned (Word 10946))) /\
  (exists fuel,
     run_within (Directthreaded4.step Directthreaded4.fib_code) STACK_SIZE
       fuel (Directthreaded4.setup zero_memory 20)
     = Some (Returned (Word 10946))).
Proof.
  destruct (C3_fused_agrees_with_unfused zero_memory zero_memory 20)
    as (H1 & H2 & _); [lia|].
  split; [exact H1|exact H2].
Defined.

(** ** C7 *)

(** C7, as stated for the ids, fails: wordcode.c indexes [literals],
    [prim_handlers] and [functions] with the operand as it is; on [LIT 5],
    [PRIM 7] or [CALL 3] it reads outside the table, which is undefined
    behaviour and no [abort()]. *)
Lemma C7_counterexample :
  Wordcode.run [Wordcode.tag LIT; 5; Wordcode.tag RET] 10 zero_memory 0
  = Some Undefined /\
  Wordcode.run [Wordcode.tag PRIM; 7; Wordcode.tag RET] 10 zero_memory 0
  = Some Undefined /\
  Wordcode.run [Wordcode.tag CALL; 3; Wordcode.tag RET] 10 zero_memory 0
  = Some Undefined /\
  Some Undefined <> Some Aborted.
Proof. repeat split; try (vm_compute; reflexivity). discriminate. Qed.

(** C7 (amended): in wordcode.c an opcode word outside the seven known
    tags ends the run with [abort()]; the id of a [LIT], [PRIM] or [CALL] is
    not checked against its table, and an id past the end of the table is a
    read outside the table (undefined behaviour), not an abort. *)
Theorem C7_malformed_program program pc w p b m :
  0 <= pc ->
  nth_error program (Z.to_nat pc) = Some w ->
  let s := mkInterp (CodePtr pc) p b m in
  (Wordcode.decode w = None -> Wordcode.step program s = Halt Aborted) /\
  (forall o size id,
     Wordcode.decode w = Some o ->
     Wordcode.table_size o = Some size ->
     nth_error program (Z.to_nat (pc + 1)) = Some id ->
     size <= id ->
     Wordcode.step program s = Halt Undefined).
Proof.
  intros Hpc Hw s. split.
  - intros Hd. apply wc_invalid_opcode with (w := w); assumption.
  - intros o size id Hd Hsize Hid Hle.
    unfold Wordcode.step, bind, s.
    rewrite (wc_fetch _ _ _ _ _ _ Hpc Hw), Hd.
    destruct o; simpl in Hsize; inversion Hsize; subst size;
      cbv beta iota;
      rewrite (wc_fetch program (pc + 1) id) by (assumption || lia);
      cbv beta iota;
      rewrite index_outside by exact Hle; reflexivity.
Qed.

Lemma C7_malformed_program_witness :
  Wordcode.step [Wordcode.tag LOAD; 0; 9; Wordcode.tag RET]
    (mkInterp (CodePtr 2) (StackPtr 4) (StackPtr 0) zero_memory)
  = Halt Aborted /\
  Wordcode.step [Wordcode.tag PRIM; 3]
    (mkInterp (CodePtr 0) (StackPtr 4) (StackPtr 0) zero_memory)
  = Halt Undefined.
Proof.
  split.
  - apply (C7_malformed_program [Wordcode.tag LOAD; 0; 9; Wordcode.tag RET] 2 9);
      [lia|reflexivity|reflexivity].
  - apply (C7_malformed_program [Wordcode.tag PRIM; 3] 0 3
             (StackPtr 4) (StackPtr 0) zero_memory ltac:(lia) eq_refl)
      with (o := PRIM) (size := 3) (id := 3); [reflexivity|reflexivity|reflexivity|lia].
Defined.

(** ** C5 *)

(** C5, as stated, fails on the [JMP 4] at word 26 of the built-in code:
    the new [ip] is word 30, the opcode word of the jump plus the offset;
    the first operand word (27) plus the offset is 31, and so is the [ip]
    after the operand (28) plus the offset minus the operand count (1). *)
Lemma C5_counterexample :
  nth_error Wordcode.fib_code 26 = Some (Wordcode.tag JMP) /\
  nth_error Wordcode.fib_code 27 = Some 4 /\
  Wordcode.step Wordcode.fib_code
    (mkInterp (CodePtr 26) (StackPtr 4) (StackPtr 0) zero_memory)
  = Next tt (mkInterp (CodePtr 30) (StackPtr 4) (StackPtr 0) zero_memory) /\
  CodePtr 30 <> CodePtr (27 + 4) /\
  CodePtr 30 <> CodePtr (28 + 4 - 1).
Proof.
  split; [reflexivity|]. split; [reflexivity|]. split; [reflexivity|].
  split; discriminate.
Qed.

(** C5 (amended): in wordcode.c a [JMP], and a [JT] whose popped word is
    non-zero, set [ip] to the [ip] after the operand plus the signed offset
    minus 2, the two words (opcode and operand) of the jump instruction:
    the target is the opcode word of the jump plus the offset.  A [JT] whose
    popped word is zero pops it as well and goes on after the operand. *)
Theorem C5_jump_target program pc offset i b m :
  0 <= pc ->
  nth_error program (Z.to_nat (pc + 1)) = Some offset ->
  let ip_after_operand := pc + 2 in
  let target := ip_after_operand + signed offset - 2 in
  target = pc + signed offset /\
  (nth_error program (Z.to_nat pc) = Some (Wordcode.tag JMP) ->
   Wordcode.step program (mkInterp (CodePtr pc) (StackPtr i) b m)
   = Next tt (mkInterp (CodePtr target) (StackPtr i) b m)) /\
  (nth_error program (Z.to_nat pc) = Some (Wordcode.tag JT) ->
   Wordcode.step program (mkInterp (CodePtr pc) (StackPtr i) b m)
   = Next tt (mkInterp
                (CodePtr (if truthy (m (i - 1)) then target else ip_after_operand))
                (StackPtr (i - 1)) b m)).
Proof.
  intros Hpc Hoff ipa target. split; [unfold target, ipa; lia|].
  split; intros Hop; unfold Wordcode.step, bind.
  - rewrite (wc_fetch _ _ _ _ _ _ Hpc Hop). cbn [Wordcode.decode Wordcode.tag].
    cbv beta iota.
    rewrite (wc_fetch program (pc + 1) offset) by (assumption || lia).
    cbn. do 3 f_equal. unfold target, ipa. lia.
  - rewrite (wc_fetch _ _ _ _ _ _ Hpc Hop). cbn [Wordcode.decode Wordcode.tag].
    cbv beta iota.
    rewrite (wc_fetch program (pc + 1) offset) by (assumption || lia).
    cbn. replace (i + -1) with (i - 1) by lia.
    destruct (truthy (m (i - 1))); cbn; do 3 f_equal; unfold target, ipa; lia.
Qed.

Lemma C5_jump_target_witness :
  Wordcode.step Wordcode.fib_code
    (mkInterp (CodePtr 6) (StackPtr 5) (StackPtr 0)
       (upd zero_memory 4 (Word 1)))
  = Next tt (mkInterp (CodePtr 28) (StackPtr 4) (StackPtr 0)
               (upd zero_memory 4 (Word 1))).
Proof.
  destruct (C5_jump_target Wordcode.fib_code 6 22 5 (StackPtr 0)
              (upd zero_memory 4 (Word 1))) as (_ & _ & H);
    [lia|reflexivity|].
  exact (H eq_refl).
Defined.

(** ** C6 *)

(** C6, as stated for wordcode.c, fails: its [push_frame] stores two
    control words (old bp, old ip) and leaves [sp] at [bp + 2], and its
    [pop_frame] resets [sp] to [bp + 2] and consumes those two. *)
Lemma C6_counterexample :
  Wordcode.push_frame
    (mkInterp (CodePtr 16) (StackPtr 3) (StackPtr 0) zero_memory)
  = Next tt (mkInterp (CodePtr 16) (StackPtr 5) (StackPtr 3)
               (upd (upd zero_memory 3 (StackPtr 0)) 4 (CodePtr 16))) /\
  StackPtr 5 <> StackPtr (3 + 3) /\
  Wordcode.pop_frame
    (mkInterp (CodePtr 30) (StackPtr 9) (StackPtr 3)
       (upd (upd (upd zero_memory 3 (StackPtr 0)) 4 (CodePtr 16)) 5 (Word 7)))
  = Next tt (mkInterp (CodePtr 16) (StackPtr 3) (StackPtr 0)
       (upd (upd (upd zero_memory 3 (StackPtr 0)) 4 (CodePtr 16)) 5 (Word 7))).
Proof.
  split; [reflexivity|]. split; [discriminate|reflexivity].
Qed.

(** C6 (amended): in handlercode2.c (and the direct-threaded files)
    [push_frame] stores exactly three control words at the new [bp] (old bp,
    old ip, argument count), whatever the stack holds, and leaves [sp] at
    [bp + 3]; [pop_frame], from any [sp], resets [sp] to [bp + 3], consumes
    those three and discards the recorded number of argument words, so that
    a frame pushed and popped, whatever has been pushed above it in
    between, gives back [bp] and [ip]; in wordcode.c the frame has the two
    control words old bp and old ip, and [pop_frame] resets [sp] to
    [bp + 2] and consumes those two. *)
Theorem C6_frame_push_pop i p b m argc t i' m' :
  push_frame argc (mkInterp i (StackPtr p) b m)
  = Next tt (mkInterp i (StackPtr (p + 3)) (StackPtr p)
               (upd (upd (upd m p b) (p + 1) i) (p + 2) (Word argc))) /\
  (m (p + 2) = Word argc ->
   pop_frame (mkInterp i t (StackPtr p) m)
   = Next tt (mkInterp (m (p + 1)) (StackPtr (p - argc)) (m p) m)) /\
  ((forall j, p <= j < p + 3 ->
      m' j = upd (upd (upd m p b) (p + 1) i) (p + 2) (Word argc) j) ->
   pop_frame (mkInterp i' t (StackPtr p) m')
   = Next tt (mkInterp i (StackPtr (p - argc)) b m')) /\
  Wordcode.push_frame (mkInterp i (StackPtr p) b m)
  = Next tt (mkInterp i (StackPtr (p + 2)) (StackPtr p)
               (upd (upd m p b) (p + 1) i)) /\
  Wordcode.pop_frame (mkInterp i t (StackPtr p) m)
  = Next tt (mkInterp (m (p + 1)) (StackPtr p) (m p) m).
Proof.
  assert (Hpop : forall i0 m0 a,
            m0 (p + 2) = Word a ->
            pop_frame (mkInterp i0 t (StackPtr p) m0)
            = Next tt (mkInterp (m0 (p + 1)) (StackPtr (p - a)) (m0 p) m0)).
  { intros i0 m0 a Ha. cbn.
    replace (p + 3 + -1) with (p + 2) by lia. rewrite Ha. cbn.
    replace (p + 2 + -1) with (p + 1) by lia.
    replace (p + 1 + -1) with p by lia.
    replace (p + - a) with (p - a) by lia. reflexivity. }
  split.
  { cbn. replace (p + 1 + 1) with (p + 2) by lia.
    replace (p + 2 + 1) with (p + 3) by lia. reflexivity. }
  split; [apply Hpop|].
  split.
  { intros Hframe.
    rewrite (Hpop i' m' argc)
      by (rewrite Hframe by lia; rewrite upd_eq by lia; reflexivity).
    rewrite (Hframe (p + 1)) by lia. rewrite (Hframe p) by lia.
    rewrite upd_other, upd_eq by lia.
    rewrite !upd_other, upd_eq by lia. reflexivity. }
  split.
  { cbn. replace (p + 1 + 1) with (p + 2) by lia. reflexivity. }
  cbn. replace (p + 2 + -1) with (p + 1) by lia.
  replace (p + 1 + -1) with p by lia. reflexivity.
Qed.

Lemma C6_frame_push_pop_witness :
  push_frame 1 (mkInterp (CodePtr 17) (StackPtr 5) (StackPtr 0) zero_memory)
  = Next tt
      (mkInterp (CodePtr 17) (StackPtr (5 + 3)) (StackPtr 5)
         (upd (upd (upd zero_memory 5 (StackPtr 0)) (5 + 1) (CodePtr 17))
            (5 + 2) (Word 1))) /\
  pop_frame
    (mkInterp (CodePtr 32) (StackPtr 11) (StackPtr 5)
       (upd (upd (upd (upd zero_memory 5 (StackPtr 0)) 6 (CodePtr 17)) 7 (Word 1))
          8 (Word 3)))
  = Next tt
      (mkInterp (CodePtr 17) (StackPtr (5 - 1)) (StackPtr 0)
         (upd (upd (upd (upd zero_memory 5 (StackPtr 0)) 6 (CodePtr 17)) 7 (Word 1))
            8 (Word 3))).
Proof.
  destruct (C6_frame_push_pop (CodePtr 17) 5 (StackPtr 0) zero_memory 1
              (StackPtr 11) (CodePtr 32)
              (upd (upd (upd (upd zero_memory 5 (StackPtr 0)) 6 (CodePtr 17))
                      7 (Word 1)) 8 (Word 3)))
    as (Hpush & _ & Hpop & _).
  split; [exact Hpush|].
  apply Hpop. intros j Hj.
  assert (E : j = 5 \/ j = 6 \/ j = 7) by lia.
  destruct E as [-> | [-> | ->]]; reflexivity.
Defined.

(** ** C8 *)

(** C8: [push] and [pop] move [sp] and access the word it designates
    whatever the index is, inside the [STACK_SIZE] words of the array or
    not; and the run of wordcode.c on the argument 400 has, after 2721
    instructions, [sp] at the end of the array, and its next instruction
    ([LIT 0]) pushes the literal 2 into the word past the end, and the run
    goes on. *)
Theorem C8_stack_unchecked :
  (forall v i p b m,
     push v (mkInterp p (StackPtr i) b m)
     = Next tt (mkInterp p (StackPtr (i + 1)) b (upd m i v))) /\
  (forall i p b m,
     pop (mkInterp p (StackPtr i) b m)
     = Next (m (i - 1)) (mkInterp p (StackPtr (i - 1)) b m)) /\
  in_capacity STACK_SIZE = false /\
  in_capacity (-1) = false /\
  (exists k : nat,
     let start := Wordcode.setup zero_memory 400 in
     let step := Wordcode.step Wordcode.fib_code in
     option_map sp (state_after step k start) = Some (StackPtr STACK_SIZE) /\
     option_map sp (state_after step (S k) start)
     = Some (StackPtr (STACK_SIZE + 1)) /\
     option_map (fun s => stack s STACK_SIZE) (state_after step k start)
     = Some (Word 0) /\
     option_map (fun s => stack s STACK_SIZE) (state_after step (S k) start)
     = Some (Word 2) /\
     option_map sp (state_after step (k + 1000) start) <> None).
Proof.
  split; [intros; reflexivity|].
  split.
  { intros. cbn. replace (i + -1) with (i - 1) by lia. reflexivity. }
  split; [reflexivity|]. split; [reflexivity|].
  exists 2721%nat. cbv zeta.
  repeat split; try (vm_compute; reflexivity).
  vm_compute. discriminate.
Qed.

(** ** C4 *)




(** * Further properties of the interpreters *)

(** ** The fused instruction *)

(** Fusion and the number of instructions: on every argument n <= 255,
    for which the two runs stay inside the stack array, the program of
    comboinstructions.c executes f(n) - 1 instructions fewer than the
    unfused program of directthreaded4.c, one for every call of [fib] that
    is not a base case. *)
Theorem fusion_saves_instructions m1 m2 n :
  - 2 ^ 63 <= n <= 255 ->
  Z.of_nat (S (body_count n)) - Z.of_nat (S (fused_body_count n)) = f n - 1 /\
  (forall fuel,
     run_within (Directthreaded4.step Directthreaded4.fib_code) STACK_SIZE fuel
       (Directthreaded4.setup m1 n)
     = if (body_count n <? fuel)%nat
       then Some (Returned (Word (wrap (f n)))) else None) /\
  (forall fuel,
     run_within (Comboinstructions.step Comboinstructions.fib_code) STACK_SIZE
       fuel (Comboinstructions.setup m2 n)
     = if (fused_body_count n <? fuel)%nat
       then Some (Returned (Word (wrap (f n)))) else None).
Proof.
  intros Hn. split; [|split].
  - unfold body_count, fused_body_count. pose proof (f_pos n). lia.
  - apply dt4_exact_within. exact Hn.
  - apply combo_exact_within. exact Hn.
Qed.

Lemma fusion_saves_instructions_witness :
  run_within (Directthreaded4.step Directthreaded4.fib_code) STACK_SIZE 152
    (Directthreaded4.setup zero_memory 5) = None /\
  run_within (Directthreaded4.step Directthreaded4.fib_code) STACK_SIZE 153
    (Directthreaded4.setup zero_memory 5) = Some (Returned (Word 8)) /\
  run_within (Comboinstructions.step Comboinstructions.fib_code) STACK_SIZE 145
    (Comboinstructions.setup zero_memory 5) = None /\
  run_within (Comboinstructions.step Comboinstructions.fib_code) STACK_SIZE 146
    (Comboinstructions.setup zero_memory 5) = Some (Returned (Word 8)).
Proof.
  destruct (fusion_saves_instructions zero_memory zero_memory 5)
    as (_ & H4 & Hc); [lia|].
  repeat split; (apply H4 || apply Hc).
Defined.

(** Symbolic execution on a code vector known by some of its words. *)
Ltac fetch_simpl :=
  repeat match goal with
  | H : nth_error ?p (Z.to_nat ?i) = _ |- context [nth_error ?p (Z.to_nat ?j)] =>
      first [ rewrite H
            | replace (Z.to_nat j) with (Z.to_nat i) by (f_equal; lia);
              rewrite H ]
  | |- context [0 <=? ?i] =>
      replace (0 <=? i) with true by (symmetry; apply Z.leb_le; lia)
  end.

Ltac exec_any :=
  repeat (progress (cbn; closed_eval; fetch_simpl; mem_simpl; num_simpl)).

Lemma wrap_signed_shift w c : wrap (signed w + c) = wrap (w + c).
Proof.
  unfold signed, wrap. destruct (w <? 2 ^ 63); [reflexivity|].
  replace (w - 2 ^ 64 + c) with (w + c + (-1) * 2 ^ 64) by lia.
  apply Z.mod_add. lia.
Qed.

Lemma wrap_wrap_shift x c : wrap (wrap x + c) = wrap (x + c).
Proof.
  unfold wrap. rewrite Z.add_mod_idemp_l by lia. reflexivity.
Qed.

(** [SUB1] does what [CONST_1; PRIM subtract] does: from the same stack
    the two leave the same [sp], [bp] and words, up to the word at [sp] in
    which the unfused sequence has pushed its constant. *)
Theorem sub1_is_const1_subtract program pc program' pc' i b m a :
  0 <= pc -> 0 <= pc' ->
  nth_error program (Z.to_nat pc) = Some (Op Comboinstructions.L_CONST_1) ->
  nth_error program (Z.to_nat (pc + 1)) = Some (Op Comboinstructions.L_PRIM) ->
  nth_error program (Z.to_nat (pc + 2)) = Some (Imm 1) ->
  nth_error program' (Z.to_nat pc') = Some (Op Comboinstructions.L_SUB1) ->
  m (i - 1) = Word a ->
  exists s2 s1,
    steps (Comboinstructions.step program) 2
      (mkInterp (CodePtr pc) (StackPtr i) b m) = Next tt s2 /\
    Comboinstructions.step program' (mkInterp (CodePtr pc') (StackPtr i) b m)
    = Next tt s1 /\
    ip s2 = CodePtr (pc + 3) /\ ip s1 = CodePtr (pc' + 1) /\
    sp s2 = StackPtr i /\ sp s1 = StackPtr i /\
    bp s2 = b /\ bp s1 = b /\
    stack s1 (i - 1) = Word (wrap (signed a - 1)) /\
    (forall j, j <> i -> stack s2 j = stack s1 j) /\
    (forall j, j <> i - 1 -> stack s1 j = m j).
Proof.
  intros Hpc Hpc' H0 H1 H2 H' Ha.
  eexists; eexists. split; [|split].
  - unfold steps. exec_any. reflexivity.
  - exec_any. reflexivity.
  - cbn. repeat split; try (f_equal; lia).
    + mem_simpl. reflexivity.
    + intros j Hj.
      destruct (Z.eq_dec j (i - 1)) as [->|Hne]; mem_simpl; reflexivity.
    + intros j Hj. mem_simpl. reflexivity.
Qed.

Lemma sub1_is_const1_subtract_witness :
  exists s2 s1,
    steps (Comboinstructions.step
             [Op Comboinstructions.L_CONST_1; Op Comboinstructions.L_PRIM; Imm 1])
      2 (mkInterp (CodePtr 0) (StackPtr 5) (StackPtr 1)
           (upd zero_memory 4 (Word 7))) = Next tt s2 /\
    Comboinstructions.step [Op Comboinstructions.L_SUB1]
      (mkInterp (CodePtr 0) (StackPtr 5) (StackPtr 1)
         (upd zero_memory 4 (Word 7))) = Next tt s1 /\
    stack s1 4 = Word 6 /\ stack s2 4 = Word 6.
Proof.
  destruct (sub1_is_const1_subtract
              [Op Comboinstructions.L_CONST_1; Op Comboinstructions.L_PRIM; Imm 1]
              0 [Op Comboinstructions.L_SUB1] 0 5 (StackPtr 1)
              (upd zero_memory 4 (Word 7)) 7)
    as (s2 & s1 & H2 & H1 & _ & _ & _ & _ & _ & _ & Hv & Hsame & _);
    try reflexivity; try lia.
  exists s2, s1. split; [exact H2|]. split; [exact H1|].
  split; [exact Hv|]. rewrite Hsame by lia. exact Hv.
Defined.

(** [SUB1; SUB1] does what [CONST_2; PRIM subtract] does, in the same
    sense. *)
Theorem sub1_sub1_is_const2_subtract program pc program' pc' i b m a :
  0 <= pc -> 0 <= pc' ->
  nth_error program (Z.to_nat pc) = Some (Op Comboinstructions.L_CONST_2) ->
  nth_error program (Z.to_nat (pc + 1)) = Some (Op Comboinstructions.L_PRIM) ->
  nth_error program (Z.to_nat (pc + 2)) = Some (Imm 1) ->
  nth_error program' (Z.to_nat pc') = Some (Op Comboinstructions.L_SUB1) ->
  nth_error program' (Z.to_nat (pc' + 1)) = Some (Op Comboinstructions.L_SUB1) ->
  m (i - 1) = Word a ->
  exists s2 s2',
    steps (Comboinstructions.step program) 2
      (mkInterp (CodePtr pc) (StackPtr i) b m) = Next tt s2 /\
    steps (Comboinstructions.step program') 2
      (mkInterp (CodePtr pc') (StackPtr i) b m) = Next tt s2' /\
    ip s2 = CodePtr (pc + 3) /\ ip s2' = CodePtr (pc' + 2) /\
    sp s2 = StackPtr i /\ sp s2' = StackPtr i /\
    bp s2 = b /\ bp s2' = b /\
    stack s2' (i - 1) = Word (wrap (signed a - 2)) /\
    (forall j, j <> i -> stack s2 j = stack s2' j) /\
    (forall j, j <> i - 1 -> stack s2' j = m j).
Proof.
  intros Hpc Hpc' H0 H1 H2 H' H'' Ha.
  assert (E : wrap (signed (wrap (signed a - 1)) - 1) = wrap (signed a - 2)).
  { replace (signed (wrap (signed a - 1)) - 1)
      with (signed (wrap (signed a - 1)) + -1) by lia.
    rewrite wrap_signed_shift, wrap_wrap_shift. f_equal. lia. }
  eexists; eexists. split; [|split].
  - unfold steps. exec_any. reflexivity.
  - unfold steps. exec_any. reflexivity.
  - cbn. repeat split; try (f_equal; lia).
    + rewrite upd_eq by lia. rewrite <- E. reflexivity.
    + intros j Hj.
      destruct (Z.eq_dec j (i - 1)) as [->|Hne].
      * rewrite !upd_eq by lia. rewrite <- E. reflexivity.
      * rewrite !upd_other by lia. reflexivity.
    + intros j Hj. mem_simpl. reflexivity.
Qed.

Lemma sub1_sub1_is_const2_subtract_witness :
  exists s2',
    steps (Comboinstructions.step
             [Op Comboinstructions.L_SUB1; Op Comboinstructions.L_SUB1])
      2 (mkInterp (CodePtr 0) (StackPtr 5) (StackPtr 1)
           (upd zero_memory 4 (Word 1))) = Next tt s2' /\
    stack s2' 4 = Word (2 ^ 64 - 1).
Proof.
  destruct (sub1_sub1_is_const2_subtract
              [Op Comboinstructions.L_CONST_2; Op Comboinstructions.L_PRIM; Imm 1]
              0 [Op Comboinstructions.L_SUB1; Op Comboinstructions.L_SUB1]
              0 5 (StackPtr 1) (upd zero_memory 4 (Word 1)) 1)
    as (s2 & s2' & _ & H2' & _ & _ & _ & _ & _ & _ & Hv & _);
    try reflexivity; try lia.
  exists s2'. split; [exact H2'|exact Hv].
Defined.

(** ** Arguments of a call *)

Lemma copied_words_small argc : 0 <= argc < 2 ^ 61 -> copied_words argc = argc.
Proof.
  intros H. unfold copied_words. rewrite wrap_small by lia.
  apply Z.div_mul. lia.
Qed.

(** directthreaded3.c: after [CALL fn argc], a [LOAD] with the offset
    [i - argc] at the entry of the function pushes the argument [i], the
    word [sp[i - argc]] of the caller; the header of the file has it: param
    0 is loaded with [LOAD -N], param 1 with [LOAD -N + 1]. *)
Theorem dt3_load_reads_argument program pc argc i bp0 sp0 m0 :
  0 <= pc ->
  nth_error program (Z.to_nat pc) = Some (Op CALL) ->
  nth_error program (Z.to_nat (pc + 1)) = Some (Imm 0) ->
  nth_error program (Z.to_nat (pc + 2)) = Some (Imm argc) ->
  nth_error program (Z.to_nat 0) = Some (Op LOAD) ->
  nth_error program (Z.to_nat 1) = Some (Imm (wrap (i - argc))) ->
  0 <= i < argc -> argc <= 2 ^ 63 ->
  exists s2,
    steps (Directthreaded3.step program) 2
      (mkInterp (CodePtr pc) (StackPtr sp0) bp0 m0) = Next tt s2 /\
    ip s2 = CodePtr 2 /\ bp s2 = StackPtr sp0 /\ sp s2 = StackPtr (sp0 + 4) /\
    stack s2 (sp0 + 3) = m0 (sp0 - argc + i) /\
    (forall j, j < sp0 -> stack s2 j = m0 j).
Proof.
  intros Hpc H0 H1 H2 He0 He1 Hi Hargc.
  assert (Hs : signed (wrap (i - argc)) = i - argc) by (apply signed_wrap; lia).
  destruct program as [|c0 [|c1 rest]]; try discriminate.
  cbn in He0, He1. inversion He0. inversion He1. subst c0 c1.
  eexists. split.
  - unfold steps. exec_any. try rewrite Hs. exec_any. reflexivity.
  - cbn. repeat split; try (f_equal; lia).
    + mem_simpl. f_equal. lia.
    + intros j Hj. mem_simpl. reflexivity.
Qed.

Lemma dt3_load_reads_argument_witness :
  exists s2,
    steps (Directthreaded3.step Directthreaded3.fib_code) 2
      (mkInterp (CodePtr 14) (StackPtr 5) (StackPtr 1)
         (upd zero_memory 4 (Word 6))) = Next tt s2 /\
    stack s2 8 = Word 6.
Proof.
  destruct (dt3_load_reads_argument Directthreaded3.fib_code 14 1 0
              (StackPtr 1) 5 (upd zero_memory 4 (Word 6)))
    as (s2 & H & _ & _ & _ & Hv & _); try reflexivity; try lia.
  exists s2. split; [exact H|exact Hv].
Defined.

(** handlercode2.c: [CALL fn argc] copies the [argc] argument words above
    the frame, and a [LOAD i] at the entry of the function pushes the
    argument [i]. *)
Theorem hc2_load_reads_argument program pc argc i bp0 sp0 m0 :
  0 <= pc ->
  nth_error program (Z.to_nat pc) = Some (Op CALL) ->
  nth_error program (Z.to_nat (pc + 1)) = Some (Imm 0) ->
  nth_error program (Z.to_nat (pc + 2)) = Some (Imm argc) ->
  nth_error program (Z.to_nat 0) = Some (Op LOAD) ->
  nth_error program (Z.to_nat 1) = Some (Imm i) ->
  0 <= i < argc -> argc < 2 ^ 61 ->
  exists s2,
    steps (Handlercode2.step program) 2
      (mkInterp (CodePtr pc) (StackPtr sp0) bp0 m0) = Next tt s2 /\
    ip s2 = CodePtr 2 /\ bp s2 = StackPtr sp0 /\ sp s2 = StackPtr (sp0 + 5) /\
    stack s2 (sp0 + 4) = m0 (sp0 - argc + i) /\
    (forall j, j < sp0 -> stack s2 j = m0 j).
Proof.
  intros Hpc H0 H1 H2 He0 He1 Hi Hargc.
  destruct program as [|c0 [|c1 rest]]; try discriminate.
  cbn in He0, He1. inversion He0. inversion He1. subst c0 c1.
  eexists. split.
  - unfold steps. exec_any. reflexivity.
  - cbn. rewrite copied_words_small by lia.
    repeat split; try (f_equal; lia).
    + mem_simpl. f_equal. lia.
    + intros j Hj. mem_simpl. reflexivity.
Qed.

Lemma hc2_load_reads_argument_witness :
  exists s2,
    steps (Handlercode2.step Handlercode2.fib_code) 2
      (mkInterp (CodePtr 14) (StackPtr 5) (StackPtr 0)
         (upd zero_memory 4 (Word 6))) = Next tt s2 /\
    stack s2 9 = Word 6.
Proof.
  destruct (hc2_load_reads_argument Handlercode2.fib_code 14 1 0
              (StackPtr 0) 5 (upd zero_memory 4 (Word 6)))
    as (s2 & H & _ & _ & _ & Hv & _); try reflexivity; try lia.
  exists s2. split; [exact H|exact Hv].
Defined.

(** ** Calls and returns in wordcode.c and handlercode2.c *)

(** wordcode.c: [CALL fn] pops the argument, pushes the two words of the
    frame where the argument was and the argument above them; and the [RET]
    that finds that frame in [bp], its two words as pushed, restores [bp]
    and [ip], and leaves [sp] where it was at the call, with the result in
    the place of the argument and no other word changed. *)
Theorem wc_call_ret_discipline program pc bp0 sp0 m0 :
  0 <= pc ->
  nth_error program (Z.to_nat pc) = Some (Wordcode.tag CALL) ->
  nth_error program (Z.to_nat (pc + 1)) = Some 0 ->
  let s0 := mkInterp (CodePtr pc) (StackPtr sp0) bp0 m0 in
  let s1 :=
    mkInterp (CodePtr 0) (StackPtr (sp0 + 2)) (StackPtr (sp0 - 1))
      (upd (upd (upd m0 (sp0 - 1) bp0) sp0 (CodePtr (pc + 2)))
         (sp0 + 1) (m0 (sp0 - 1))) in
  Wordcode.step program s0 = Next tt s1 /\
  forall s2 rp t,
    reaches (Wordcode.step program) s1 s2 ->
    0 <= rp -> nth_error program (Z.to_nat rp) = Some (Wordcode.tag RET) ->
    ip s2 = CodePtr rp -> bp s2 = StackPtr (sp0 - 1) -> sp s2 = StackPtr t ->
    (forall j, sp0 - 1 <= j < sp0 + 1 -> stack s2 j = stack s1 j) ->
    exists s3,
      Wordcode.step program s2 = Next tt s3 /\
      ip s3 = CodePtr (pc + 2) /\
      bp s3 = bp0 /\
      sp s3 = StackPtr sp0 /\
      stack s3 (sp0 - 1) = stack s2 (t - 1) /\
      (forall j, j <> sp0 - 1 -> stack s3 j = stack s2 j).
Proof.
  intros Hpc Hop Hid s0 s1. split.
  - unfold s0, s1. exec_any.
    replace (sp0 + -1) with (sp0 - 1) by lia.
    replace (sp0 - 1 + 1) with sp0 by lia.
    replace (pc + 1 + 1) with (pc + 2) by lia.
    replace (sp0 + 1 + 1) with (sp0 + 2) by lia.
    reflexivity.
  - intros [i2 p2 b2 m2] rp t _ Hrp Hret Hi Hb Hs Hframe.
    cbn in Hi, Hb, Hs, Hframe. subst i2 p2 b2.
    assert (H1 : m2 sp0 = CodePtr (pc + 2))
      by (rewrite Hframe by lia; rewrite upd_other, upd_eq by lia; reflexivity).
    assert (H0 : m2 (sp0 - 1) = bp0)
      by (rewrite Hframe by lia; rewrite !upd_other, upd_eq by lia; reflexivity).
    eexists. split.
    + unfold Wordcode.step, bind.
      rewrite (wc_fetch _ _ _ _ _ _ Hrp Hret).
      cbn.
      replace (sp0 - 1 + 2 + -1) with sp0 by lia. rewrite H1. cbn.
      replace (sp0 + -1) with (sp0 - 1) by lia.
      reflexivity.
    + cbn. split; [reflexivity|]. split; [exact H0|].
      split; [f_equal; lia|].
      split; [rewrite upd_eq by lia; f_equal; lia|].
      intros j Hj. rewrite upd_other by lia. reflexivity.
Qed.

Lemma wc_call_ret_discipline_witness :
  exists s2 s3,
    reaches (Wordcode.step Wordcode.fib_code)
      (mkInterp (CodePtr 0) (StackPtr 7) (StackPtr 4)
         (upd (upd (upd (upd zero_memory 4 (Word 1)) 4 (StackPtr 0))
                 5 (CodePtr 16)) 6 (Word 1)))
      s2 /\
    Wordcode.step Wordcode.fib_code s2 = Next tt s3 /\
    ip s3 = CodePtr 16 /\ bp s3 = StackPtr 0 /\ sp s3 = StackPtr 5 /\
    stack s3 4 = Word 1.
Proof.
  pose (s1 :=
    mkInterp (CodePtr 0) (StackPtr 7) (StackPtr 4)
      (upd (upd (upd (upd zero_memory 4 (Word 1)) 4 (StackPtr 0))
              5 (CodePtr 16)) 6 (Word 1))).
  destruct (wc_call_ret_discipline Wordcode.fib_code 14 (StackPtr 0) 5
              (upd zero_memory 4 (Word 1)))
    as [_ Hret]; try reflexivity; try lia.
  pose (s2 := match steps (Wordcode.step Wordcode.fib_code) 5 s1
              with Next _ s => s | Halt _ => s1 end).
  assert (Hreach : reaches (Wordcode.step Wordcode.fib_code) s1 s2)
    by (exists 5%nat; reflexivity).
  destruct (Hret s2 30 8 Hreach) as (s3 & Hstep & Hi & Hb & Hs & Hv & _);
    try reflexivity; try lia.
  { intros j Hj.
    assert (E : j = 4 \/ j = 5) by lia.
    destruct E as [-> | ->]; reflexivity. }
  exists s2, s3. split; [exact Hreach|]. split; [exact Hstep|].
  split; [exact Hi|]. split; [exact Hb|]. split; [exact Hs|].
  exact Hv.
Defined.

(** handlercode2.c: [CALL fn argc] pushes the three words of the frame at
    [sp], copies the arguments above them and reserves the locals; and the
    [RET] that finds that frame in [bp], its three words as pushed, restores
    [bp] and [ip], leaves [sp] at its value at the call minus [argc] plus
    one, with the result in the word below, and changes no other word. *)
Theorem hc2_call_ret_discipline program pc fn argc fr bp0 sp0 m0 :
  0 <= pc -> 0 <= fn ->
  nth_error program (Z.to_nat pc) = Some (Op CALL) ->
  nth_error program (Z.to_nat (pc + 1)) = Some (Imm fn) ->
  nth_error program (Z.to_nat (pc + 2)) = Some (Imm argc) ->
  nth_error Handlercode2.functions (Z.to_nat fn) = Some fr ->
  let s0 := mkInterp (CodePtr pc) (StackPtr sp0) bp0 m0 in
  let s1 :=
    mkInterp (code fr) (StackPtr (sp0 + 3 + frame_size fr)) (StackPtr sp0)
      (memcpy
         (upd (upd (upd m0 sp0 bp0) (sp0 + 1) (CodePtr (pc + 3)))
            (sp0 + 2) (Word argc))
         (sp0 + 3) (sp0 - argc) (copied_words argc)) in
  Handlercode2.step program s0 = Next tt s1 /\
  forall s2 rp t,
    reaches (Handlercode2.step program) s1 s2 ->
    0 <= rp -> nth_error program (Z.to_nat rp) = Some (Op RET) ->
    ip s2 = CodePtr rp -> bp s2 = StackPtr sp0 -> sp s2 = StackPtr t ->
    (forall j, sp0 <= j < sp0 + 3 -> stack s2 j = stack s1 j) ->
    exists s3,
      Handlercode2.step program s2 = Next tt s3 /\
      ip s3 = CodePtr (pc + 3) /\
      bp s3 = bp0 /\
      sp s3 = StackPtr (sp0 - argc + 1) /\
      stack s3 (sp0 - argc) = stack s2 (t - 1) /\
      (forall j, j <> sp0 - argc -> stack s3 j = stack s2 j).
Proof.
  intros Hpc Hfn Hop Hid Hargc Hfr s0 s1. split.
  - unfold s0, s1, Handlercode2.step, dispatch, bind.
    rewrite (fetch_cell_at _ _ _ _ _ _ Hpc Hop).
    cbn [Handlercode2.handler]. unfold execute_call, bind.
    rewrite (fetch_word_at program (pc + 1) fn) by (assumption || lia).
    rewrite (index_inside _ _ _ _ Hfn Hfr).
    rewrite (fetch_word_at program (pc + 1 + 1) argc)
      by (lia || (replace (pc + 1 + 1) with (pc + 2) by lia; assumption)).
    cbn.
    replace (pc + 1 + 1 + 1) with (pc + 3) by lia.
    replace (sp0 + 1 + 1) with (sp0 + 2) by lia.
    replace (sp0 + 2 + 1) with (sp0 + 3) by lia.
    replace (sp0 + - argc) with (sp0 - argc) by lia.
    reflexivity.
  - intros [i2 p2 b2 m2] rp t _ Hrp Hret Hi Hb Hs Hframe.
    cbn in Hi, Hb, Hs, Hframe. subst i2 p2 b2.
    assert (H2 : m2 (sp0 + 2) = Word argc)
      by (rewrite Hframe by lia; rewrite memcpy_outside by lia;
          rewrite upd_eq by lia; reflexivity).
    assert (H1 : m2 (sp0 + 1) = CodePtr (pc + 3))
      by (rewrite Hframe by lia; rewrite memcpy_outside by lia;
          rewrite upd_other, upd_eq by lia; reflexivity).
    assert (H0 : m2 sp0 = bp0)
      by (rewrite Hframe by lia; rewrite memcpy_outside by lia;
          rewrite !upd_other, upd_eq by lia; reflexivity).
    eexists. split.
    + unfold Handlercode2.step, dispatch, bind.
      rewrite (fetch_cell_at _ _ _ _ _ _ Hrp Hret).
      cbn.
      replace (sp0 + 3 + -1) with (sp0 + 2) by lia. rewrite H2. cbn.
      replace (sp0 + 2 + -1) with (sp0 + 1) by lia. rewrite H1. cbn.
      replace (sp0 + 1 + -1) with sp0 by lia.
      reflexivity.
    + cbn. split; [reflexivity|]. split; [exact H0|].
      split; [f_equal; lia|].
      split; [rewrite upd_eq by lia; f_equal; lia|].
      intros j Hj. rewrite upd_other by lia. reflexivity.
Qed.

Lemma hc2_call_ret_discipline_witness :
  exists s2 s3,
    reaches (Handlercode2.step Handlercode2.fib_code)
      (mkInterp (CodePtr 0) (StackPtr 9) (StackPtr 5)
         (memcpy
            (upd (upd (upd (upd zero_memory 4 (Word 1)) 5 (StackPtr 0))
                    6 (CodePtr 17)) 7 (Word 1))
            8 4 (copied_words 1)))
      s2 /\
    Handlercode2.step Handlercode2.fib_code s2 = Next tt s3 /\
    ip s3 = CodePtr 17 /\ bp s3 = StackPtr 0 /\ sp s3 = StackPtr 5 /\
    stack s3 4 = Word 1.
Proof.
  pose (s1 :=
    mkInterp (CodePtr 0) (StackPtr 9) (StackPtr 5)
      (memcpy
         (upd (upd (upd (upd zero_memory 4 (Word 1)) 5 (StackPtr 0))
                 6 (CodePtr 17)) 7 (Word 1))
         8 4 (copied_words 1))).
  destruct (hc2_call_ret_discipline Handlercode2.fib_code 14 0 1
              (mkFunction 1 (CodePtr 0)) (StackPtr 0) 5
              (upd zero_memory 4 (Word 1)))
    as [_ Hret]; try reflexivity; try lia.
  pose (s2 := match steps (Handlercode2.step Handlercode2.fib_code) 5 s1
              with Next _ s => s | Halt _ => s1 end).
  assert (Hreach : reaches (Handlercode2.step Handlercode2.fib_code) s1 s2)
    by (exists 5%nat; reflexivity).
  destruct (Hret s2 32 10 Hreach) as (s3 & Hstep & Hi & Hb & Hs & Hv & _);
    try reflexivity; try lia.
  { intros j Hj.
    assert (E : j = 5 \/ j = 6 \/ j = 7) by lia.
    destruct E as [-> | [-> | ->]]; reflexivity. }
  exists s2, s3. split; [exact Hreach|]. split; [exact Hstep|].
  split; [exact Hi|]. split; [exact Hb|]. split; [exact Hs|].
  exact Hv.
Defined.

(** ** The primitives *)



(** [add] undoes [subtract]: subtracting the top word from the word below
    it and adding it back leaves that word as it was, wrap-around included,
    and no word below it is touched. *)
Theorem add_undoes_subtract p i b m x y :
  0 <= x < 2 ^ 64 ->
  m (i - 2) = Word x -> m (i - 1) = Word y ->
  exists s',
    (subtract ;;; push (Word y) ;;; add) (mkInterp p (StackPtr i) b m)
    = Next tt s' /\
    sp s' = StackPtr (i - 1) /\
    stack s' (i - 2) = Word x /\
    (forall j, j < i - 2 -> stack s' j = m j).
Proof.
  intros Hx Hmx Hmy.
  assert (E : wrap (signed (wrap (signed x - signed y)) + signed y) = x).
  { rewrite wrap_signed_shift, wrap_wrap_shift.
    replace (signed x - signed y + signed y) with (signed x) by lia.
    rewrite signed_congr. apply wrap_small. exact Hx. }
  eexists. split.
  - cbn. replace (i + -1) with (i - 1) by lia. rewrite Hmy. cbn.
    replace (i - 1 + -1) with (i - 2) by lia. rewrite Hmx. cbn.
    rewrite upd_eq by lia. cbn.
    rewrite upd_other by lia. rewrite upd_eq by lia. cbn.
    reflexivity.
  - cbn. split; [f_equal; lia|].
    split; [rewrite upd_eq by lia; f_equal; exact E|].
    intros j Hj. rewrite !upd_other by lia. reflexivity.
Qed.

Lemma add_undoes_subtract_witness :
  exists s',
    (subtract ;;; push (Word 5) ;;; add)
      (mkInterp (CodePtr 6) (StackPtr 5) (StackPtr 0)
         (upd (upd zero_memory 3 (Word 2)) 4 (Word 5)))
    = Next tt s' /\
    stack s' 3 = Word 2.
Proof.
  destruct (add_undoes_subtract (CodePtr 6) 5 (StackPtr 0)
              (upd (upd zero_memory 3 (Word 2)) 4 (Word 5)) 2 5)
    as (s' & H & _ & Hv & _); try reflexivity; try lia.
  exists s'. split; [exact H|exact Hv].
Defined.

(** ** wordcode2.c and wordcode3.c: [CALL] by recursion of [execute] *)

Lemma decode_tag w o : Wordcode.decode w = Some o -> w = Wordcode.tag o.
Proof.
  destruct w as [|p|p]; [| |discriminate]; cbn.
  - intros H. inversion H. reflexivity.
  - destruct p as [[[|p|]|[|p|]|]|[[|p|]|[|p|]|]|];
      cbn; intros H; inversion H; reflexivity.
Qed.

Section Wordcode2Facts.
Variable program : list Z.
Variable cap : Z.

(** An instruction other than [CALL] and [RET] is a turn of the loop on
    what that instruction does in wordcode.c. *)
Lemma wc2_within_next fuel pc p b m w s2 :
  sp_within cap (mkInterp (CodePtr pc) p b m) = true ->
  0 <= pc -> nth_error program (Z.to_nat pc) = Some w ->
  w <> 2 -> w <> 6 ->
  Wordcode.step program (mkInterp (CodePtr pc) p b m) = Next tt s2 ->
  Wordcode2.execute_within program cap (S fuel) (mkInterp (CodePtr pc) p b m)
  = Wordcode2.execute_within program cap fuel s2.
Proof.
  intros Hin Hpc Hw H2 H6 Hstep.
  cbn [Wordcode2.execute_within]. rewrite Hin.
  unfold Wordcode.step, bind in Hstep.
  rewrite (wc_fetch _ _ _ _ _ _ Hpc Hw) in *.
  destruct (Wordcode.decode w) as [o|] eqn:Hd; [|discriminate].
  apply decode_tag in Hd.
  destruct o; cbn in Hd; try lia;
    cbv beta iota in Hstep |- *; unfold bind in *; rewrite Hstep; reflexivity.
Qed.

Lemma wc2_returns_next (P : val -> interpreter -> Prop) pc p b m w s2 :
  sp_within cap (mkInterp (CodePtr pc) p b m) = true ->
  0 <= pc -> nth_error program (Z.to_nat pc) = Some w ->
  w <> 2 -> w <> 6 ->
  Wordcode.step program (mkInterp (CodePtr pc) p b m) = Next tt s2 ->
  Wordcode2.returns_within program cap P s2 ->
  Wordcode2.returns_within program cap P (mkInterp (CodePtr pc) p b m).
Proof.
  intros Hin Hpc Hw H2 H6 Hstep (fuel0 & r & s' & HP & Hrun).
  exists (S fuel0), r, s'. split; [exact HP|].
  intros [|fuel] Hle; [lia|].
  rewrite (wc2_within_next fuel pc p b m w s2) by assumption.
  apply Hrun. lia.
Qed.

Lemma wc2_returns_ret (P : val -> interpreter -> Prop) pc p b m r s' :
  sp_within cap (mkInterp (CodePtr pc) p b m) = true ->
  0 <= pc -> nth_error program (Z.to_nat pc) = Some 6 ->
  pop (mkInterp (CodePtr (pc + 1)) p b m) = Next r s' ->
  P r s' ->
  Wordcode2.returns_within program cap P (mkInterp (CodePtr pc) p b m).
Proof.
  intros Hin Hpc Hw Hpop HP.
  exists 1%nat, r, s'. split; [exact HP|].
  intros [|fuel] Hle; [lia|].
  cbn [Wordcode2.execute_within]. rewrite Hin.
  rewrite (wc_fetch _ _ _ _ _ _ Hpc Hw).
  cbv beta iota. change (Wordcode.decode 6) with (Some RET). cbv beta iota.
  rewrite Hpop. reflexivity.
Qed.

Lemma wc2_returns_call (P Q : val -> interpreter -> Prop) pc p b m argc s1 :
  sp_within cap (mkInterp (CodePtr pc) p b m) = true ->
  0 <= pc -> nth_error program (Z.to_nat pc) = Some 2 ->
  Wordcode2.enter_call program (mkInterp (CodePtr (pc + 1)) p b m)
  = Next argc s1 ->
  Wordcode2.returns_within program cap P s1 ->
  (forall r s2, P r s2 ->
     exists s3, Wordcode2.leave_call argc r s2 = Next tt s3 /\
                Wordcode2.returns_within program cap Q s3) ->
  Wordcode2.returns_within program cap Q (mkInterp (CodePtr pc) p b m).
Proof.
  intros Hin Hpc Hw Henter (fuel1 & r & s2 & HP & Hrun1) Hrest.
  destruct (Hrest r s2 HP) as (s3 & Hleave & fuel2 & r' & s' & HQ & Hrun2).
  exists (S (Nat.max fuel1 fuel2)), r', s'. split; [exact HQ|].
  intros [|fuel] Hle; [lia|].
  cbn [Wordcode2.execute_within]. rewrite Hin.
  rewrite (wc_fetch _ _ _ _ _ _ Hpc Hw).
  cbv beta iota. change (Wordcode.decode 2) with (Some CALL). cbv beta iota.
  unfold Wordcode2.execute_call. rewrite Henter.
  rewrite Hrun1 by lia. rewrite Hleave.
  apply Hrun2. lia.
Qed.

(** What the observed [execute] gives, [execute] gives. *)
Lemma wc2_execute_within_execute : forall fuel s r,
  Wordcode2.execute_within program cap fuel s = Some r ->
  Wordcode2.execute program fuel s = Some r.
Proof.
  induction fuel as [|fuel IH]; intros s r; [discriminate|].
  cbn [Wordcode2.execute_within Wordcode2.execute].
  destruct (sp_within cap s); [|discriminate].
  destruct (Wordcode.fetch program s) as [opcode s1|h]; [|intros H; exact H].
  destruct (Wordcode.decode opcode) as [[]|]; try (intros H; exact H);
    try (match goal with
         | |- match ?x with _ => _ end = _ -> _ =>
             destruct x; [apply IH|intros H; exact H]
         end).
  unfold Wordcode2.execute_call.
  destruct (Wordcode2.enter_call program s1) as [argc s2|h]; [|intros H; exact H].
  destruct (Wordcode2.execute_within program cap fuel s2) as [[v s3|h]|] eqn:E;
    [| |discriminate]; rewrite (IH _ _ E).
  - destruct (Wordcode2.leave_call argc v s3); [apply IH|intros H; exact H].
  - intros H; exact H.
Qed.
End Wordcode2Facts.

Lemma sp_within_at cap i b m j :
  0 <= j <= cap -> sp_within cap (mkInterp i (StackPtr j) b m) = true.
Proof.
  intros H. unfold sp_within. cbn.
  apply andb_true_intro. split; apply Z.leb_le; lia.
Qed.

Ltac ret_step :=
  eapply wc2_returns_next;
  [ apply sp_within_at; unfold STACK_SIZE in *; lia
  | lia | reflexivity | lia | lia | exec1; norm_sp; reflexivity | ].

Ltac ret_now :=
  eapply wc2_returns_ret;
  [ apply sp_within_at; unfold STACK_SIZE in *; lia
  | lia | reflexivity | exec1; norm_sp; reflexivity
  | cbn; repeat split; try (f_equal; lia);
    [ mem_simpl | intros; mem_simpl; try reflexivity ] ].

(** A [CALL]: the induction hypothesis [IH] for the argument [n'] and the
    frame base [b'], then the rest of [execute_call]. *)
Ltac ret_call IH n' b' :=
  eapply wc2_returns_call;
  [ apply sp_within_at; unfold STACK_SIZE in *; lia
  | lia | reflexivity | exec1; norm_sp; reflexivity
  | match goal with
    | |- Wordcode2.returns_within _ _ _
           {| ip := _; sp := StackPtr ?e; bp := _; stack := ?mm |} =>
        replace e with (b' + 3) by lia;
        apply (IH n' b' mm);
        [ lia | lia | lia | lia
        | mem_simpl; try reflexivity; do 2 f_equal; lia ]
    end
  | let Hb := fresh "Hbp" in let Hs := fresh "Hsp" in
    let Hf := fresh "Hframe" in
    intros ? [? ? ? ?] (-> & Hb & Hs & Hf); cbn in Hb, Hs, Hf; subst;
    eexists; split; [ exec1; norm_sp; reflexivity | ] ].

(** The call of [execute] on the body of [fib], entered with frame base
    [b], the argument n in its local 0 and room in the array, returns f(n)
    without leaving the array, with [sp] on the three words of the frame,
    which are as they were, like every word below them. *)
Lemma wc2_fib_returns : forall (k : nat) n b m,
  - 2 ^ 63 <= n < 2 ^ 63 -> n < Z.of_nat k ->
  0 <= b -> b + Z.max 5 (4 * n + 2) <= STACK_SIZE ->
  m (b + 2) = Word (wrap n) ->
  Wordcode2.returns_within Wordcode2.fib_code STACK_SIZE
    (fun r s' =>
       r = Word (wrap (f n)) /\ bp s' = StackPtr b /\
       sp s' = StackPtr (b + 3) /\
       forall j, j < b + 3 -> stack s' j = m j)
    (mkInterp (CodePtr 0) (StackPtr (b + 3)) (StackPtr b) m).
Proof.
  induction k as [|k IH]; intros n b m Hn Hk Hb Hroom Hm;
    (destruct (Z_lt_le_dec n 2) as [Hlt|Hge]; [|try lia]).
  1, 2: do 3 ret_step; decide_lt; do 2 ret_step; ret_now;
    rewrite f_base by lia; reflexivity.
  do 3 ret_step. decide_lt. do 4 ret_step.
  ret_call IH (n - 1) (b + 4).
  do 3 ret_step.
  ret_call IH (n - 2) (b + 5).
  do 2 ret_step. ret_now. fib_sum n.
Qed.

Lemma wc2_fib_main m n :
  - 2 ^ 63 <= n <= 255 ->
  exists fuel0, forall fuel, (fuel0 <= fuel)%nat ->
    Wordcode2.main_within fuel m n = Some (Returned (Word (wrap (f n)))) /\
    Wordcode2.main fuel m n = Some (Returned (Word (wrap (f n)))).
Proof.
  intros Hn.
  destruct (wc2_fib_returns (S (Z.to_nat n)) n 0
              (upd (upd (upd m 0 (Word 0)) 1 (Word 0)) 2 (Word (wrap n))))
    as (fuel0 & r & s' & (-> & _) & Hrun);
    [lia|lia|lia|unfold STACK_SIZE; lia|mem_simpl; reflexivity|].
  exists fuel0. intros fuel Hle.
  specialize (Hrun fuel Hle). change (0 + 3) with 3 in Hrun.
  unfold Wordcode2.main_within, Wordcode2.main, Wordcode2.run_inside,
    Wordcode2.run.
  cbn -[Wordcode2.execute Wordcode2.execute_within].
  rewrite (wc2_execute_within_execute _ _ _ _ _ Hrun), Hrun.
  split; reflexivity.
Qed.

Lemma wc3_execute_eq program : forall fuel s,
  Wordcode3.execute program fuel s = Wordcode2.execute program fuel s.
Proof.
  induction fuel as [|fuel IH]; intros s; [reflexivity|].
  cbn [Wordcode3.execute Wordcode2.execute].
  destruct (Wordcode.fetch program s) as [opcode s1|h]; [|reflexivity].
  destruct (Wordcode.decode opcode) as [[]|]; try reflexivity;
    try (match goal with
         | |- match ?r with _ => _ end = _ => destruct r; [apply IH|reflexivity]
         end).
Qed.

Lemma wc3_main_eq fuel m n : Wordcode3.main fuel m n = Wordcode2.main fuel m n.
Proof.
  unfold Wordcode3.main, Wordcode2.main, Wordcode3.run, Wordcode2.run.
  change (Wordcode3.setup m n) with (Wordcode2.setup m n).
  destruct (Wordcode2.setup m n) as [[] s|h]; [|reflexivity].
  change Wordcode3.fib_code with Wordcode2.fib_code.
  rewrite wc3_execute_eq. reflexivity.
Qed.

Lemma wc3_execute_within_eq program cap : forall fuel s,
  Wordcode3.execute_within program cap fuel s
  = Wordcode2.execute_within program cap fuel s.
Proof.
  induction fuel as [|fuel IH]; intros s; [reflexivity|].
  cbn [Wordcode3.execute_within Wordcode2.execute_within].
  destruct (sp_within cap s); [|reflexivity].
  destruct (Wordcode.fetch program s) as [opcode s1|h]; [|reflexivity].
  destruct (Wordcode.decode opcode) as [[]|]; try reflexivity;
    try (match goal with
         | |- match ?r with _ => _ end = match ?r' with _ => _ end =>
             change r with r'; destruct r'; [apply IH|reflexivity]
         end; fail).
  unfold Wordcode3.execute_call, Wordcode2.execute_call.
  change (Wordcode3.enter_call program s1)
    with (Wordcode2.enter_call program s1).
  destruct (Wordcode2.enter_call program s1) as [argc s2|h]; [|reflexivity].
  rewrite IH.
  destruct (Wordcode2.execute_within program cap fuel s2) as [[r s3|h]|];
    try reflexivity.
  change (Wordcode3.leave_call argc r s3)
    with (Wordcode2.leave_call argc r s3).
  destruct (Wordcode2.leave_call argc r s3); [apply IH|reflexivity].
Qed.

Lemma wc3_main_within_eq fuel m n :
  Wordcode3.main_within fuel m n = Wordcode2.main_within fuel m n.
Proof.
  unfold Wordcode3.main_within, Wordcode2.main_within,
    Wordcode3.run_inside, Wordcode2.run_inside.
  change (Wordcode3.setup m n) with (Wordcode2.setup m n).
  destruct (Wordcode2.setup m n) as [[] s|h]; [|reflexivity].
  change Wordcode3.fib_code with Wordcode2.fib_code.
  rewrite wc3_execute_within_eq. reflexivity.
Qed.

(** [main] of wordcode2.c, whose [CALL] is a recursive call of [execute],
    returns f(n) modulo 2^64 for every [int] argument n <= 255, whatever
    the stack array holds, and no turn of the loop, in any of the nested
    calls of [execute], starts outside the array: every call of [execute]
    comes back. *)
Theorem wc2_fib_result m n :
  - 2 ^ 31 <= n < 2 ^ 31 -> n <= 255 ->
  exists fuel0, forall fuel, (fuel0 <= fuel)%nat ->
    Wordcode2.main_within fuel m n = Some (Returned (Word (wrap (f n)))) /\
    Wordcode2.main fuel m n = Some (Returned (Word (wrap (f n)))).
Proof. intros Hint Hn. apply wc2_fib_main. lia. Qed.

Lemma wc2_fib_result_witness :
  exists fuel0,
    Wordcode2.main_within fuel0 zero_memory 5 = Some (Returned (Word 8)) /\
    Wordcode2.main fuel0 zero_memory 5 = Some (Returned (Word 8)).
Proof.
  destruct (wc2_fib_result zero_memory 5) as [fuel0 H]; [lia|lia|].
  exists fuel0. apply (H fuel0). apply Nat.le_refl.
Defined.

(** wordcode3.c, which has the cases of the switch of wordcode2.c as
    functions of their own, behaves as wordcode2.c: [execute] gives the
    same on every code vector, from every state and with every fuel, and
    so does [main]. *)
Theorem wc3_behaves_as_wc2 program fuel s m n :
  Wordcode3.execute program fuel s = Wordcode2.execute program fuel s /\
  Wordcode3.main fuel m n = Wordcode2.main fuel m n.
Proof. split; [apply wc3_execute_eq|apply wc3_main_eq]. Qed.

(** [main] of wordcode3.c returns f(n) modulo 2^64 for every [int]
    argument n <= 255, whatever the stack array holds, without a turn of
    the loop that starts outside the array. *)
Theorem wc3_fib_result m n :
  - 2 ^ 31 <= n < 2 ^ 31 -> n <= 255 ->
  exists fuel0, forall fuel, (fuel0 <= fuel)%nat ->
    Wordcode3.main_within fuel m n = Some (Returned (Word (wrap (f n)))) /\
    Wordcode3.main fuel m n = Some (Returned (Word (wrap (f n)))).
Proof.
  intros Hint Hn. destruct (wc2_fib_main m n ltac:(lia)) as [fuel0 H].
  exists fuel0. intros fuel Hle.
  rewrite wc3_main_within_eq, wc3_main_eq. apply H. exact Hle.
Qed.

Lemma wc3_fib_result_witness :
  exists fuel0,
    Wordcode3.main_within fuel0 zero_memory 5 = Some (Returned (Word 8)) /\
    Wordcode3.main fuel0 zero_memory 5 = Some (Returned (Word 8)).
Proof.
  destruct (wc3_fib_result zero_memory 5) as [fuel0 H]; [lia|lia|].
  exists fuel0. apply (H fuel0). apply Nat.le_refl.
Defined.
